(** * Speckle session daemon: reconciliation of worker sessions with bead statuses

    A shallow embedding of [.speckle/scripts/session_daemon.py]: the loader of
    [issues.jsonl], the two status classifiers, the reconciliation pass
    [sync_sessions] and the polling loop [watch_loop], followed by the
    properties of the reconciliation engine.

    Conventions of the embedding.
    - A value returned by [json.loads] is a [pyval].  JSON numbers are the
      integers; fractional numbers, [NaN] and [Infinity] are not represented.
    - Text is a [string] of 8-bit characters.
    - Python's [dict] and [set] are [gmap] and [gset] over [key], the hashable
      values up to Python's key equality ([True == 1]).  The order in which a
      [set] is iterated is a parameter (class [SetOrder]).
    - The session manager is an external collaborator: an abstract state with
      three operations (class [SessionManager]); a failure is the falsy value
      that [sync_sessions] tests for.
    - The record file is given as the daemon finds it: missing, or its
      modification time, its lines, and whether reading it ends in [IOError].
      [st_mtime] is only compared, and is an integer here.
    - Printing, calls to the session manager and sleeps are recorded in an
      event log; exceptions are explicit outcomes.  The [while True] of
      [watch_loop] runs over the list of ticks that precede the interrupt. *)

From Stdlib Require Import ZArith Ascii String.
From stdpp Require Import gmap strings list fin_maps sorting.

Open Scope string_scope.
Open Scope list_scope.
Open Scope Z_scope.

(** ** Python values *)

#[local] Set Warnings "-register-all".

Inductive pyval : Type :=
| PNone
| PBool (b : bool)
| PInt (n : Z)
| PStr (s : string)
| PList (l : list pyval)
| PDict (d : list (string * pyval)).

(** A [dict] with string keys, as [json.loads] builds for a JSON object:
    every key occurs once. *)
Abbreviation pydict := (list (string * pyval)).

(** Hashable values, up to the equality Python uses for dict keys and set
    members: [True] and [1] are the same key, so are [False] and [0]. *)
Inductive key : Type :=
| KNone
| KInt (n : Z)
| KStr (s : string).

#[global] Instance key_eq_dec : EqDecision key.
Proof. solve_decision. Defined.

Definition key_to_sum (k : key) : unit + (Z + string) :=
  match k with
  | KNone => inl tt
  | KInt n => inr (inl n)
  | KStr s => inr (inr s)
  end.

Definition key_of_sum (x : unit + (Z + string)) : key :=
  match x with
  | inl _ => KNone
  | inr (inl n) => KInt n
  | inr (inr s) => KStr s
  end.

#[global] Instance key_countable : Countable key.
Proof.
  apply (inj_countable' key_to_sum key_of_sum).
  by intros [].
Defined.

(** [hash(v)]: [None] stands for [TypeError: unhashable type]. *)
Definition key_of (v : pyval) : option key :=
  match v with
  | PNone => Some KNone
  | PBool b => Some (KInt (if b then 1 else 0))
  | PInt n => Some (KInt n)
  | PStr s => Some (KStr s)
  | PList _ => None
  | PDict _ => None
  end.

(** [bool(v)] *)
Definition truthy (v : pyval) : bool :=
  match v with
  | PNone => false
  | PBool b => b
  | PInt n => negb (n =? 0)
  | PStr s => match s with EmptyString => false | String _ _ => true end
  | PList l => match l with [] => false | _ :: _ => true end
  | PDict d => match d with [] => false | _ :: _ => true end
  end.

(** [d.get(k, default)] *)
Fixpoint dict_get (d : pydict) (k : string) (default : pyval) : pyval :=
  match d with
  | [] => default
  | (k', v) :: d' => if bool_decide (k' = k) then v else dict_get d' k default
  end.

(** [d[k] = v]: an existing key keeps its place. *)
Fixpoint dict_set (d : pydict) (k : string) (v : pyval) : pydict :=
  match d with
  | [] => [(k, v)]
  | (k', v') :: d' =>
      if bool_decide (k' = k) then (k', v) :: d' else (k', v') :: dict_set d' k v
  end.

(** [v == s] for a string literal [s] *)
Definition eq_str (v : pyval) (s : string) : bool :=
  match v with
  | PStr t => bool_decide (t = s)
  | _ => false
  end.

(** [v[:n]]: defined on strings and lists, [TypeError] otherwise. *)
Definition slice_to (n : nat) (v : pyval) : option pyval :=
  match v with
  | PStr s => Some (PStr (substring 0 n s))
  | PList l => Some (PList (take n l))
  | _ => None
  end.

(** ** Text: [str.strip] *)

(** [str.isspace] on the 7-bit characters: TAB to CR, FS to US, and space. *)
Definition is_space (c : ascii) : bool :=
  let n := nat_of_ascii c in
  ((9 <=? n)%nat && (n <=? 13)%nat) || ((28 <=? n)%nat && (n <=? 32)%nat).

Fixpoint lstrip (s : string) : string :=
  match s with
  | String c s' => if is_space c then lstrip s' else s
  | EmptyString => EmptyString
  end.

Fixpoint rstrip (s : string) : string :=
  match s with
  | String c s' =>
      match rstrip s' with
      | EmptyString => if is_space c then EmptyString else String c EmptyString
      | r => String c r
      end
  | EmptyString => EmptyString
  end.

Definition strip (s : string) : string := rstrip (lstrip s).

(** ** [json.loads]

    The loader is stated over any decoder [loads : string -> option pyval],
    [None] standing for [json.JSONDecodeError].  [json_loads] below is the
    decoder used on concrete files: it follows Python's scanner on JSON texts
    whose numbers are integer literals and whose strings have no [\u]
    escapes. *)

Definition is_json_ws (c : ascii) : bool :=
  match c with
  | " " | "009" | "010" | "013" => true
  | _ => false
  end%char.

Fixpoint skip_ws (s : string) : string :=
  match s with
  | String c s' => if is_json_ws c then skip_ws s' else s
  | EmptyString => EmptyString
  end.

Definition is_digit (c : ascii) : bool :=
  let n := nat_of_ascii c in (48 <=? n)%nat && (n <=? 57)%nat.

Definition digit_val (c : ascii) : Z := Z.of_nat (nat_of_ascii c) - 48.

(** The digits at the head of [s], read in base ten onto [acc]. *)
Fixpoint scan_digits (s : string) (acc : Z) : Z * string :=
  match s with
  | String c s' => if is_digit c then scan_digits s' (10 * acc + digit_val c) else (acc, s)
  | EmptyString => (acc, s)
  end.

(** An integer literal: an optional minus sign, then a single zero or a digit
    string without leading zero; not followed by a fraction or an exponent. *)
Definition scan_int (s : string) : option (Z * string) :=
  let '(neg, s1) := match s with String "-" r => (true, r) | _ => (false, s) end in
  match s1 with
  | String c r =>
      if is_digit c then
        let '(n, rest) := if bool_decide (c = "0"%char) then (0, r) else scan_digits s1 0 in
        match rest with
        | String "." _ | String "e" _ | String "E" _ => None
        | _ => Some (if neg then - n else n, rest)
        end
      else None
  | EmptyString => None
  end.

(** The body of a string literal, after the opening quote. *)
Fixpoint scan_string (s : string) : option (string * string) :=
  match s with
  | EmptyString => None
  | String "034" rest => Some (EmptyString, rest)
  | String "\" (String e rest) =>
      let esc (c : ascii) :=
        match scan_string rest with
        | Some (t, r) => Some (String c t, r)
        | None => None
        end in
      match e with
      | "034" => esc "034"
      | "\" => esc "\"
      | "/" => esc "/"
      | "b" => esc "008"
      | "f" => esc "012"
      | "n" => esc "010"
      | "r" => esc "013"
      | "t" => esc "009"
      | _ => None
      end%char
  | String c rest =>
      if (nat_of_ascii c <? 32)%nat then None
      else match scan_string rest with
           | Some (t, r) => Some (String c t, r)
           | None => None
           end
  end.

Definition scan_lit (lit : string) (v : pyval) (s : string) : option (pyval * string) :=
  if String.prefix lit s
  then Some (v, substring (String.length lit) (String.length s - String.length lit) s)
  else None.

Fixpoint scan_value (fuel : nat) (s : string) {struct fuel} : option (pyval * string) :=
  match fuel with
  | O => None
  | S fuel' =>
      match s with
      | String "034" r =>
          match scan_string r with
          | Some (t, r') => Some (PStr t, r')
          | None => None
          end
      | String "{" r =>
          match skip_ws r with
          | String "}" r' => Some (PDict [], r')
          | r' =>
              match scan_members fuel' r' with
              | Some (ms, r'') =>
                  Some (PDict (fold_left (fun d kv => dict_set d kv.1 kv.2) ms []), r'')
              | None => None
              end
          end
      | String "[" r =>
          match skip_ws r with
          | String "]" r' => Some (PList [], r')
          | r' =>
              match scan_elems fuel' r' with
              | Some (vs, r'') => Some (PList vs, r'')
              | None => None
              end
          end
      | String "n" _ => scan_lit "null" PNone s
      | String "t" _ => scan_lit "true" (PBool true) s
      | String "f" _ => scan_lit "false" (PBool false) s
      | _ =>
          match scan_int s with
          | Some (n, r) => Some (PInt n, r)
          | None => None
          end
      end
  end
with scan_elems (fuel : nat) (s : string) {struct fuel} : option (list pyval * string) :=
  match fuel with
  | O => None
  | S fuel' =>
      match scan_value fuel' s with
      | Some (v, r) =>
          match skip_ws r with
          | String "," r' =>
              match scan_elems fuel' (skip_ws r') with
              | Some (vs, r'') => Some (v :: vs, r'')
              | None => None
              end
          | String "]" r' => Some ([v], r')
          | _ => None
          end
      | None => None
      end
  end
with scan_members (fuel : nat) (s : string) {struct fuel} : option (pydict * string) :=
  match fuel with
  | O => None
  | S fuel' =>
      match s with
      | String "034" r =>
          match scan_string r with
          | Some (k, r1) =>
              match skip_ws r1 with
              | String ":" r2 =>
                  match scan_value fuel' (skip_ws r2) with
                  | Some (v, r3) =>
                      match skip_ws r3 with
                      | String "," r4 =>
                          match scan_members fuel' (skip_ws r4) with
                          | Some (ms, r5) => Some ((k, v) :: ms, r5)
                          | None => None
                          end
                      | String "}" r4 => Some ([(k, v)], r4)
                      | _ => None
                      end
                  | None => None
                  end
              | _ => None
              end
          | None => None
          end
      | _ => None
      end
  end.

(** [json.loads(s)]: one value, with white space around it and nothing else. *)
Definition json_loads (s : string) : option pyval :=
  match scan_value (2 * String.length s + 2) (skip_ws s) with
  | Some (v, r) => match skip_ws r with EmptyString => Some v | _ => None end
  | None => None
  end.

(** Text of the record line [{"id": "<id>", "status": "<status>", "title": "<title>"}]
    for plain field texts. *)
Definition quoted (s : string) : string := String "034" (s +:+ String "034" EmptyString).

Definition record_line (id status title : string) : string :=
  "{" +:+ quoted "id" +:+ ": " +:+ quoted id +:+ ", "
      +:+ quoted "status" +:+ ": " +:+ quoted status +:+ ", "
      +:+ quoted "title" +:+ ": " +:+ quoted title +:+ "}".

(** ** Exceptions, events and the session manager *)

(** The exceptions that the statements of the daemon raise on decoded values
    and on a file that fails to read, and the interrupt.  An exception of
    another kind from inside [json.loads] or from the session manager is not
    modelled: the decoder answers with a value or a rejection, and the
    session manager answers every call. *)
Inductive exn : Type :=
| IOError
| AttributeError
| TypeError
| KeyboardInterrupt.

#[global] Instance exn_eq_dec : EqDecision exn.
Proof. solve_decision. Defined.

Inductive outcome (A : Type) : Type :=
| Ret (a : A)
| Raise (e : exn).
Arguments Ret {A} a.
Arguments Raise {A} e.

(** One constructor per [print] statement of the daemon. *)
Inductive message : Type :=
| MsgReadError
| MsgSpawning (bead_id : key) (title : pyval)
| MsgTerminating (bead_id : key)
| MsgStarted
| MsgProjectRoot
| MsgIssuesFile
| MsgSessionsDir
| MsgDryRun (dry_run : bool)
| MsgBlank
| MsgChanged
| MsgActions (n : nat)
| MsgStopped.

(** The log of a run: what was printed, each entry into [sync_sessions], each
    call to the session manager with its answer, and each [time.sleep]. *)
Inductive event : Type :=
| EvPrint (m : message)
| EvSync (dry_run verbose : bool)
| EvListSessions (active_only : bool)
| EvSpawn (bead_id : key) (ok : bool)
| EvTerminate (bead_id : key) (ok : bool)
| EvSleep (seconds : Z).

(** A session handle of the session manager; the daemon's pass reads its
    [bead_id] only. *)
Record session : Type := Session { bead_id : key }.

(** The session manager ([session_manager.py]), over its own state [R]. *)
Class SessionManager (R : Type) : Type := {
  list_sessions : bool -> R -> list session * R;
  spawn_session : key -> R -> option session * R;
  terminate_session : key -> R -> bool * R
}.

(** The order in which Python iterates over a [set]: some enumeration of its
    members, each once. *)
Class SetOrder : Type := {
  set_iter : gset key -> list key;
  set_iter_perm : forall X, set_iter X ≡ₚ elements X
}.

(** The record file as one tick of the daemon sees it: modification time, the
    lines its iterator yields, and whether reading then fails with [IOError]
    (a failing [open] is no line and the fault). *)
Record fstate : Type := File {
  f_mtime : Z;
  f_lines : list string;
  f_fault : bool
}.

(** Configuration *)
Definition WATCH_INTERVAL : Z := 2.
Definition AUTO_SPAWN_ENABLED : bool := true.
Definition AUTO_TERMINATE_ENABLED : bool := true.

(** ** The daemon *)

Section daemon.
Context {R : Type} {SM : SessionManager R} {SO : SetOrder}.
Variable loads : string -> option pyval.

(** A computation runs from a state of the session manager to an outcome,
    a new state and the events it produced. *)
Record run (A : Type) : Type := Run {
  result : outcome A;
  registry : R;
  log : list event
}.
Arguments Run {A} _ _ _.
Arguments result {A} _.
Arguments registry {A} _.
Arguments log {A} _.

Definition M (A : Type) : Type := R -> run A.

#[global] Instance M_ret : MRet M := fun A a r => Run (Ret a) r [].

#[global] Instance M_bind : MBind M := fun A B f m r =>
  match result (m r) with
  | Ret a =>
      let x := f a (registry (m r)) in
      Run (result x) (registry x) (log (m r) ++ log x)
  | Raise e => Run (Raise e) (registry (m r)) (log (m r))
  end.

Definition raise {A : Type} (e : exn) : M A := fun r => Run (Raise e) r [].

Definition emit (e : event) : M unit := fun r => Run (Ret tt) r [e].

Definition print (m : message) : M unit := emit (EvPrint m).

(** [try: m except e: h] *)
Definition try_except {A : Type} (m : M A) (e : exn) (h : M A) : M A := fun r =>
  match result (m r) with
  | Raise e' =>
      if bool_decide (e' = e) then
        let x := h (registry (m r)) in
        Run (result x) (registry x) (log (m r) ++ log x)
      else m r
  | Ret _ => m r
  end.

Definition call_list_sessions (active_only : bool) : M (list session) := fun r =>
  let '(l, r') := list_sessions active_only r in
  Run (Ret l) r' [EvListSessions active_only].

Definition call_spawn_session (id : key) : M (option session) := fun r =>
  let '(s, r') := spawn_session id r in
  Run (Ret s) r' [EvSpawn id (match s with Some _ => true | None => false end)].

Definition call_terminate_session (id : key) : M bool := fun r =>
  let '(b, r') := terminate_session id r in
  Run (Ret b) r' [EvTerminate id b].

(** *** [load_issues] *)

(** The [for line in f] loop on the dict [issues], mutated in place: the
    dict as the loop leaves it, and the exception that ended it, if any. *)
Fixpoint read_lines (lines : list string) (fault : bool) (issues : gmap key pydict)
  : gmap key pydict * option exn :=
  match lines with
  | [] => (issues, if fault then Some IOError else None)
  | line :: rest =>
      let line := strip line in
      match line with
      | EmptyString => read_lines rest fault issues
      | String _ _ =>
          match loads line with
          | None => read_lines rest fault issues
          | Some (PDict issue) =>
              let issue_id := dict_get issue "id" PNone in
              if truthy issue_id then
                match key_of issue_id with
                | Some k => read_lines rest fault (<[k := issue]> issues)
                | None => (issues, Some TypeError)
                end
              else read_lines rest fault issues
          | Some _ => (issues, Some AttributeError)
          end
      end
  end.

Definition load_issues (fs : option fstate) : M (gmap key pydict) :=
  match fs with
  | None => mret ∅
  | Some f =>
      match read_lines (f_lines f) (f_fault f) ∅ with
      | (issues, None) => mret issues
      | (issues, Some IOError) => print MsgReadError;; mret issues
      | (_, Some e) => raise e
      end
  end.

(** *** The classifiers *)

Definition get_in_progress_beads (issues : gmap key pydict) : gset key :=
  dom (filter (fun kv => eq_str (dict_get kv.2 "status" PNone) "in_progress" = true) issues).

Definition closed_statuses : gset key :=
  {[ KStr "closed"; KStr "done"; KStr "blocked"; KStr "blocking";
     KStr "cancelled"; KStr "wontfix" ]}.

(** [v in X] for a set [X]: the value is hashed first. *)
Definition in_set (v : pyval) (X : gset key) : outcome bool :=
  match key_of v with
  | Some k => Ret (bool_decide (k ∈ X))
  | None => Raise TypeError
  end.

(** The comprehension [{id for id, issue in items if cond(issue)}]. *)
Fixpoint set_comp (cond : pydict -> outcome bool) (items : list (key * pydict))
  : outcome (gset key) :=
  match items with
  | [] => Ret ∅
  | (id, issue) :: rest =>
      match cond issue with
      | Raise e => Raise e
      | Ret b =>
          match set_comp cond rest with
          | Raise e => Raise e
          | Ret X => Ret (if b then {[id]} ∪ X else X)
          end
      end
  end.

Definition get_closed_beads (issues : gmap key pydict) : outcome (gset key) :=
  set_comp (fun issue => in_set (dict_get issue "status" PNone) closed_statuses)
           (map_to_list issues).

Definition lift {A : Type} (o : outcome A) : M A := fun r => Run o r [].

(** *** [sync_sessions] *)

Fixpoint spawn_loop (dry_run verbose : bool) (issues : gmap key pydict)
    (ids : list key) (actions : gmap key string) : M (gmap key string) :=
  match ids with
  | [] => mret actions
  | bead_id :: rest =>
      let issue := default [] (issues !! bead_id) in
      let title := dict_get issue "title" (PStr "Unknown") in
      (if verbose then
         match slice_to 50 title with
         | Some t => print (MsgSpawning bead_id t)
         | None => raise TypeError
         end
       else mret tt);;
      actions ← (if negb dry_run then
                   session ← call_spawn_session bead_id;
                   match session with
                   | Some _ => mret (<[bead_id := "spawned"]> actions)
                   | None => mret (<[bead_id := "spawn_failed"]> actions)
                   end
                 else mret (<[bead_id := "would_spawn"]> actions));
      spawn_loop dry_run verbose issues rest actions
  end.

Fixpoint terminate_loop (dry_run verbose : bool)
    (ids : list key) (actions : gmap key string) : M (gmap key string) :=
  match ids with
  | [] => mret actions
  | bead_id :: rest =>
      (if verbose then print (MsgTerminating bead_id) else mret tt);;
      actions ← (if negb dry_run then
                   ok ← call_terminate_session bead_id;
                   if ok : bool then mret (<[bead_id := "terminated"]> actions)
                   else mret (<[bead_id := "terminate_failed"]> actions)
                 else mret (<[bead_id := "would_terminate"]> actions));
      terminate_loop dry_run verbose rest actions
  end.

Definition sync_sessions (fs : option fstate) (dry_run verbose : bool)
  : M (gmap key string) :=
  emit (EvSync dry_run verbose);;
  issues ← load_issues fs;
  let in_progress := get_in_progress_beads issues in
  closed ← lift (get_closed_beads issues);
  sessions ← call_list_sessions true;
  let active_sessions : gset key := list_to_set (bead_id <$> sessions) in
  actions ← (if AUTO_SPAWN_ENABLED then
               let need_spawn := in_progress ∖ active_sessions in
               spawn_loop dry_run verbose issues (set_iter need_spawn) ∅
             else mret ∅);
  actions ← (if AUTO_TERMINATE_ENABLED then
               let need_terminate := active_sessions ∩ closed in
               terminate_loop dry_run verbose (set_iter need_terminate) actions
             else mret actions);
  mret actions.

(** *** [watch_loop] *)

(** One iteration of the [while True] body before its [time.sleep]: the new
    value of [last_mtime]. *)
Definition watch_tick (dry_run verbose : bool) (fs : option fstate) (last_mtime : Z)
  : M Z :=
  match fs with
  | Some f =>
      let mtime := f_mtime f in
      if mtime >? last_mtime then
        (if last_mtime >? 0 then print MsgChanged else mret tt);;
        actions ← sync_sessions fs dry_run verbose;
        (if bool_decide (actions = ∅) then mret tt
         else print (MsgActions (size actions)));;
        mret mtime
      else mret last_mtime
  | None => mret last_mtime
  end.

(** The loop over the ticks that the daemon lives through; each element is
    the record file as that tick finds it ([None]: no file).  The interrupt
    arrives once they are used up. *)
Fixpoint watch_ticks (dry_run verbose : bool) (ticks : list (option fstate))
    (last_mtime : Z) : M unit :=
  match ticks with
  | [] => raise KeyboardInterrupt
  | fs :: rest =>
      last_mtime ← watch_tick dry_run verbose fs last_mtime;
      emit (EvSleep WATCH_INTERVAL);;
      watch_ticks dry_run verbose rest last_mtime
  end.

Definition watch_loop (dry_run verbose : bool) (ticks : list (option fstate)) : M unit :=
  print MsgStarted;;
  print MsgProjectRoot;;
  print MsgIssuesFile;;
  print MsgSessionsDir;;
  print (MsgDryRun dry_run);;
  print MsgBlank;;
  let last_mtime := 0 in
  try_except (watch_ticks dry_run verbose ticks last_mtime)
             KeyboardInterrupt (print MsgStopped).

End daemon.

Arguments Run {R A} _ _ _.
Arguments result {R A} _.
Arguments registry {R A} _.
Arguments log {R A} _.

(** ** A session manager for tests

    Its state is the set of beads with a live session, the beads it refuses to
    spawn and the beads it fails to terminate. *)

Record fake_registry : Type := Fake {
  fake_live : gset key;
  fake_no_spawn : gset key;
  fake_no_terminate : gset key
}.

#[global] Instance fake_manager : SessionManager fake_registry := {
  list_sessions _ r := (Session <$> elements (fake_live r), r);
  spawn_session id r :=
    if bool_decide (id ∈ fake_no_spawn r) then (None, r)
    else (Some (Session id),
          Fake ({[id]} ∪ fake_live r) (fake_no_spawn r) (fake_no_terminate r));
  terminate_session id r :=
    if bool_decide (id ∈ fake_no_terminate r) then (false, r)
    else (true, Fake (fake_live r ∖ {[id]}) (fake_no_spawn r) (fake_no_terminate r))
}.

(** Iteration in the order of [elements]. *)
#[global] Instance elements_order : SetOrder := {
  set_iter := elements;
  set_iter_perm X := reflexivity (elements X)
}.

(** ** Vocabulary of the specification *)

(** The outcome tags of an action record. *)
Definition spawn_type (tag : string) : Prop :=
  tag = "spawned" \/ tag = "spawn_failed" \/ tag = "would_spawn".

Definition terminate_type (tag : string) : Prop :=
  tag = "terminated" \/ tag = "terminate_failed" \/ tag = "would_terminate".

Definition spawn_tag (ok : bool) : string :=
  if ok then "spawned" else "spawn_failed".

Definition terminate_tag (ok : bool) : string :=
  if ok then "terminated" else "terminate_failed".

(** The calls to the session manager found in a log, with their answers. *)
Definition spawn_call (e : event) : option (key * bool) :=
  match e with EvSpawn id ok => Some (id, ok) | _ => None end.

Definition terminate_call (e : event) : option (key * bool) :=
  match e with EvTerminate id ok => Some (id, ok) | _ => None end.

Definition spawn_calls (l : list event) : list (key * bool) := omap spawn_call l.

Definition terminate_calls (l : list event) : list (key * bool) := omap terminate_call l.

Definition is_sync (e : event) : bool :=
  match e with EvSync _ _ => true | _ => false end.

Definition is_changed_notice (e : event) : bool :=
  match e with EvPrint MsgChanged => true | _ => false end.

(** The per-action lines of a verbose pass. *)
Definition is_notice (e : event) : bool :=
  match e with
  | EvPrint (MsgSpawning _ _) | EvPrint (MsgTerminating _) => true
  | _ => false
  end.

(** Number of reconciliation passes started in a log. *)
Definition sync_count (l : list event) : nat := length (filter (fun e => is_sync e = true) l).

(** The assignments [actions[id] = tag], in order. *)
Definition record (entries : list (key * string)) (actions : gmap key string)
  : gmap key string :=
  foldl (fun a e => <[e.1 := e.2]> a) actions entries.

(** The title a verbose pass prints for a bead. *)
Definition title_of (issues : gmap key pydict) (id : key) : pyval :=
  dict_get (default [] (issues !! id)) "title" (PStr "Unknown").

(** A record is well typed when its status can be hashed and its title can be
    sliced: in particular when each is a string or absent. *)
Definition well_typed_issue (issue : pydict) : bool :=
  match key_of (dict_get issue "status" PNone),
        slice_to 50 (dict_get issue "title" (PStr "Unknown")) with
  | Some _, Some _ => true
  | _, _ => false
  end.

Definition well_typed (issues : gmap key pydict) : Prop :=
  map_Forall (fun _ issue => well_typed_issue issue = true) issues.

(** The inactive set of the State Classifier: the ids whose status is in the
    closed vocabulary. *)
Definition closed_status (v : pyval) : bool :=
  match v with
  | PStr s => bool_decide (KStr s ∈ closed_statuses)
  | _ => false
  end.

Definition InactiveSet (issues : gmap key pydict) : gset key :=
  dom (filter (fun kv => closed_status (dict_get kv.2 "status" PNone) = true) issues).

(** The action sets as the specification words them. *)
Definition needSpawn (activeSet liveSessionIds : gset key) : gset key :=
  activeSet ∖ liveSessionIds.

Definition needTerminate (liveSessionIds inactiveSet : gset key) : gset key :=
  liveSessionIds ∩ inactiveSet.

(** The ids of the live sessions that a pass reads from the session manager. *)
(** An event of a pass under way: neither the start of a pass nor the
    "changed" notice of the watch loop. *)
Definition quiet (e : event) : Prop :=
  is_sync e = false /\ is_changed_notice e = false.

(** The record file gives the watch loop no reason to run a pass: it is
    missing, or not newer than the time stamp last observed. *)
Definition unchanged (last_mtime : Z) (fs : option fstate) : Prop :=
  match fs with
  | Some f => f_mtime f <= last_mtime
  | None => True
  end.

(** The lines of the record file, none when the file is missing. *)
Definition file_lines (fs : option fstate) : list string :=
  match fs with
  | Some f => f_lines f
  | None => []
  end.

Definition live_ids {R : Type} {SM : SessionManager R} (r : R) : gset key :=
  list_to_set (bead_id <$> (list_sessions true r).1).

Section lines.
Variable loads : string -> option pyval.

(** What one line of the record file adds to the snapshot, if anything. *)
Definition record_of (line : string) : option (key * pydict) :=
  match strip line with
  | EmptyString => None
  | String _ _ as text =>
      match loads text with
      | Some (PDict issue) =>
          let issue_id := dict_get issue "id" PNone in
          if truthy issue_id then
            match key_of issue_id with
            | Some k => Some (k, issue)
            | None => None
            end
          else None
      | _ => None
      end
  end.

(** The exception a line makes the loader raise, if any. *)
Definition line_error (line : string) : option exn :=
  match strip line with
  | EmptyString => None
  | String _ _ as text =>
      match loads text with
      | None => None
      | Some (PDict issue) =>
          let issue_id := dict_get issue "id" PNone in
          if truthy issue_id then
            match key_of issue_id with
            | Some _ => None
            | None => Some TypeError
            end
          else None
      | Some _ => Some AttributeError
      end
  end.

(** A line is blank, or it is not blank and the decoder rejects it. *)
Definition blank (line : string) : Prop := strip line = EmptyString.

Definition unparseable (line : string) : Prop :=
  strip line <> EmptyString /\ loads (strip line) = None.

(** No line of the record file makes the loader raise: each is blank, or is
    rejected by the decoder, or decodes to a record whose id is falsy or can
    be hashed. *)
Definition loadable (fs : option fstate) : Prop :=
  Forall (fun line => line_error line = None) (file_lines fs).
End lines.

(** ** The commands: [one_shot], [status_report] and [main] *)

(** The lines the commands print, one constructor per [print] statement. *)
Inductive line : Type :=
| LnOneShot
| LnBlank
| LnSummary
| LnAction (bead_id : key) (action : string)
| LnNoActions
| LnStatusReport
| LnInProgressCount (n : nat)
| LnBead (bead_id : key) (title : pyval)
| LnActiveCount (n : nat)
| LnSession (running : bool) (bead_id : key) (title pid : pyval)
| LnCompletedCount (n : nat)
| LnFailedCount (n : nat)
| LnMissing
| LnOrphaned
| LnId (bead_id : key)
| LnInSync
| LnHelp.

(** What a command does, in order: the events of the daemon's own functions,
    the lines above, and the call [session_manager.list_sessions()]. *)
Inductive output : Type :=
| Daemon (e : event)
| Report (l : line)
| ListAll.

Definition daemon_event (o : output) : option event :=
  match o with Daemon e => Some e | _ => None end.

Definition daemon_events (l : list output) : list event := omap daemon_event l.

Definition report_line (o : output) : option line :=
  match o with Report l => Some l | _ => None end.

Definition report_lines (l : list output) : list line := omap report_line l.

(** Modelled from the spec: the states of a SessionHandle that the daemon
    names ([RUNNING], [COMPLETED], [FAILED]) and any other. *)
Inductive SessionState : Type :=
| RUNNING
| COMPLETED
| FAILED
| OTHER (name : string).

#[global] Instance SessionState_eq_dec : EqDecision SessionState.
Proof. solve_decision. Defined.

(** Modelled from the spec: the SessionHandle of the data model, with the
    fields that [status_report] reads. *)
Record handle : Type := Handle {
  h_bead_id : key;
  h_state : SessionState;
  h_pid : pyval;
  h_title : pyval;
  h_is_active : bool
}.

(** Modelled from the spec: [session_manager.list_sessions()], the listing
    without [active_only]. *)
Class SessionListing (R : Type) : Type := {
  list_all_sessions : R -> list handle * R
}.

(** The order of [sorted] on ids: integers by value, strings by their
    characters.  Across the kinds, where Python raises, it is made total. *)
Definition key_le (a b : key) : Prop :=
  match a, b with
  | KInt m, KInt n => m <= n
  | KStr s, KStr t => String.leb s t = true
  | KNone, _ => True
  | KInt _, KStr _ => True
  | _, _ => False
  end.

#[global] Instance key_le_dec : RelDecision key_le.
Proof. intros [| |] [| |]; simpl; apply _. Defined.

Definition is_int (k : key) : bool :=
  match k with KInt _ => true | _ => false end.

Definition is_str (k : key) : bool :=
  match k with KStr _ => true | _ => false end.

Definition le_by {A : Type} (id_of : A -> key) (x y : A) : Prop :=
  key_le (id_of x) (id_of y).

#[global] Instance le_by_dec {A : Type} (id_of : A -> key) : RelDecision (le_by id_of).
Proof. intros x y. unfold le_by. apply _. Defined.

(** [sorted(l)], the items compared through their ids, which are pairwise
    distinct: nothing is compared in a list of less than two; otherwise the
    ids must be all integers or all strings, and a comparison across raises
    [TypeError]. *)
Definition py_sorted {A : Type} (id_of : A -> key) (l : list A) : outcome (list A) :=
  match l with
  | [] | [_] => Ret l
  | _ =>
      if forallb (fun x => is_int (id_of x)) l || forallb (fun x => is_str (id_of x)) l
      then Ret (merge_sort (le_by id_of) l)
      else Raise TypeError
  end.

Section commands.
Context {R : Type} {SM : SessionManager R} {SO : SetOrder} {SL : SessionListing R}.
Variable loads : string -> option pyval.

Record xrun (A : Type) : Type := XRun {
  xresult : outcome A;
  xregistry : R;
  xlog : list output
}.
Arguments XRun {A} _ _ _.
Arguments xresult {A} _.
Arguments xregistry {A} _.
Arguments xlog {A} _.

Definition X (A : Type) : Type := R -> xrun A.

#[global] Instance X_ret : MRet X := fun A a r => XRun (Ret a) r [].

#[global] Instance X_bind : MBind X := fun A B f m r =>
  match xresult (m r) with
  | Ret a =>
      let x := f a (xregistry (m r)) in
      XRun (xresult x) (xregistry x) (xlog (m r) ++ xlog x)
  | Raise e => XRun (Raise e) (xregistry (m r)) (xlog (m r))
  end.

(** A function of the daemon run inside a command. *)
Definition daemon {A : Type} (m : M A) : X A := fun r =>
  XRun (result (m r)) (registry (m r)) (Daemon <$> log (m r)).

Definition say (l : line) : X unit := fun r => XRun (Ret tt) r [Report l].

Definition xlift {A : Type} (o : outcome A) : X A := fun r => XRun o r [].

Definition call_list_all : X (list handle) := fun r =>
  XRun (Ret (list_all_sessions r).1) (list_all_sessions r).2 [ListAll].

(** *** [one_shot] *)

Fixpoint summary_loop (items : list (key * string)) : X unit :=
  match items with
  | [] => mret tt
  | (bead_id, action) :: rest => say (LnAction bead_id action);; summary_loop rest
  end.

Definition one_shot (fs : option fstate) (dry_run verbose : bool) : X nat :=
  say LnOneShot;;
  say LnBlank;;
  actions ← daemon (sync_sessions loads fs dry_run verbose);
  (if bool_decide (actions = ∅) then say LnNoActions
   else
     say LnBlank;;
     say LnSummary;;
     items ← xlift (py_sorted fst (map_to_list actions));
     summary_loop items);;
  mret (size actions).

(** *** [status_report] *)

Fixpoint bead_loop (issues : gmap key pydict) (ids : list key) : X unit :=
  match ids with
  | [] => mret tt
  | bead_id :: rest =>
      let issue := default [] (issues !! bead_id) in
      let title := dict_get issue "title" (PStr "Unknown") in
      match slice_to 50 title with
      | Some t => say (LnBead bead_id t)
      | None => xlift (Raise TypeError)
      end;;
      bead_loop issues rest
  end.

Fixpoint session_loop (active : list handle) : X unit :=
  match active with
  | [] => mret tt
  | s :: rest =>
      match slice_to 40 (h_title s) with
      | Some t =>
          say (LnSession (bool_decide (h_state s = RUNNING)) (h_bead_id s) t (h_pid s))
      | None => xlift (Raise TypeError)
      end;;
      session_loop rest
  end.

Fixpoint id_loop (ids : list key) : X unit :=
  match ids with
  | [] => mret tt
  | bead_id :: rest => say (LnId bead_id);; id_loop rest
  end.

Definition status_report (fs : option fstate) : X unit :=
  say LnStatusReport;;
  say LnBlank;;
  issues ← daemon (load_issues loads fs);
  let in_progress := get_in_progress_beads issues in
  say (LnInProgressCount (size in_progress));;
  ids ← xlift (py_sorted id (elements in_progress));
  bead_loop issues ids;;
  say LnBlank;;
  sessions ← call_list_all;
  let active := filter (fun s => h_is_active s = true) sessions in
  let completed := filter (fun s => h_state s = COMPLETED) sessions in
  let failed := filter (fun s => h_state s = FAILED) sessions in
  say (LnActiveCount (length active));;
  session_loop active;;
  say LnBlank;;
  say (LnCompletedCount (length completed));;
  say (LnFailedCount (length failed));;
  say LnBlank;;
  let active_ids : gset key := list_to_set (h_bead_id <$> active) in
  let missing := in_progress ∖ active_ids in
  let orphaned := active_ids ∖ in_progress in
  (if bool_decide (missing = ∅) then mret tt
   else say LnMissing;; id_loop (set_iter missing));;
  (if bool_decide (orphaned = ∅) then mret tt
   else say LnOrphaned;; id_loop (set_iter orphaned));;
  (if bool_decide (missing = ∅) && bool_decide (orphaned = ∅) then say LnInSync
   else mret tt).

(** *** [main] *)

(** The parsed command line. *)
Inductive command : Type :=
| CmdWatch (dry_run quiet : bool)
| CmdSync (dry_run quiet : bool)
| CmdStatus
| CmdNone.

(** [main] after [parse_args], to the exit status of the process when no
    exception escapes.  [fs] is the record file that [sync] and [status]
    find, [ticks] the ticks that [watch] lives through. *)
Definition main (cmd : command) (fs : option fstate) (ticks : list (option fstate))
  : X Z :=
  match cmd with
  | CmdWatch dry_run quiet =>
      daemon (watch_loop loads dry_run (negb quiet) ticks);;
      mret 0
  | CmdSync dry_run quiet =>
      actions ← one_shot fs dry_run (negb quiet);
      mret (if Z.of_nat actions >=? 0 then 0 else 1)
  | CmdStatus =>
      status_report fs;;
      mret 0
  | CmdNone =>
      say LnHelp;;
      mret 0
  end.

End commands.

Arguments XRun {R A} _ _ _.
Arguments xresult {R A} _.
Arguments xregistry {R A} _.
Arguments xlog {R A} _.

(** ** Vocabulary of the further properties *)

(** The exceptions of a computation all satisfy [P]. *)
Definition raises_only {R A : Type} (P : exn -> Prop) (m : M A) : Prop :=
  forall (r : R) e, result (m r) = Raise e -> P e.

Definition type_or_attribute (e : exn) : Prop :=
  e = AttributeError \/ e = TypeError.

(** The calls to the session manager in a log, in order. *)
Definition manager_call (e : event) : option event :=
  match e with
  | EvListSessions _ | EvSpawn _ _ | EvTerminate _ _ => Some e
  | _ => None
  end.

Definition manager_calls (l : list event) : list event := omap manager_call l.

(** An event that changes no session: anything but a spawn or a terminate. *)
Definition harmless (e : event) : Prop :=
  spawn_call e = None /\ terminate_call e = None.

(** The beads of the calls that succeeded, and of those that failed. *)
Definition succeeded (calls : list (key * bool)) : list key :=
  omap (fun c : key * bool => if c.2 then Some c.1 else None) calls.

Definition failed (calls : list (key * bool)) : list key :=
  omap (fun c : key * bool => if c.2 then None else Some c.1) calls.

(** A session manager that keeps its own books: listing the sessions leaves
    the live ones as they are, a spawn that succeeds adds its bead to them, a
    terminate that succeeds removes it, and a call that fails changes none. *)
Class LawfulManager (R : Type) {SM : SessionManager R} : Prop := {
  list_keeps_live : forall r : R, live_ids (list_sessions true r).2 = live_ids r;
  spawn_adds_live : forall id (r : R) s r',
    spawn_session id r = (Some s, r') -> live_ids r' = {[id]} ∪ live_ids r;
  spawn_failure_keeps_live : forall id (r r' : R),
    spawn_session id r = (None, r') -> live_ids r' = live_ids r;
  terminate_removes_live : forall id (r r' : R),
    terminate_session id r = (true, r') -> live_ids r' = live_ids r ∖ {[id]};
  terminate_failure_keeps_live : forall id (r r' : R),
    terminate_session id r = (false, r') -> live_ids r' = live_ids r
}.

(** The ticks at which the watch loop finds the record file newer than the
    time stamp it holds: each raises the time stamp to the file's. *)
Fixpoint rises (ticks : list (option fstate)) (last_mtime : Z) : nat :=
  match ticks with
  | [] => 0
  | None :: rest => rises rest last_mtime
  | Some f :: rest =>
      if f_mtime f >? last_mtime then S (rises rest (f_mtime f))
      else rises rest last_mtime
  end.

(** Number of "changed" notices in a log. *)
Definition changed_count (l : list event) : nat :=
  length (filter (fun e => is_changed_notice e = true) l).

(** A run with some output before it. *)
Definition xpre {R A : Type} (l : list output) (x : xrun (R:=R) A) : xrun A :=
  XRun (xresult x) (xregistry x) (l ++ xlog x).

(** The beads of the sessions that [status_report] takes as active. *)
Definition active_ids {R : Type} {SL : SessionListing R} (r : R) : gset key :=
  list_to_set (h_bead_id <$> filter (fun s => h_is_active s = true) (list_all_sessions r).1).

(** A command step that leaves the session manager as it is. *)
Definition keeps {R A : Type} (m : X (R:=R) A) : Prop :=
  forall r, xregistry (m r) = r.

(** A command that at most lists the sessions. *)
Definition lists_at_most {R A : Type} {SL : SessionListing R} (m : X (R:=R) A) : Prop :=
  forall r, xregistry (m r) = r \/ xregistry (m r) = (list_all_sessions r).2.

(** The lines of the drift section of the status report. *)
Definition is_drift_line (l : line) : bool :=
  match l with
  | LnMissing | LnOrphaned | LnId _ | LnInSync => true
  | _ => false
  end.

Definition drift_lines {SO : SetOrder} (missing orphaned : gset key) : list line :=
  (if bool_decide (missing = ∅) then [] else LnMissing :: (LnId <$> set_iter missing)) ++
  (if bool_decide (orphaned = ∅) then [] else LnOrphaned :: (LnId <$> set_iter orphaned)) ++
  (if bool_decide (missing = ∅) && bool_decide (orphaned = ∅) then [LnInSync] else []).

(** What a command that only reads may put out: its lines, the listing of
    the sessions, and the read error of the loader. *)
Definition read_only_output (o : output) : Prop :=
  match o with
  | Report _ | ListAll | Daemon (EvPrint MsgReadError) => True
  | _ => False
  end.

Definition reads_only {R A : Type} (m : X (R:=R) A) : Prop :=
  forall r, Forall read_only_output (xlog (m r)).

(** ** Scenarios

    Concrete record files and session-manager states: the scenarios of the
    specification (section 8) and the inputs of the examples below. *)

Definition W1 : key := KStr "W1".
Definition W2 : key := KStr "W2".

(** The record [json.loads] builds from [record_line id status title]. *)
Definition issue_of (id status title : string) : pydict :=
  [("id", PStr id); ("status", PStr status); ("title", PStr title)].

Definition no_sessions : fake_registry := Fake ∅ ∅ ∅.

(** Scenario A: W1 active, W2 inactive, no live session. *)
Definition file_A : fstate :=
  File 100 [record_line "W1" "in_progress" "First";
            record_line "W2" "closed" "Second"] false.

Definition issues_A : gmap key pydict :=
  {[ W1 := issue_of "W1" "in_progress" "First";
     W2 := issue_of "W2" "closed" "Second" ]}.

(** A session manager already consistent with scenario A's snapshot. *)
Definition consistent_A : fake_registry := Fake {[W1]} ∅ ∅.

(** Scenario C with an extra active bead: W1 inactive and live, W2 active and
    without session. *)
Definition file_C : fstate :=
  File 100 [record_line "W1" "done" "First";
            record_line "W2" "in_progress" "Second"] false.

Definition issues_C : gmap key pydict :=
  {[ W1 := issue_of "W1" "done" "First";
     W2 := issue_of "W2" "in_progress" "Second" ]}.

Definition registry_C : fake_registry := Fake {[W1]} ∅ ∅.

(** Scenario E: W1 and W2 active, no live session, the spawn of W1 fails. *)
Definition file_E : fstate :=
  File 100 [record_line "W1" "in_progress" "First";
            record_line "W2" "in_progress" "Second"] false.

Definition issues_E : gmap key pydict :=
  {[ W1 := issue_of "W1" "in_progress" "First";
     W2 := issue_of "W2" "in_progress" "Second" ]}.

Definition registry_E : fake_registry := Fake ∅ {[W1]} ∅.

(** A file whose first line is valid JSON but no record. *)
Definition file_non_record : fstate :=
  File 100 ["42"; record_line "W1" "in_progress" "First"] false.

(** A file whose reading fails with [IOError] after its first line. *)
Definition file_faulty : fstate :=
  File 100 [record_line "W1" "in_progress" "First"] true.

(** A file where W1 is recorded twice, with a line that is no JSON between. *)
Definition file_twice : fstate :=
  File 100 [record_line "W1" "in_progress" "Old";
            "{not json";
            record_line "W1" "closed" "New"] false.

(** A file whose first record has the empty id. *)
Definition file_anonymous : fstate :=
  File 100 [record_line EmptyString "in_progress" "Nameless";
            record_line "W1" "in_progress" "First"] false.

(** The test session manager lists each live session as a running one. *)
#[global] Instance fake_listing : SessionListing fake_registry := {
  list_all_sessions r :=
    ((fun id => Handle id RUNNING (PInt 1) (PStr "session") true)
       <$> elements (fake_live r), r)
}.

(** Text of a JSON object from its fields, each a name and the text of its
    value. *)
Definition json_object (fields : list (string * string)) : string :=
  "{" +:+ String.concat ", " ((fun f => quoted f.1 +:+ ": " +:+ f.2) <$> fields) +:+ "}".

(** A file whose record has a list as status. *)
Definition file_list_status : fstate :=
  File 100 [json_object [("id", quoted "W1"); ("status", "[1]")]] false.

Definition issues_list_status : gmap key pydict :=
  {[ W1 := [("id", PStr "W1"); ("status", PList [PInt 1])] ]}.

(** A file whose in-progress record has a number as title. *)
Definition file_number_title : fstate :=
  File 100 [json_object [("id", quoted "W1"); ("status", quoted "in_progress");
                         ("title", "5")]] false.

Definition issues_number_title : gmap key pydict :=
  {[ W1 := [("id", PStr "W1"); ("status", PStr "in_progress"); ("title", PInt 5)] ]}.

(** A file with an integer id and a string id, both in progress. *)
Definition file_mixed_ids : fstate :=
  File 100 [json_object [("id", "5"); ("status", quoted "in_progress")];
            record_line "W1" "in_progress" "First"] false.

(** * Properties *)

(** Unfolding of the monad, and decidable facts by evaluation. *)
Ltac run_unfold :=
  unfold mbind, M_bind, mret, M_ret, print, emit, raise, lift,
    call_spawn_session, call_terminate_session, call_list_sessions in *;
  simpl in *.

Ltac by_evaluation := apply (bool_decide_unpack _); vm_compute; exact I.

(** ** Action records *)

Lemma record_snoc es e actions :
  record (es ++ [e]) actions = <[e.1 := e.2]> (record es actions).
Proof. unfold record. by rewrite foldl_app. Qed.

Lemma dom_record es actions :
  dom (record es actions) = dom actions ∪ list_to_set es.*1.
Proof.
  revert actions. induction es as [|[k v] es IH]; intros actions; simpl.
  - set_solver.
  - unfold record in *. simpl. rewrite IH, dom_insert_L. set_solver.
Qed.

Lemma lookup_record_notin es actions k :
  k ∉ es.*1 -> record es actions !! k = actions !! k.
Proof.
  revert actions. induction es as [|[k' v] es IH]; intros actions Hk; [done|].
  unfold record in *. simpl in *.
  apply not_elem_of_cons in Hk as [Hne Hk].
  rewrite IH by done. by rewrite lookup_insert_ne.
Qed.

Lemma lookup_record_in es actions k v :
  NoDup es.*1 -> (k, v) ∈ es -> record es actions !! k = Some v.
Proof.
  revert actions. induction es as [|[k' v'] es IH]; intros actions Hnd Hin.
  - by apply elem_of_nil in Hin.
  - simpl in Hnd. apply NoDup_cons in Hnd as [Hk' Hnd].
    apply elem_of_cons in Hin as [Heq | Hin].
    + inversion Heq; subst k' v'.
      change (record ((k, v) :: es) actions) with (record es (<[k := v]> actions)).
      rewrite lookup_record_notin by done. apply lookup_insert_eq.
    + change (record ((k', v') :: es) actions) with (record es (<[k' := v']> actions)).
      by apply IH.
Qed.

(** ** The classifiers *)

Lemma elem_of_in_progress issues k :
  k ∈ get_in_progress_beads issues <->
  exists issue, issues !! k = Some issue /\
                dict_get issue "status" PNone = PStr "in_progress".
Proof.
  unfold get_in_progress_beads. rewrite elem_of_dom. unfold is_Some.
  setoid_rewrite map_lookup_filter_Some. simpl. split.
  - intros (issue & Hk & Hs). exists issue. split; [done|].
    destruct (dict_get issue "status" PNone); simpl in Hs; try done.
    apply bool_decide_eq_true in Hs. by subst.
  - intros (issue & Hk & Hs). exists issue. split; [done|]. by rewrite Hs.
Qed.

Lemma elem_of_InactiveSet issues k :
  k ∈ InactiveSet issues <->
  exists issue s, issues !! k = Some issue /\
                  dict_get issue "status" PNone = PStr s /\ KStr s ∈ closed_statuses.
Proof.
  unfold InactiveSet. rewrite elem_of_dom. unfold is_Some.
  setoid_rewrite map_lookup_filter_Some. simpl. split.
  - intros (issue & Hk & Hs).
    destruct (dict_get issue "status" PNone) as [| | |s| |] eqn:E; simpl in Hs; try done.
    apply bool_decide_eq_true in Hs. by exists issue, s.
  - intros (issue & s & Hk & Hs & Hin). exists issue. split; [done|].
    rewrite Hs. simpl. by apply bool_decide_eq_true.
Qed.

Lemma in_set_closed_true v :
  in_set v closed_statuses = Ret true <-> closed_status v = true.
Proof.
  unfold in_set, closed_status.
  destruct v as [|b|n|s|l|d]; simpl; split; intros H; try done;
    try (injection H as H; apply bool_decide_eq_true in H;
         unfold closed_statuses in H; set_solver).
  by rewrite H.
Qed.

Lemma set_comp_spec cond items X :
  set_comp cond items = Ret X ->
  forall k, k ∈ X <-> exists issue, (k, issue) ∈ items /\ cond issue = Ret true.
Proof.
  revert X. induction items as [|[id issue] items IH]; intros X H k; simpl in H.
  - injection H as <-. split; [set_solver|]. intros (? & Hin & _).
    by apply elem_of_nil in Hin.
  - destruct (cond issue) as [b|e] eqn:Hc; [|done].
    destruct (set_comp cond items) as [Y|e]; [|done].
    injection H as <-. specialize (IH Y eq_refl k).
    setoid_rewrite elem_of_cons. destruct b.
    + rewrite elem_of_union, elem_of_singleton, IH. split.
      * intros [-> | (i & Hin & Hi)]; [by exists issue; split; [left|]|].
        exists i. by split; [right|].
      * intros (i & [Heq | Hin] & Hi); [left; congruence|]. right. by exists i.
    + rewrite IH. split.
      * intros (i & Hin & Hi). exists i. by split; [right|].
      * intros (i & [Heq | Hin] & Hi); [congruence|]. by exists i.
Qed.

Lemma set_comp_total cond items :
  Forall (fun kv => exists b, cond kv.2 = Ret b) items ->
  exists X, set_comp cond items = Ret X.
Proof.
  induction 1 as [|[id issue] items [b Hb] _ [X IH]]; simpl; [by eexists|].
  simpl in Hb. rewrite Hb, IH. by eexists.
Qed.

(** On a snapshot whose statuses can be hashed, [get_closed_beads] returns the
    inactive set. *)
Lemma get_closed_beads_spec issues closed :
  get_closed_beads issues = Ret closed -> closed = InactiveSet issues.
Proof.
  intros H. apply set_eq. intros k.
  rewrite (set_comp_spec _ _ _ H k), elem_of_InactiveSet. split.
  - intros (issue & Hin & Hc). apply elem_of_map_to_list in Hin.
    apply in_set_closed_true in Hc. unfold closed_status in Hc.
    destruct (dict_get issue "status" PNone) as [| | |s| |] eqn:E; try done.
    apply bool_decide_eq_true in Hc. by exists issue, s.
  - intros (issue & s & Hk & Hs & Hin). exists issue.
    split; [by apply elem_of_map_to_list|].
    apply in_set_closed_true. rewrite Hs. simpl. by apply bool_decide_eq_true.
Qed.

Lemma get_closed_beads_total issues :
  well_typed issues -> get_closed_beads issues = Ret (InactiveSet issues).
Proof.
  intros Hwt.
  destruct (set_comp_total
    (fun issue => in_set (dict_get issue "status" PNone) closed_statuses)
    (map_to_list issues)) as [X HX].
  - apply Forall_forall. intros [k issue] Hin. apply elem_of_map_to_list in Hin.
    specialize (Hwt k issue Hin). simpl in *. unfold well_typed_issue in Hwt.
    unfold in_set. destruct (key_of (dict_get issue "status" PNone)); [by eexists|done].
  - unfold get_closed_beads. rewrite HX. f_equal. by apply get_closed_beads_spec.
Qed.

Lemma active_inactive_disjoint issues :
  get_in_progress_beads issues ## InactiveSet issues.
Proof.
  intros k Ha Hi. apply elem_of_in_progress in Ha as (issue & Hk & Hs).
  apply elem_of_InactiveSet in Hi as (issue' & s & Hk' & Hs' & Hin).
  rewrite Hk in Hk'. injection Hk' as <-. rewrite Hs in Hs'. injection Hs' as <-.
  unfold closed_statuses in Hin. set_solver.
Qed.

(** ** The loader *)

Section loader_facts.
Context {R : Type}.
Variable loads : string -> option pyval.

Lemma line_error_not_io line e :
  line_error loads line = Some e -> e = AttributeError \/ e = TypeError.
Proof.
  unfold line_error. destruct (strip line); [done|].
  destruct (loads _) as [[| | | | |issue]|]; try (intros [= <-]; by left); try done.
  destruct (truthy _); [|done]. destruct (key_of _); [done|].
  intros [= <-]. by right.
Qed.

(** One turn of the reading loop, by what the line is. *)
Lemma read_lines_cons line rest fault issues :
  read_lines loads (line :: rest) fault issues =
  match line_error loads line with
  | Some e => (issues, Some e)
  | None =>
      read_lines loads rest fault
        (match record_of loads line with
         | Some (k, issue) => <[k := issue]> issues
         | None => issues
         end)
  end.
Proof.
  simpl. unfold line_error, record_of. destruct (strip line); [done|].
  destruct (loads _) as [[| | | | |issue]|]; try done.
  destruct (truthy _); [|done]. by destruct (key_of _).
Qed.

(** A line that adds nothing and raises nothing can be dropped. *)
Lemma read_lines_drop before line after fault issues :
  record_of loads line = None -> line_error loads line = None ->
  read_lines loads (before ++ line :: after) fault issues =
  read_lines loads (before ++ after) fault issues.
Proof.
  intros Hrec Herr. revert issues.
  induction before as [|l before IH]; intros issues.
  - simpl app. by rewrite read_lines_cons, Hrec, Herr.
  - rewrite <- !app_comm_cons, !read_lines_cons.
    destruct (line_error loads l); [done|]. apply IH.
Qed.

(** The loop ends without exception, or on the read fault, exactly when no
    line raises. *)
Lemma read_lines_no_error lines fault issues :
  Forall (fun line => line_error loads line = None) lines ->
  (read_lines loads lines fault issues).2 = if fault then Some IOError else None.
Proof.
  intros H. revert issues. induction H as [|l lines Hl _ IH]; intros issues; [done|].
  rewrite read_lines_cons, Hl. apply IH.
Qed.

Lemma read_lines_error lines fault issues :
  Exists (fun line => is_Some (line_error loads line)) lines ->
  exists e, (read_lines loads lines fault issues).2 = Some e /\
            (e = AttributeError \/ e = TypeError).
Proof.
  intros H. revert issues. induction lines as [|l lines IH]; intros issues.
  - by apply Exists_nil in H.
  - rewrite read_lines_cons. destruct (line_error loads l) as [e|] eqn:He.
    + exists e. split; [done|]. by eapply line_error_not_io.
    + apply IH. apply Exists_cons in H as [[? H]|H]; [congruence|done].
Qed.

Lemma read_lines_clean lines fault issues :
  (read_lines loads lines fault issues).2 = None \/
  (read_lines loads lines fault issues).2 = Some IOError ->
  Forall (fun line => line_error loads line = None) lines.
Proof.
  intros H. apply Forall_forall. intros l Hl.
  destruct (line_error loads l) as [e|] eqn:He; [|done]. exfalso.
  destruct (read_lines_error lines fault issues) as (e' & He' & Hcase).
  { apply Exists_exists. exists l. split; [done|]. by rewrite He. }
  rewrite He' in H. destruct H as [H|H]; [done|].
  injection H as ->. by destruct Hcase.
Qed.

(** A key that no line of the file carries keeps its entry. *)
Lemma read_lines_other lines fault issues k :
  (forall line issue, line ∈ lines -> record_of loads line <> Some (k, issue)) ->
  (read_lines loads lines fault issues).1 !! k = issues !! k.
Proof.
  revert issues. induction lines as [|l lines IH]; intros issues Hk; [done|].
  rewrite read_lines_cons. destruct (line_error loads l); [done|].
  rewrite IH by (intros; apply Hk; by right).
  destruct (record_of loads l) as [[k' issue]|] eqn:Hl; [|done].
  apply lookup_insert_ne. intros ->. by apply (Hk l issue); [left|].
Qed.

(** The record of the last line that carries a key is its entry. *)
Lemma read_lines_last before line after fault issues k issue :
  Forall (fun l => line_error loads l = None) (before ++ line :: after) ->
  record_of loads line = Some (k, issue) ->
  (forall l issue', l ∈ after -> record_of loads l <> Some (k, issue')) ->
  (read_lines loads (before ++ line :: after) fault issues).1 !! k = Some issue.
Proof.
  intros Hok Hrec Hafter. revert issues Hok.
  induction before as [|l before IH]; intros issues Hok.
  - simpl app in *. apply Forall_cons in Hok as [Hl _].
    rewrite read_lines_cons, Hl, Hrec, read_lines_other by done.
    apply lookup_insert_eq.
  - rewrite <- app_comm_cons in *. apply Forall_cons in Hok as [Hl Hok].
    rewrite read_lines_cons, Hl. by apply IH.
Qed.

(** Every entry was there before or is the record of some line. *)
Lemma read_lines_origin lines fault issues k issue :
  (read_lines loads lines fault issues).1 !! k = Some issue ->
  issues !! k = Some issue \/
  exists line, line ∈ lines /\ record_of loads line = Some (k, issue).
Proof.
  revert issues. induction lines as [|l lines IH]; intros issues H; [by left|].
  rewrite read_lines_cons in H. destruct (line_error loads l); [by left|].
  apply IH in H as [H | (line & Hin & Hline)].
  - destruct (record_of loads l) as [[k' issue']|] eqn:Hl; [|by left].
    destruct (decide (k' = k)) as [->|Hne].
    + rewrite lookup_insert_eq in H. injection H as ->.
      right. exists l. by split; [left|].
    + rewrite lookup_insert_ne in H by done. by left.
  - right. exists line. by split; [right|].
Qed.

(** [load_issues] leaves the session manager alone and prints at most the
    read error. *)
Lemma load_issues_registry fs (r : R) : registry (load_issues loads fs r) = r.
Proof.
  unfold load_issues. destruct fs as [f|]; [|done].
  destruct (read_lines _ _ _ _) as [issues [[]|]]; done.
Qed.

Lemma load_issues_log fs (r : R) :
  log (load_issues loads fs r) = [] \/
  log (load_issues loads fs r) = [EvPrint MsgReadError].
Proof.
  unfold load_issues. destruct fs as [f|]; [|by left].
  destruct (read_lines _ _ _ _) as [issues [[]|]]; by (left + right).
Qed.

Lemma load_issues_Ret f (r : R) issues :
  result (load_issues loads (Some f) r) = Ret issues ->
  (read_lines loads (f_lines f) (f_fault f) ∅).1 = issues /\
  Forall (fun line => line_error loads line = None) (f_lines f).
Proof.
  unfold load_issues. intros H. split.
  - destruct (read_lines _ _ _ _) as [issues' [[]|]]; simpl in *; congruence.
  - apply (read_lines_clean _ (f_fault f) ∅).
    destruct (read_lines _ _ _ _) as [issues' [[]|]]; simpl in *;
      try done; by (left + right).
Qed.

Lemma load_issues_total f (r : R) :
  Forall (fun line => line_error loads line = None) (f_lines f) ->
  result (load_issues loads (Some f) r) =
  Ret (read_lines loads (f_lines f) (f_fault f) ∅).1.
Proof.
  intros H. apply (read_lines_no_error _ (f_fault f) ∅) in H.
  unfold load_issues. destruct (read_lines _ _ _ _) as [issues e]. simpl in *.
  subst e. by destruct (f_fault f).
Qed.

End loader_facts.

(** ** One reconciliation pass *)

Section pass_facts.
Context {R : Type} {SM : SessionManager R} {SO : SetOrder}.
Variable loads : string -> option pyval.

Lemma omap_nil_notice (l : list event) :
  (Forall (fun e => is_notice e = true) l -> omap terminate_call l = []) /\
  (Forall (fun e => is_notice e = true) l -> omap spawn_call l = []).
Proof.
  split; induction 1 as [|e l He _ IH]; simpl; try done;
    by destruct e as [[]| | | | |].
Qed.

Lemma spawn_loop_dry verbose issues ids actions (r : R) :
  (verbose = true -> Forall (fun k => is_Some (slice_to 50 (title_of issues k))) ids) ->
  let x := spawn_loop true verbose issues ids actions r in
  result x = Ret (record ((fun k => (k, "would_spawn")) <$> ids) actions) /\
  registry x = r /\
  Forall (fun e => is_notice e = true) (log x).
Proof.
  intros Ht. revert actions. induction ids as [|k ids IH]; intros actions; simpl.
  - done.
  - assert (Hids : verbose = true ->
      Forall (fun k => is_Some (slice_to 50 (title_of issues k))) ids).
    { intros Hv. specialize (Ht Hv). by apply Forall_cons in Ht as [_ ?]. }
    specialize (IH Hids (<[k := "would_spawn"]> actions)).
    destruct IH as (IH1 & IH2 & IH3).
    destruct verbose.
    + specialize (Ht eq_refl). apply Forall_cons in Ht as [[t Hk] _].
      unfold title_of in Hk. run_unfold. rewrite Hk. simpl.
      rewrite IH1, IH2. simpl. split_and!; try done. by constructor.
    + run_unfold. rewrite IH1, IH2. by simpl.
Qed.

Lemma spawn_loop_real verbose issues ids actions (r : R) :
  (verbose = true -> Forall (fun k => is_Some (slice_to 50 (title_of issues k))) ids) ->
  let x := spawn_loop false verbose issues ids actions r in
  result x = Ret (record (prod_map id spawn_tag <$> spawn_calls (log x)) actions) /\
  (spawn_calls (log x)).*1 = ids /\
  Forall (fun e => is_notice e = true \/ is_Some (spawn_call e)) (log x).
Proof.
  intros Ht. revert actions r. induction ids as [|k ids IH]; intros actions r; simpl.
  - done.
  - assert (Hids : verbose = true ->
      Forall (fun k => is_Some (slice_to 50 (title_of issues k))) ids).
    { intros Hv. specialize (Ht Hv). by apply Forall_cons in Ht as [_ ?]. }
    specialize (IH Hids).
    destruct verbose;
      [specialize (Ht eq_refl); apply Forall_cons in Ht as [[t Hk] _];
       unfold title_of in Hk|];
      run_unfold; rewrite ?Hk; simpl;
      destruct (spawn_session k r) as [[s|] r'] eqn:Hs; simpl;
      match goal with
      | |- context [spawn_loop false _ issues ids ?a ?r0] =>
          destruct (IH a r0) as (IH1 & IH2 & IH3)
      end;
      rewrite IH1; simpl; unfold spawn_calls in *;
      (split_and!; [done | f_equal; exact IH2 |]);
      repeat (constructor; [(by left) || (right; by eexists)|]); done.
Qed.

Lemma terminate_loop_dry verbose ids actions (r : R) :
  let x := terminate_loop true verbose ids actions r in
  result x = Ret (record ((fun k => (k, "would_terminate")) <$> ids) actions) /\
  registry x = r /\
  Forall (fun e => is_notice e = true) (log x).
Proof.
  revert actions. induction ids as [|k ids IH]; intros actions; simpl; [done|].
  destruct (IH (<[k := "would_terminate"]> actions)) as (IH1 & IH2 & IH3).
  destruct verbose; run_unfold; rewrite IH1, IH2; simpl; split_and!; try done.
  by constructor.
Qed.

Lemma terminate_loop_real verbose ids actions (r : R) :
  let x := terminate_loop false verbose ids actions r in
  result x = Ret (record (prod_map id terminate_tag <$> terminate_calls (log x)) actions) /\
  (terminate_calls (log x)).*1 = ids /\
  Forall (fun e => is_notice e = true \/ is_Some (terminate_call e)) (log x).
Proof.
  revert actions r. induction ids as [|k ids IH]; intros actions r; simpl; [done|].
  destruct verbose; run_unfold;
    destruct (terminate_session k r) as [[] r'] eqn:Hs; simpl;
    match goal with
    | |- context [terminate_loop false _ ids ?a ?r0] =>
        destruct (IH a r0) as (IH1 & IH2 & IH3)
    end;
    rewrite IH1; simpl; unfold terminate_calls in *;
    (split_and!; [done | f_equal; exact IH2 |]);
    repeat (constructor; [(by left) || (right; by eexists)|]); done.
Qed.

(** A pass whose load and classification succeed is the listing of the
    sessions, the spawn loop and the terminate loop, one after the other. *)
Lemma sync_sessions_unfold fs dry_run verbose (r : R) issues closed :
  result (load_issues loads fs r) = Ret issues ->
  get_closed_beads issues = Ret closed ->
  let x0 := load_issues loads fs r in
  let x1 := spawn_loop dry_run verbose issues
              (set_iter (get_in_progress_beads issues ∖ live_ids r)) ∅
              (list_sessions true r).2 in
  sync_sessions loads fs dry_run verbose r =
  match result x1 with
  | Ret a1 =>
      let x2 := terminate_loop dry_run verbose
                  (set_iter (live_ids r ∩ closed)) a1 (registry x1) in
      Run (result x2) (registry x2)
          (EvSync dry_run verbose :: log x0 ++ EvListSessions true :: log x1 ++ log x2)
  | Raise e =>
      Run (Raise e) (registry x1)
          (EvSync dry_run verbose :: log x0 ++ EvListSessions true :: log x1)
  end.
Proof.
  intros Hload Hclosed. simpl. unfold sync_sessions, live_ids.
  pose proof (load_issues_registry loads fs r) as Hreg.
  run_unfold. rewrite Hload. simpl. rewrite Hclosed, Hreg. simpl.
  destruct (list_sessions true r) as [sessions r1]. simpl.
  destruct (result (spawn_loop _ _ _ _ _ _)); simpl.
  - destruct (terminate_loop _ _ _ _ _) as [[] ? ?]; simpl; by rewrite ?app_nil_r.
  - by rewrite ?app_nil_r.
Qed.

Lemma elem_of_set_iter (X : gset key) k : k ∈ set_iter X <-> k ∈ X.
Proof. by rewrite (set_iter_perm X), elem_of_elements. Qed.

Lemma NoDup_set_iter (X : gset key) : NoDup (set_iter X).
Proof. rewrite (set_iter_perm X). apply NoDup_elements. Qed.

Lemma list_to_set_set_iter (X : gset key) : list_to_set (set_iter X) = X.
Proof. apply set_eq. intros k. by rewrite elem_of_list_to_set, elem_of_set_iter. Qed.

Lemma omap_none {A B : Type} (f : A -> option B) (l : list A) :
  Forall (fun e => f e = None) l -> omap f l = [].
Proof. induction 1 as [|e l He _ IH]; simpl; [done|]. by rewrite He. Qed.

Lemma well_typed_titles issues (X : gset key) :
  well_typed issues ->
  Forall (fun k => is_Some (slice_to 50 (title_of issues k))) (set_iter X).
Proof.
  intros Hwt. apply Forall_forall. intros k _. unfold title_of.
  destruct (issues !! k) as [issue|] eqn:Hk; simpl; [|by eexists].
  specialize (Hwt k issue Hk). simpl in Hwt. unfold well_typed_issue in Hwt.
  destruct (key_of _); [|done]. destruct (slice_to 50 _); [by eexists|done].
Qed.

Lemma load_issues_no_calls fs (r : R) :
  spawn_calls (log (load_issues loads fs r)) = [] /\
  terminate_calls (log (load_issues loads fs r)) = [].
Proof. by destruct (load_issues_log loads fs r) as [-> | ->]. Qed.

(** A dry pass over a well-typed snapshot. *)
Lemma sync_sessions_dry fs verbose (r : R) issues :
  result (load_issues loads fs r) = Ret issues ->
  well_typed issues ->
  let x := sync_sessions loads fs true verbose r in
  let S := set_iter (needSpawn (get_in_progress_beads issues) (live_ids r)) in
  let T := set_iter (needTerminate (live_ids r) (InactiveSet issues)) in
  result x = Ret (record (((fun k => (k, "would_spawn")) <$> S) ++
                          ((fun k => (k, "would_terminate")) <$> T)) ∅) /\
  registry x = (list_sessions true r).2 /\
  spawn_calls (log x) = [] /\
  terminate_calls (log x) = [].
Proof.
  intros Hload Hwt. cbv zeta.
  rewrite (sync_sessions_unfold _ _ _ _ _ _ Hload (get_closed_beads_total _ Hwt)).
  simpl. unfold needSpawn, needTerminate.
  destruct (spawn_loop_dry verbose issues
    (set_iter (get_in_progress_beads issues ∖ live_ids r)) ∅
    (list_sessions true r).2) as (H1 & H2 & H3).
  { intros _. by apply well_typed_titles. }
  rewrite H1. simpl.
  match goal with
  | |- context [terminate_loop true verbose ?ids ?a ?r0] =>
      destruct (terminate_loop_dry verbose ids a r0) as (K1 & K2 & K3);
      set (x2 := terminate_loop true verbose ids a r0) in *
  end.
  set (x1 := spawn_loop true verbose issues _ _ _) in *.
  destruct (load_issues_no_calls fs r) as [L1 L2].
  unfold spawn_calls, terminate_calls in *. simpl.
  rewrite !omap_app. simpl. rewrite !omap_app, L1, L2.
  rewrite (proj2 (omap_nil_notice _) H3), (proj2 (omap_nil_notice _) K3).
  rewrite (proj1 (omap_nil_notice _) H3), (proj1 (omap_nil_notice _) K3).
  rewrite K1, K2, H2. unfold record at 3. by rewrite foldl_app.
Qed.

(** A real pass over a well-typed snapshot. *)
Lemma sync_sessions_real fs verbose (r : R) issues :
  result (load_issues loads fs r) = Ret issues ->
  well_typed issues ->
  let x := sync_sessions loads fs false verbose r in
  let S := set_iter (needSpawn (get_in_progress_beads issues) (live_ids r)) in
  let T := set_iter (needTerminate (live_ids r) (InactiveSet issues)) in
  result x = Ret (record ((prod_map id spawn_tag <$> spawn_calls (log x)) ++
                          (prod_map id terminate_tag <$> terminate_calls (log x))) ∅) /\
  (spawn_calls (log x)).*1 = S /\
  (terminate_calls (log x)).*1 = T.
Proof.
  intros Hload Hwt. cbv zeta.
  rewrite (sync_sessions_unfold _ _ _ _ _ _ Hload (get_closed_beads_total _ Hwt)).
  simpl. unfold needSpawn, needTerminate.
  destruct (spawn_loop_real verbose issues
    (set_iter (get_in_progress_beads issues ∖ live_ids r)) ∅
    (list_sessions true r).2) as (H1 & H2 & H3).
  { intros _. by apply well_typed_titles. }
  rewrite H1. simpl.
  match goal with
  | |- context [terminate_loop false verbose ?ids ?a ?r0] =>
      destruct (terminate_loop_real verbose ids a r0) as (K1 & K2 & K3);
      set (x2 := terminate_loop false verbose ids a r0) in *
  end.
  set (x1 := spawn_loop false verbose issues _ _ _) in *.
  destruct (load_issues_no_calls fs r) as [L1 L2].
  assert (Hs2 : spawn_calls (log x2) = []).
  { apply omap_none. eapply Forall_impl; [exact K3|].
    intros [[]| | | | |] [He|[? He]]; simpl in *; done. }
  assert (Ht1 : terminate_calls (log x1) = []).
  { apply omap_none. eapply Forall_impl; [exact H3|].
    intros [[]| | | | |] [He|[? He]]; simpl in *; done. }
  unfold spawn_calls, terminate_calls in *. simpl.
  rewrite !omap_app. simpl. rewrite !omap_app, L1, L2, Hs2, Ht1. simpl.
  rewrite app_nil_r. rewrite K1. unfold record at 3. rewrite foldl_app.
  by split_and!.
Qed.

Lemma set_iter_empty : set_iter ∅ = [].
Proof.
  apply Permutation_nil_r. rewrite (set_iter_perm ∅). by rewrite elements_empty.
Qed.

Lemma need_sets_disjoint (A I live : gset key) :
  needSpawn A live ## needTerminate live I.
Proof. unfold needSpawn, needTerminate. set_solver. Qed.

(** The ids assigned in one pass are pairwise distinct. *)
Lemma NoDup_need (A I live : gset key) :
  NoDup (set_iter (needSpawn A live) ++ set_iter (needTerminate live I)).
Proof.
  apply NoDup_app. split_and!; [apply NoDup_set_iter| |apply NoDup_set_iter].
  intros k. rewrite !elem_of_set_iter. intros H1 H2.
  by apply (need_sets_disjoint A I live k).
Qed.

(** The action record of a pass, entry by entry. *)
Lemma pass_record_lookup (es1 es2 : list (key * string)) (A I live : gset key) :
  es1.*1 = set_iter (needSpawn A live) ->
  es2.*1 = set_iter (needTerminate live I) ->
  dom (record (es1 ++ es2) ∅) = needSpawn A live ∪ needTerminate live I /\
  forall k v, (k, v) ∈ es1 ++ es2 -> record (es1 ++ es2) ∅ !! k = Some v.
Proof.
  intros H1 H2. split.
  - rewrite dom_record, fmap_app, H1, H2, list_to_set_app_L, !list_to_set_set_iter.
    set_solver.
  - intros k v Hin. apply lookup_record_in; [|done].
    rewrite fmap_app, H1, H2. apply NoDup_need.
Qed.

Lemma fst_tagged (tag : string) (l : list key) : ((fun k => (k, tag)) <$> l).*1 = l.
Proof. induction l as [|k l IH]; simpl; [done|]. by f_equal. Qed.

Lemma fst_prod_map (f : bool -> string) (l : list (key * bool)) :
  (prod_map id f <$> l).*1 = l.*1.
Proof. induction l as [|[k b] l IH]; simpl; [done|]. by f_equal. Qed.

(** The assignments of a pass over a well-typed snapshot: first the spawn
    set, then the terminate set, each id once. *)
Lemma pass_entries fs dry_run verbose (r : R) issues :
  result (load_issues loads fs r) = Ret issues ->
  well_typed issues ->
  let x := sync_sessions loads fs dry_run verbose r in
  let S := set_iter (needSpawn (get_in_progress_beads issues) (live_ids r)) in
  let T := set_iter (needTerminate (live_ids r) (InactiveSet issues)) in
  exists es1 es2,
    result x = Ret (record (es1 ++ es2) ∅) /\ es1.*1 = S /\ es2.*1 = T /\
    if dry_run then
      es1 = (fun k => (k, "would_spawn")) <$> S /\
      es2 = (fun k => (k, "would_terminate")) <$> T /\
      spawn_calls (log x) = [] /\ terminate_calls (log x) = [] /\
      registry x = (list_sessions true r).2
    else
      es1 = prod_map id spawn_tag <$> spawn_calls (log x) /\
      es2 = prod_map id terminate_tag <$> terminate_calls (log x).
Proof.
  intros Hload Hwt. cbv zeta. destruct dry_run.
  - destruct (sync_sessions_dry fs verbose r issues Hload Hwt) as (H1 & H2 & H3 & H4).
    eexists _, _. split; [exact H1|]. by rewrite !fst_tagged.
  - destruct (sync_sessions_real fs verbose r issues Hload Hwt) as (H1 & H2 & H3).
    eexists _, _. split; [exact H1|]. by rewrite !fst_prod_map.
Qed.

(** C1. Idempotence of reconciliation: when the snapshot loads and classifies,
    every id of the active set has a live session and no live session's id is
    in the inactive set, [sync_sessions] returns the empty action record, and
    calls neither spawn nor terminate. *)
Theorem sync_sessions_idempotent fs dry_run verbose (r : R) issues closed :
  result (load_issues loads fs r) = Ret issues ->
  get_closed_beads issues = Ret closed ->
  get_in_progress_beads issues ⊆ live_ids r ->
  live_ids r ## closed ->
  let x := sync_sessions loads fs dry_run verbose r in
  result x = Ret ∅ /\
  spawn_calls (log x) = [] /\ terminate_calls (log x) = [] /\
  registry x = (list_sessions true r).2.
Proof.
  intros Hload Hclosed Hsub Hdisj. cbv zeta.
  rewrite (sync_sessions_unfold _ _ _ _ _ _ Hload Hclosed). cbv zeta.
  replace (get_in_progress_beads issues ∖ live_ids r) with (∅ : gset key)
    by set_solver.
  replace (live_ids r ∩ closed) with (∅ : gset key) by set_solver.
  rewrite set_iter_empty. simpl.
  destruct (load_issues_no_calls fs r) as [L1 L2].
  unfold spawn_calls, terminate_calls in *.
  rewrite !omap_app, L1, L2. by simpl.
Qed.

(** The outcomes of a pass over a well-typed snapshot. *)
Lemma pass_outcomes fs dry_run verbose (r : R) issues :
  result (load_issues loads fs r) = Ret issues ->
  well_typed issues ->
  exists actions,
    result (sync_sessions loads fs dry_run verbose r) = Ret actions /\
    dom actions = needSpawn (get_in_progress_beads issues) (live_ids r) ∪
                  needTerminate (live_ids r) (InactiveSet issues) /\
    (forall id, id ∈ needSpawn (get_in_progress_beads issues) (live_ids r) ->
                exists tag, actions !! id = Some tag /\ spawn_type tag) /\
    (forall id, id ∈ needTerminate (live_ids r) (InactiveSet issues) ->
                exists tag, actions !! id = Some tag /\ terminate_type tag).
Proof.
  intros Hload Hwt.
  destruct (pass_entries fs dry_run verbose r issues Hload Hwt)
    as (es1 & es2 & Hres & H1 & H2 & Hes).
  destruct (pass_record_lookup es1 es2 _ _ _ H1 H2) as [Hdom Hlook].
  exists (record (es1 ++ es2) ∅). split_and!; [done|done| |].
  - intros id Hid. apply elem_of_set_iter in Hid. rewrite <- H1 in Hid.
    apply list_elem_of_fmap in Hid as ([k tag] & -> & Hin). exists tag. split.
    + apply Hlook, elem_of_app. by left.
    + unfold spawn_type. destruct dry_run.
      * destruct Hes as (-> & _). apply list_elem_of_fmap in Hin as (? & [= _ ->] & _).
        by right; right.
      * destruct Hes as (-> & _).
        apply list_elem_of_fmap in Hin as ([? []] & [= _ ->] & _); simpl; auto.
  - intros id Hid. apply elem_of_set_iter in Hid. rewrite <- H2 in Hid.
    apply list_elem_of_fmap in Hid as ([k tag] & -> & Hin). exists tag. split.
    + apply Hlook, elem_of_app. by right.
    + unfold terminate_type. destruct dry_run.
      * destruct Hes as (_ & -> & _).
        apply list_elem_of_fmap in Hin as (? & [= _ ->] & _). by right; right.
      * destruct Hes as (_ & ->).
        apply list_elem_of_fmap in Hin as ([? []] & [= _ ->] & _); simpl; auto.
Qed.

Lemma tag_types_disjoint tag : spawn_type tag -> terminate_type tag -> False.
Proof. intros [-> | [-> | ->]] [H | [H | H]]; discriminate H. Qed.

(** C2. Reconcile computes exactly the action sets of the specification: the
    pass returns an action record whose keys are (ActiveSet - live) ∪ (live ∩
    InactiveSet), where ActiveSet, the set that the first classifier
    returns, is exactly the ids of the snapshot whose status is
    "in_progress", and InactiveSet, the ids whose status is in the closed
    vocabulary, is what the second classifier returns; each id of the first
    set carries a spawn-type outcome and each id of the second a
    terminate-type outcome. *)
Theorem sync_sessions_action_sets fs dry_run verbose (r : R) issues :
  result (load_issues loads fs r) = Ret issues ->
  well_typed issues ->
  let ActiveSet := get_in_progress_beads issues in
  let liveSessionIds := live_ids r in
  (forall id, id ∈ ActiveSet <->
              exists issue, issues !! id = Some issue /\
                            dict_get issue "status" PNone = PStr "in_progress") /\
  get_closed_beads issues = Ret (InactiveSet issues) /\
  exists actions,
    result (sync_sessions loads fs dry_run verbose r) = Ret actions /\
    dom actions = (ActiveSet ∖ liveSessionIds) ∪ (liveSessionIds ∩ InactiveSet issues) /\
    (forall id, id ∈ ActiveSet ∖ liveSessionIds ->
                exists tag, actions !! id = Some tag /\ spawn_type tag) /\
    (forall id, id ∈ liveSessionIds ∩ InactiveSet issues ->
                exists tag, actions !! id = Some tag /\ terminate_type tag).
Proof.
  intros Hload Hwt. cbv zeta.
  split; [exact (elem_of_in_progress issues)|].
  split; [by apply get_closed_beads_total|].
  exact (pass_outcomes fs dry_run verbose r issues Hload Hwt).
Qed.

(** C3. Action-set disjointness: the active and the inactive set of a
    snapshot are disjoint; the spawn set and the terminate set are disjoint
    for every live-session set; and in a pass no id is both spawned and
    terminated, nor does an id of one set end with an outcome of the other
    type. *)
Theorem spawn_terminate_disjoint :
  (forall issues, get_in_progress_beads issues ∩ InactiveSet issues = ∅) /\
  (forall issues closed, get_closed_beads issues = Ret closed ->
     get_in_progress_beads issues ∩ closed = ∅) /\
  (forall issues (live : gset key),
     (get_in_progress_beads issues ∖ live) ∩ (live ∩ InactiveSet issues) = ∅) /\
  (forall fs dry_run verbose (r : R) issues,
     result (load_issues loads fs r) = Ret issues ->
     well_typed issues ->
     let x := sync_sessions loads fs dry_run verbose r in
     (forall id, ~ (id ∈ (spawn_calls (log x)).*1 /\
                    id ∈ (terminate_calls (log x)).*1)) /\
     exists actions, result x = Ret actions /\ forall id tag,
       actions !! id = Some tag ->
       (spawn_type tag <-> id ∈ get_in_progress_beads issues ∖ live_ids r) /\
       (terminate_type tag <-> id ∈ live_ids r ∩ InactiveSet issues)).
Proof.
  split_and!.
  - intros issues. pose proof (active_inactive_disjoint issues). set_solver.
  - intros issues closed ->%get_closed_beads_spec.
    pose proof (active_inactive_disjoint issues). set_solver.
  - intros issues live. set_solver.
  - intros fs dry_run verbose r issues Hload Hwt. cbv zeta. split.
    + destruct (pass_entries fs dry_run verbose r issues Hload Hwt)
        as (es1 & es2 & _ & H1 & H2 & Hes).
      intros id [Hs Ht]. destruct dry_run.
      * destruct Hes as (_ & _ & Hs0 & _). rewrite Hs0 in Hs.
        by apply elem_of_nil in Hs.
      * destruct Hes as [-> ->]. rewrite fst_prod_map in H1, H2.
        rewrite H1 in Hs. rewrite H2 in Ht. apply elem_of_set_iter in Hs, Ht.
        by apply (need_sets_disjoint _ _ _ id Hs Ht).
    + destruct (pass_outcomes fs dry_run verbose r issues Hload Hwt)
        as (actions & Hres & Hdom & Hsp & Hte).
      exists actions. split; [done|]. intros id tag Hid.
      assert (Hin : id ∈ dom actions) by (apply elem_of_dom; by eexists).
      rewrite Hdom in Hin. unfold needSpawn, needTerminate in *.
      apply elem_of_union in Hin as [Hin | Hin].
      * destruct (Hsp id Hin) as (tag' & Htag' & Hty). rewrite Hid in Htag'.
        injection Htag' as <-. split; split; try done.
        -- intros Hty'. by destruct (tag_types_disjoint tag).
        -- intros Hin'. exfalso. set_solver.
      * destruct (Hte id Hin) as (tag' & Htag' & Hty). rewrite Hid in Htag'.
        injection Htag' as <-. split; split; try done.
        -- intros Hty'. by destruct (tag_types_disjoint tag).
        -- intros Hin'. exfalso. set_solver.
Qed.

(** C4. Dry-run purity: with [dry_run = True] the pass calls neither
    [spawn_session] nor [terminate_session], so that the session manager is
    left in the state its listing leaves it in; it still returns the action
    record, with [would_spawn] on the spawn set and [would_terminate] on the
    terminate set, over the same keys as the pass that acts. *)
Theorem dry_run_purity fs verbose (r : R) issues :
  result (load_issues loads fs r) = Ret issues ->
  well_typed issues ->
  let x := sync_sessions loads fs true verbose r in
  spawn_calls (log x) = [] /\
  terminate_calls (log x) = [] /\
  registry x = (list_sessions true r).2 /\
  exists actions,
    result x = Ret actions /\
    dom actions = (get_in_progress_beads issues ∖ live_ids r) ∪
                  (live_ids r ∩ InactiveSet issues) /\
    (forall id, id ∈ get_in_progress_beads issues ∖ live_ids r ->
                actions !! id = Some "would_spawn") /\
    (forall id, id ∈ live_ids r ∩ InactiveSet issues ->
                actions !! id = Some "would_terminate") /\
    exists acted,
      result (sync_sessions loads fs false verbose r) = Ret acted /\
      dom acted = dom actions.
Proof.
  intros Hload Hwt. cbv zeta.
  destruct (pass_entries fs true verbose r issues Hload Hwt)
    as (es1 & es2 & Hres & H1 & H2 & -> & -> & Hs & Ht & Hreg).
  destruct (pass_record_lookup _ _ _ _ _ H1 H2) as [Hdom Hlook].
  split_and!; try done. eexists. split_and!; [exact Hres|exact Hdom| | |].
  - intros id Hid. apply Hlook, elem_of_app. left.
    apply list_elem_of_fmap. exists id. split; [done|]. by apply elem_of_set_iter.
  - intros id Hid. apply Hlook, elem_of_app. right.
    apply list_elem_of_fmap. exists id. split; [done|]. by apply elem_of_set_iter.
  - destruct (pass_outcomes fs false verbose r issues Hload Hwt)
      as (acted & Hacted & Hdom' & _).
    exists acted. split; [done|]. by rewrite Hdom, Hdom'.
Qed.


End pass_facts.

(** ** The loader, claim by claim *)

Section loader_claims.
Context {R : Type} {SM : SessionManager R} {SO : SetOrder}.
Variable loads : string -> option pyval.

Lemma record_of_inv line k issue :
  record_of loads line = Some (k, issue) ->
  loads (strip line) = Some (PDict issue) /\
  truthy (dict_get issue "id" PNone) = true /\
  key_of (dict_get issue "id" PNone) = Some k.
Proof.
  unfold record_of. destruct (strip line); [done|].
  destruct (loads _) as [[| | | | |d]|]; try done.
  destruct (truthy _) eqn:Ht; [|done]. destruct (key_of _) eqn:Hk; [|done].
  intros [= <- <-]. done.
Qed.

Lemma truthy_key v k :
  truthy v = true -> key_of v = Some k ->
  k <> KNone /\ k <> KInt 0 /\ k <> KStr EmptyString.
Proof.
  destruct v as [|[]|n|[]|l|d]; simpl; try done; intros Ht [= <-]; try done.
  split_and!; try done. intros [= ->]. done.
Qed.

Lemma falsy_id_line line issue :
  loads (strip line) = Some (PDict issue) ->
  truthy (dict_get issue "id" PNone) = false ->
  record_of loads line = None /\ line_error loads line = None.
Proof.
  intros Hl Ht. unfold record_of, line_error.
  destruct (strip line); [done|]. by rewrite Hl, Ht.
Qed.

Lemma read_lines_fault lines issues :
  (read_lines loads lines true issues).1 = (read_lines loads lines false issues).1.
Proof.
  revert issues. induction lines as [|l lines IH]; intros issues; [done|].
  rewrite !read_lines_cons. destruct (line_error loads l); [done|]. apply IH.
Qed.

Lemma load_issues_file_Ret fs (r : R) issues :
  result (load_issues loads fs r) = Ret issues ->
  forall fault, (read_lines loads (file_lines fs) fault ∅).1 = issues /\
  Forall (fun line => line_error loads line = None) (file_lines fs).
Proof.
  destruct fs as [f|]; simpl.
  - intros [H1 H2]%load_issues_Ret fault. split; [|done].
    destruct fault, (f_fault f); by rewrite ?read_lines_fault in *.
  - by intros [= <-].
Qed.

(** The loader returns a snapshot exactly on the loadable files. *)
Lemma load_issues_loadable fs (r : R) :
  loadable loads fs <-> exists issues, result (load_issues loads fs r) = Ret issues.
Proof.
  split.
  - intros H. destruct fs as [f|]; [|by eexists].
    eexists. by apply load_issues_total.
  - intros [issues H]. by apply (load_issues_file_Ret fs r issues H false).
Qed.

Lemma load_issues_returns fs (r : R) :
  loadable loads fs ->
  result (load_issues loads fs r) = Ret (read_lines loads (file_lines fs) false ∅).1.
Proof.
  intros H. destruct fs as [f|]; [|done].
  rewrite load_issues_total by done. simpl. f_equal.
  destruct (f_fault f); by rewrite ?read_lines_fault.
Qed.

(** A pass depends on the record file through the loaded snapshot only. *)
Lemma sync_sessions_load_ext fs fs' dry_run verbose (r : R) :
  result (load_issues loads fs r) = result (load_issues loads fs' r) ->
  result (sync_sessions loads fs dry_run verbose r) =
    result (sync_sessions loads fs' dry_run verbose r) /\
  registry (sync_sessions loads fs dry_run verbose r) =
    registry (sync_sessions loads fs' dry_run verbose r).
Proof.
  intros H. unfold sync_sessions. run_unfold.
  rewrite !load_issues_registry, H.
  destruct (result (load_issues loads fs' r)) as [issues|e]; simpl; [|done].
  destruct (get_closed_beads issues) as [closed|e]; simpl; [|done].
  destruct (list_sessions true r) as [sessions r1]. simpl.
  destruct (spawn_loop _ _ _ _ _ _) as [[a1|e] r2 l2]; simpl; [|done].
  by destruct (terminate_loop _ _ _ _ _) as [[a2|e] r3 l3].
Qed.

(** C7 (amended). An [IOError] raised while the record file is opened or
    read is caught inside [load_issues]: the loader prints the error and
    returns the snapshot of the lines read, and the pass continues against
    that snapshot as it would had the file ended there. *)
Theorem io_error_is_caught (f : fstate) (r : R) :
  f_fault f = true ->
  loadable loads (Some f) ->
  let x := load_issues loads (Some f) r in
  let read := Some (File (f_mtime f) (f_lines f) false) in
  (exists issues, result x = Ret issues /\
                  result (load_issues loads read r) = Ret issues) /\
  log x = [EvPrint MsgReadError] /\
  forall dry_run verbose,
    result (sync_sessions loads (Some f) dry_run verbose r) =
      result (sync_sessions loads read dry_run verbose r) /\
    registry (sync_sessions loads (Some f) dry_run verbose r) =
      registry (sync_sessions loads read dry_run verbose r).
Proof.
  intros Hfault Hok. cbv zeta. unfold loadable in Hok. simpl in Hok.
  assert (Hx : result (load_issues loads (Some f) r) =
               result (load_issues loads (Some (File (f_mtime f) (f_lines f) false)) r)).
  { rewrite !load_issues_total by done. simpl. by rewrite Hfault, read_lines_fault. }
  split_and!.
  - eexists. split; [by apply load_issues_total|]. rewrite <- Hx.
    by apply load_issues_total.
  - pose proof (read_lines_no_error loads _ (f_fault f) ∅ Hok) as He.
    unfold load_issues. destruct (read_lines _ _ _ _) as [issues e]. simpl in He.
    subst e. by rewrite Hfault.
  - intros dry_run verbose. by apply sync_sessions_load_ext.
Qed.

(** C8. Last-record-wins: when several lines of the record file carry the
    same id, the loaded snapshot maps the id to the record of the last of
    them; and the snapshot holds nothing but records of the file just read,
    whatever was loaded before. *)
Theorem last_record_wins (f : fstate) (r : R) before line after k issue :
  loadable loads (Some f) ->
  f_lines f = before ++ line :: after ->
  record_of loads line = Some (k, issue) ->
  (forall l issue', l ∈ after -> record_of loads l <> Some (k, issue')) ->
  exists issues,
    result (load_issues loads (Some f) r) = Ret issues /\
    issues !! k = Some issue /\
    (forall k' issue', issues !! k' = Some issue' ->
       exists l, l ∈ f_lines f /\ record_of loads l = Some (k', issue')) /\
    (forall r' : R, result (load_issues loads (Some f) r') = Ret issues).
Proof.
  intros Hok Hlines Hrec Hafter.
  exists (read_lines loads (f_lines f) false ∅).1.
  split; [by apply (load_issues_returns (Some f))|]. split_and!.
  - rewrite Hlines. apply read_lines_last; [|done|done].
    unfold loadable in Hok. simpl in Hok. by rewrite <- Hlines.
  - intros k' issue' Hk'.
    apply read_lines_origin in Hk' as [Hk' | Hk']; [|done].
    by rewrite lookup_empty in Hk'.
  - intros r'. by apply (load_issues_returns (Some f)).
Qed.

(** C10. Snapshot keys: every key of the loaded snapshot is the non-empty
    id of a record on some line of the file; and a line that parses to a
    record without id, or with a falsy id, is left out: the snapshot is the
    one the file gives without that line. *)
Theorem snapshot_keys (fs : option fstate) (r : R) :
  loadable loads fs ->
  exists issues,
    result (load_issues loads fs r) = Ret issues /\
    (forall k issue, issues !! k = Some issue ->
       k <> KNone /\ k <> KInt 0 /\ k <> KStr EmptyString /\
       exists line, line ∈ file_lines fs /\
                    loads (strip line) = Some (PDict issue) /\
                    truthy (dict_get issue "id" PNone) = true /\
                    key_of (dict_get issue "id" PNone) = Some k) /\
    (forall f before line after issue,
       fs = Some f ->
       f_lines f = before ++ line :: after ->
       loads (strip line) = Some (PDict issue) ->
       truthy (dict_get issue "id" PNone) = false ->
       result (load_issues loads (Some (File (f_mtime f) (before ++ after) (f_fault f))) r)
       = Ret issues).
Proof.
  intros Hok. exists (read_lines loads (file_lines fs) false ∅).1.
  split; [by apply load_issues_returns|]. split.
  - intros k issue Hk.
    apply read_lines_origin in Hk as [Hk | (line & Hin & Hline)];
      [by rewrite lookup_empty in Hk|].
    apply record_of_inv in Hline as (Hl & Ht & Hkey).
    destruct (truthy_key _ _ Ht Hkey) as (? & ? & ?).
    split_and!; try done. by exists line.
  - intros f before line after issue -> Hlines Hl Ht.
    destruct (falsy_id_line line issue Hl Ht) as [Hrec Herr].
    unfold loadable in Hok. simpl in *. rewrite Hlines in *.
    rewrite (load_issues_returns (Some (File (f_mtime f) (before ++ after) (f_fault f)))).
    + simpl. by rewrite (read_lines_drop loads before line after).
    + unfold loadable. simpl.
      apply Forall_app in Hok as [? [_ ?]%Forall_cons]. by apply Forall_app.
Qed.

End loader_claims.

(** ** The watch loop *)

Section watch_facts.
Context {R : Type} {SM : SessionManager R} {SO : SetOrder}.
Variable loads : string -> option pyval.

Lemma bind_log {A B : Type} (P : event -> Prop) (m : M A) (f : A -> M B) (r : R) :
  Forall P (log (m r)) ->
  (forall a r', Forall P (log (f a r'))) ->
  Forall P (log ((m ≫= f) r)).
Proof.
  intros Hm Hf. unfold mbind, M_bind.
  destruct (result (m r)); simpl; [|done]. apply Forall_app. by split.
Qed.

Lemma spawn_loop_quiet dry_run verbose issues ids actions (r : R) :
  Forall quiet (log (spawn_loop dry_run verbose issues ids actions r)).
Proof.
  revert actions r. induction ids as [|k ids IH]; intros actions r; simpl; [done|].
  apply bind_log.
  - destruct verbose; [|done]. destruct (slice_to _ _); [|done]. by repeat constructor.
  - intros _ r1. apply bind_log; [|intros; apply IH].
    destruct dry_run; simpl; [done|]. apply bind_log.
    + unfold call_spawn_session. destruct (spawn_session k r1). by repeat constructor.
    + by intros [s|] r2.
Qed.

Lemma terminate_loop_quiet dry_run verbose ids actions (r : R) :
  Forall quiet (log (terminate_loop dry_run verbose ids actions r)).
Proof.
  revert actions r. induction ids as [|k ids IH]; intros actions r; simpl; [done|].
  apply bind_log.
  - destruct verbose; [|done]. by repeat constructor.
  - intros _ r1. apply bind_log; [|intros; apply IH].
    destruct dry_run; simpl; [done|]. apply bind_log.
    + unfold call_terminate_session. destruct (terminate_session k r1).
      by repeat constructor.
    + by intros [] r2.
Qed.

(** The log of a pass starts with its entry and holds no other. *)
Lemma sync_sessions_log fs dry_run verbose (r : R) :
  exists rest,
    log (sync_sessions loads fs dry_run verbose r) = EvSync dry_run verbose :: rest /\
    Forall quiet rest.
Proof.
  unfold sync_sessions.
  match goal with
  | |- context [mbind ?f (emit ?e)] =>
      exists (log (f tt r)); split;
      [unfold mbind at 1, M_bind at 1, emit;
       by destruct (result (f tt r))|]
  end.
  apply bind_log.
  - destruct (load_issues_log loads fs r) as [-> | ->]; by repeat constructor.
  - intros issues r1. apply bind_log; [done|]. intros closed r2.
    apply bind_log.
    + unfold call_list_sessions. destruct (list_sessions true r2).
      by repeat constructor.
    + intros sessions r3. apply bind_log; [apply spawn_loop_quiet|].
      intros a1 r4. apply bind_log; [apply terminate_loop_quiet|]. done.
Qed.

Lemma sync_count_app l1 l2 : sync_count (l1 ++ l2) = (sync_count l1 + sync_count l2)%nat.
Proof. unfold sync_count. by rewrite filter_app, length_app. Qed.

Lemma sync_count_quiet l : Forall quiet l -> sync_count l = 0%nat.
Proof.
  unfold sync_count. induction 1 as [|e l [He _] _ IH]; [done|].
  rewrite filter_cons. destruct (decide _) as [Hd|_]; [congruence|done].
Qed.

Lemma quiet_no_notice l :
  Forall quiet l -> Forall (fun e => is_changed_notice e = false) l.
Proof. intros H. eapply Forall_impl; [exact H|]. by intros e [_ ?]. Qed.

Lemma bind_run {A B : Type} (m : M A) (f : A -> M B) (r : R) :
  (m ≫= f) r =
  match result (m r) with
  | Ret a =>
      let x := f a (registry (m r)) in
      Run (result x) (registry x) (log (m r) ++ log x)
  | Raise e => Run (Raise e) (registry (m r)) (log (m r))
  end.
Proof. done. Qed.

Lemma emit_bind {B : Type} (e : event) (f : unit -> M B) (r : R) :
  (emit e ≫= f) r = Run (result (f tt r)) (registry (f tt r)) (e :: log (f tt r)).
Proof. done. Qed.

Lemma mret_bind {A B : Type} (a : A) (f : A -> M B) (r : R) :
  (mret a ≫= f) r = Run (result (f a r)) (registry (f a r)) (log (f a r)).
Proof. done. Qed.

(** A tick that finds the file missing or not newer does nothing. *)
Lemma watch_tick_unchanged dry_run verbose fs last_mtime (r : R) :
  unchanged last_mtime fs ->
  watch_tick loads dry_run verbose fs last_mtime r = Run (Ret last_mtime) r [].
Proof.
  intros H. destruct fs as [f|]; simpl in *; [|done].
  rewrite Z.gtb_ltb. by rewrite (proj2 (Z.ltb_ge _ _) H).
Qed.

(** A tick that finds the file newer than the time stamp observed runs one
    pass, after the "changed" notice unless the time stamp is the initial 0. *)
Lemma watch_tick_changed dry_run verbose f last_mtime (r : R) :
  last_mtime < f_mtime f ->
  let x := watch_tick loads dry_run verbose (Some f) last_mtime r in
  exists tail,
    log x = (if last_mtime >? 0 then [EvPrint MsgChanged] else []) ++
            EvSync dry_run verbose :: tail /\
    Forall quiet tail /\
    (forall last', result x = Ret last' -> last' = f_mtime f).
Proof.
  intros H. cbv zeta. unfold watch_tick.
  rewrite (proj2 (Z.gtb_lt _ _) H).
  destruct (sync_sessions_log (Some f) dry_run verbose r) as (rest & Hlog & Hq).
  assert (Hgo : forall r0, exists tail,
    log ((sync_sessions loads (Some f) dry_run verbose ≫= fun actions =>
            (if bool_decide (actions = ∅) then mret tt
             else print (MsgActions (size actions)));;
            mret (f_mtime f)) r0) =
      log (sync_sessions loads (Some f) dry_run verbose r0) ++ tail /\
    Forall quiet tail /\
    forall last',
      result ((sync_sessions loads (Some f) dry_run verbose ≫= fun actions =>
            (if bool_decide (actions = ∅) then mret tt
             else print (MsgActions (size actions)));;
            mret (f_mtime f)) r0) = Ret last' -> last' = f_mtime f).
  { intros r0. rewrite bind_run.
    destruct (sync_sessions loads (Some f) dry_run verbose r0) as [[actions|e] r1 l1];
      simpl.
    - destruct (bool_decide (actions = ∅)); simpl.
      + exists []. split_and!; [done|done|]. by intros ? [= <-].
      + eexists. split_and!; [done|by repeat constructor|]. by intros ? [= <-].
    - exists []. split_and!; [by rewrite app_nil_r|done|done]. }
  destruct (last_mtime >? 0).
  - change (print (R:=R) MsgChanged) with (emit (R:=R) (EvPrint MsgChanged)).
    rewrite emit_bind. simpl. destruct (Hgo r) as (tail & Htail & Hqt & Hres).
    rewrite Htail, Hlog. exists (rest ++ tail). split_and!; [done| |done].
    apply Forall_app. by split.
  - rewrite mret_bind. simpl. destruct (Hgo r) as (tail & Htail & Hqt & Hres).
    rewrite Htail, Hlog. exists (rest ++ tail). split_and!; [done| |done].
    apply Forall_app. by split.
Qed.

(** While nothing changes the loop only sleeps, until the interrupt. *)
Lemma watch_ticks_idle dry_run verbose ticks last_mtime (r : R) :
  Forall (unchanged last_mtime) ticks ->
  watch_ticks loads dry_run verbose ticks last_mtime r =
  Run (Raise KeyboardInterrupt) r (replicate (length ticks) (EvSleep WATCH_INTERVAL)).
Proof.
  induction 1 as [|fs ticks Hfs _ IH]; [done|].
  cbn [watch_ticks]. rewrite bind_run, watch_tick_unchanged by done.
  cbn [result registry log]. rewrite emit_bind, IH. done.
Qed.

Lemma print_bind {B : Type} (m : message) (f : unit -> M B) (r : R) :
  (print m ≫= f) r =
  Run (result (f tt r)) (registry (f tt r)) (EvPrint m :: log (f tt r)).
Proof. done. Qed.

Lemma one_sync pre post dry_run verbose :
  Forall quiet pre -> Forall quiet post ->
  sync_count (pre ++ EvSync dry_run verbose :: post) = 1%nat /\
  Forall (fun e => is_changed_notice e = false) (pre ++ EvSync dry_run verbose :: post).
Proof.
  intros Hpre Hpost. split.
  - rewrite sync_count_app, sync_count_quiet by done.
    change (EvSync dry_run verbose :: post) with ([EvSync dry_run verbose] ++ post).
    by rewrite sync_count_app, (sync_count_quiet post).
  - apply Forall_app. split; [by apply quiet_no_notice|].
    constructor; [done|by apply quiet_no_notice].
Qed.

Lemma quiet_sleeps n : Forall quiet (replicate n (EvSleep WATCH_INTERVAL)).
Proof. induction n; by constructor. Qed.

(** C9 (amended). Watch baseline: a first tick that finds the record file,
    with a modification time above the initial 0, runs exactly one
    reconciliation and prints no "changed" notice; a tick that finds no
    file, or a file whose modification time does not exceed the time stamp
    observed before, runs no reconciliation and leaves that time stamp as
    it is; hence a watch that starts on such a file and then sees it
    unchanged runs one reconciliation in all, without "changed" notice. *)
Theorem watch_baseline dry_run verbose :
  (forall f (r : R),
     0 < f_mtime f ->
     let x := watch_tick loads dry_run verbose (Some f) 0 r in
     sync_count (log x) = 1%nat /\
     Forall (fun e => is_changed_notice e = false) (log x) /\
     (forall last_mtime, result x = Ret last_mtime -> last_mtime = f_mtime f)) /\
  (forall fs last_mtime (r : R),
     unchanged last_mtime fs ->
     watch_tick loads dry_run verbose fs last_mtime r = Run (Ret last_mtime) r []) /\
  (forall f ticks (r : R),
     0 < f_mtime f ->
     Forall (unchanged (f_mtime f)) ticks ->
     let x := watch_loop loads dry_run verbose (Some f :: ticks) r in
     sync_count (log x) = 1%nat /\
     Forall (fun e => is_changed_notice e = false) (log x)).
Proof.
  split_and!.
  - intros f r Hf. cbv zeta.
    destruct (watch_tick_changed dry_run verbose f 0 r Hf) as (tail & Hlog & Hq & Hres).
    change (0 >? 0) with false in Hlog. cbn [app] in Hlog. rewrite Hlog.
    destruct (one_sync [] tail dry_run verbose) as [H1 H2]; done.
  - intros fs last_mtime r H. by apply watch_tick_unchanged.
  - intros f ticks r Hf Hticks. cbv zeta. unfold watch_loop.
    repeat (rewrite print_bind; cbn [log result registry]).
    unfold try_except. cbn [watch_ticks]. rewrite bind_run.
    destruct (watch_tick_changed dry_run verbose f 0 r Hf) as (tail & Hlog & Hq & Hres).
    change (0 >? 0) with false in Hlog. cbn [app] in Hlog.
    destruct (watch_tick loads dry_run verbose (Some f) 0 r) as [[last'|e] r1 l1].
    + cbn [result log] in Hlog, Hres. rewrite (Hres last' eq_refl). subst l1.
      cbn [result registry log]. rewrite emit_bind. cbn [result registry log].
      rewrite watch_ticks_idle by done. cbn [result registry log].
      rewrite bool_decide_eq_true_2 by done. cbn [result registry log print emit].
      rewrite <- app_assoc.
      apply (one_sync [EvPrint MsgStarted; EvPrint MsgProjectRoot; EvPrint MsgIssuesFile;
                       EvPrint MsgSessionsDir; EvPrint (MsgDryRun dry_run);
                       EvPrint MsgBlank]
               (tail ++ (EvSleep WATCH_INTERVAL
                         :: replicate (length ticks) (EvSleep WATCH_INTERVAL)) ++
                        [EvPrint MsgStopped])).
      * by repeat constructor.
      * apply Forall_app. split; [done|]. apply Forall_app. split.
        -- constructor; [done|apply quiet_sleeps].
        -- by repeat constructor.
    + cbn [log] in Hlog. subst l1. cbn [result registry log].
      destruct (bool_decide (e = KeyboardInterrupt)); cbn [result registry log print emit].
      * apply (one_sync [EvPrint MsgStarted; EvPrint MsgProjectRoot; EvPrint MsgIssuesFile;
                         EvPrint MsgSessionsDir; EvPrint (MsgDryRun dry_run);
                         EvPrint MsgBlank]
                 (tail ++ [EvPrint MsgStopped])).
        -- by repeat constructor.
        -- apply Forall_app. split; [done|]. by repeat constructor.
      * apply (one_sync [EvPrint MsgStarted; EvPrint MsgProjectRoot; EvPrint MsgIssuesFile;
                         EvPrint MsgSessionsDir; EvPrint (MsgDryRun dry_run);
                         EvPrint MsgBlank] tail); [by repeat constructor|done].
Qed.

End watch_facts.

(** ** The loader on damaged files *)

Section loader_robustness.
Context {R : Type}.
Variable loads : string -> option pyval.

(** A missing record file is the empty snapshot, without error or message. *)
Lemma load_issues_missing_file (r : R) :
  load_issues loads None r = Run (Ret ∅) r [].
Proof. done. Qed.

(** A blank line and a line the decoder rejects are skipped. *)
Lemma load_issues_skips_unparseable (f : fstate) before line after (r : R) :
  f_lines f = before ++ line :: after ->
  blank line \/ unparseable loads line ->
  load_issues loads (Some f) r =
  load_issues loads (Some (File (f_mtime f) (before ++ after) (f_fault f))) r.
Proof.
  intros Hlines Hline. unfold load_issues. simpl. rewrite Hlines.
  rewrite (read_lines_drop loads before line after); [done| |].
  - unfold record_of. destruct Hline as [-> | [_ Hl]]; [done|].
    destruct (strip line); [done|]. by rewrite Hl.
  - unfold line_error. destruct Hline as [-> | [_ Hl]]; [done|].
    destruct (strip line); [done|]. by rewrite Hl.
Qed.

(** A line that decodes to something else than an object, or to a record
    whose id cannot be hashed, ends the load with its exception. *)
Lemma load_issues_raises (f : fstate) (r : R) :
  Exists (fun line => is_Some (line_error loads line)) (f_lines f) ->
  exists e, result (load_issues loads (Some f) r) = Raise e /\
            (e = AttributeError \/ e = TypeError).
Proof.
  intros H.
  destruct (read_lines_error loads (f_lines f) (f_fault f) ∅ H) as (e & He & Hcase).
  exists e. split; [|done]. unfold load_issues.
  destruct (read_lines _ _ _ _) as [issues e']. simpl in He. subst e'.
  by destruct Hcase as [-> | ->].
Qed.
End loader_robustness.

(** C6. Record Store Reader robustness, on [file_non_record]: the first line,
    42, decodes but is no record; the load ends with [AttributeError] and
    the valid record of the second line is not loaded, where the file without
    the first line gives the snapshot with W1. *)
Theorem load_issues_non_record_line :
  result (load_issues json_loads (Some file_non_record) no_sessions)
  = Raise AttributeError /\
  result (sync_sessions json_loads (Some file_non_record) false true no_sessions)
  = Raise AttributeError /\
  result (load_issues json_loads
            (Some (File 100 [record_line "W1" "in_progress" "First"] false)) no_sessions)
  = Ret {[ W1 := issue_of "W1" "in_progress" "First" ]}.
Proof. split_and!; vm_compute; reflexivity. Qed.

(** ** The scenarios of the specification *)

(** Scenario A: W1 is spawned, W2 gives no action. *)
Example scenario_A :
  result (sync_sessions json_loads (Some file_A) false true no_sessions)
  = Ret {[ W1 := "spawned" ]}.
Proof. vm_compute. reflexivity. Qed.

(** Scenario B: a live session without record is left alone. *)
Example scenario_B :
  result (sync_sessions json_loads
            (Some (File 100 [record_line "W1" "in_progress" "First"] false))
            false true (Fake {[W1; W2]} ∅ ∅))
  = Ret ∅.
Proof. vm_compute. reflexivity. Qed.

(** Scenario C: the session of the inactive W1 is terminated. *)
Example scenario_C :
  result (sync_sessions json_loads
            (Some (File 100 [record_line "W1" "closed" "First"] false))
            false true (Fake {[W1]} ∅ ∅))
  = Ret {[ W1 := "terminated" ]}.
Proof. vm_compute. reflexivity. Qed.

(** Scenario E: the failure on W1 does not keep W2 from being spawned. *)
Example scenario_E :
  result (sync_sessions json_loads (Some file_E) false true registry_E)
  = Ret {[ W1 := "spawn_failed"; W2 := "spawned" ]}.
Proof. vm_compute. reflexivity. Qed.

(** The file with W1 twice loads the later record; the record with the empty
    id is left out. *)
Example load_file_twice :
  load_issues json_loads (Some file_twice) no_sessions
  = Run (Ret {[ W1 := issue_of "W1" "closed" "New" ]}) no_sessions [].
Proof. vm_compute. reflexivity. Qed.

Example load_file_anonymous :
  load_issues json_loads (Some file_anonymous) no_sessions
  = Run (Ret {[ W1 := issue_of "W1" "in_progress" "First" ]}) no_sessions [].
Proof. vm_compute. reflexivity. Qed.

(** Scenario D: two ticks on the same file, then the interrupt. *)
Example scenario_D :
  log (watch_loop json_loads false false [Some file_A; Some file_A] no_sessions)
  = [EvPrint MsgStarted; EvPrint MsgProjectRoot; EvPrint MsgIssuesFile;
     EvPrint MsgSessionsDir; EvPrint (MsgDryRun false); EvPrint MsgBlank;
     EvSync false false; EvListSessions true; EvSpawn W1 true;
     EvPrint (MsgActions 1); EvSleep 2; EvSleep 2; EvPrint MsgStopped].
Proof. vm_compute. reflexivity. Qed.

(** A later change of the file is announced and reconciled. *)
Example watch_change :
  log (watch_loop json_loads false false [Some file_A; Some (File 200 [] false)]
         no_sessions)
  = [EvPrint MsgStarted; EvPrint MsgProjectRoot; EvPrint MsgIssuesFile;
     EvPrint MsgSessionsDir; EvPrint (MsgDryRun false); EvPrint MsgBlank;
     EvSync false false; EvListSessions true; EvSpawn W1 true;
     EvPrint (MsgActions 1); EvSleep 2;
     EvPrint MsgChanged; EvSync false false; EvListSessions true; EvSleep 2;
     EvPrint MsgStopped].
Proof. vm_compute. reflexivity. Qed.

(** ** The theorems at concrete inputs *)

Lemma sync_sessions_idempotent_witness :
  result (load_issues json_loads (Some file_A) consistent_A) = Ret issues_A /\
  get_closed_beads issues_A = Ret {[W2]} /\
  get_in_progress_beads issues_A ⊆ live_ids consistent_A /\
  live_ids consistent_A ## ({[W2]} : gset key) /\
  let x := sync_sessions json_loads (Some file_A) false true consistent_A in
  result x = Ret ∅ /\
  spawn_calls (log x) = [] /\ terminate_calls (log x) = [] /\
  registry x = (list_sessions true consistent_A).2.
Proof.
  assert (H1 : result (load_issues json_loads (Some file_A) consistent_A) = Ret issues_A)
    by (vm_compute; reflexivity).
  assert (H2 : get_closed_beads issues_A = Ret {[W2]}) by (vm_compute; reflexivity).
  assert (H3 : get_in_progress_beads issues_A ⊆ live_ids consistent_A) by by_evaluation.
  assert (H4 : live_ids consistent_A ## ({[W2]} : gset key)) by by_evaluation.
  repeat (split; [assumption|]).
  exact (sync_sessions_idempotent json_loads (Some file_A) false true consistent_A
           issues_A {[W2]} H1 H2 H3 H4).
Defined.

Lemma sync_sessions_action_sets_witness :
  result (load_issues json_loads (Some file_C) registry_C) = Ret issues_C /\
  well_typed issues_C /\
  (forall id, id ∈ get_in_progress_beads issues_C <->
              exists issue, issues_C !! id = Some issue /\
                            dict_get issue "status" PNone = PStr "in_progress") /\
  get_closed_beads issues_C = Ret (InactiveSet issues_C) /\
  exists actions,
    result (sync_sessions json_loads (Some file_C) false true registry_C) = Ret actions /\
    dom actions = (get_in_progress_beads issues_C ∖ live_ids registry_C) ∪
                  (live_ids registry_C ∩ InactiveSet issues_C) /\
    (forall id, id ∈ get_in_progress_beads issues_C ∖ live_ids registry_C ->
                exists tag, actions !! id = Some tag /\ spawn_type tag) /\
    (forall id, id ∈ live_ids registry_C ∩ InactiveSet issues_C ->
                exists tag, actions !! id = Some tag /\ terminate_type tag).
Proof.
  assert (H1 : result (load_issues json_loads (Some file_C) registry_C) = Ret issues_C)
    by (vm_compute; reflexivity).
  assert (H2 : well_typed issues_C) by (unfold well_typed; by_evaluation).
  repeat (split; [assumption|]).
  exact (sync_sessions_action_sets json_loads (Some file_C) false true registry_C
           issues_C H1 H2).
Defined.

Lemma spawn_terminate_disjoint_witness :
  result (load_issues json_loads (Some file_C) registry_C) = Ret issues_C /\
  well_typed issues_C /\
  let x := sync_sessions json_loads (Some file_C) false true registry_C in
  (forall id, ~ (id ∈ (spawn_calls (log x)).*1 /\ id ∈ (terminate_calls (log x)).*1)) /\
  exists actions, result x = Ret actions /\ forall id tag,
    actions !! id = Some tag ->
    (spawn_type tag <-> id ∈ get_in_progress_beads issues_C ∖ live_ids registry_C) /\
    (terminate_type tag <-> id ∈ live_ids registry_C ∩ InactiveSet issues_C).
Proof.
  assert (H1 : result (load_issues json_loads (Some file_C) registry_C) = Ret issues_C)
    by (vm_compute; reflexivity).
  assert (H2 : well_typed issues_C) by (unfold well_typed; by_evaluation).
  repeat (split; [assumption|]).
  exact (proj2 (proj2 (proj2 (spawn_terminate_disjoint (R:=fake_registry) json_loads)))
           (Some file_C) false true registry_C issues_C H1 H2).
Defined.

Lemma dry_run_purity_witness :
  result (load_issues json_loads (Some file_C) registry_C) = Ret issues_C /\
  well_typed issues_C /\
  let x := sync_sessions json_loads (Some file_C) true true registry_C in
  spawn_calls (log x) = [] /\
  terminate_calls (log x) = [] /\
  registry x = (list_sessions true registry_C).2 /\
  exists actions,
    result x = Ret actions /\
    dom actions = (get_in_progress_beads issues_C ∖ live_ids registry_C) ∪
                  (live_ids registry_C ∩ InactiveSet issues_C) /\
    (forall id, id ∈ get_in_progress_beads issues_C ∖ live_ids registry_C ->
                actions !! id = Some "would_spawn") /\
    (forall id, id ∈ live_ids registry_C ∩ InactiveSet issues_C ->
                actions !! id = Some "would_terminate") /\
    exists acted,
      result (sync_sessions json_loads (Some file_C) false true registry_C) = Ret acted /\
      dom acted = dom actions.
Proof.
  assert (H1 : result (load_issues json_loads (Some file_C) registry_C) = Ret issues_C)
    by (vm_compute; reflexivity).
  assert (H2 : well_typed issues_C) by (unfold well_typed; by_evaluation).
  repeat (split; [assumption|]).
  exact (dry_run_purity json_loads (Some file_C) true registry_C issues_C H1 H2).
Defined.


(** C7, as stated, fails on [file_faulty]: reading raises [IOError] after the
    first line, yet neither the loader nor the pass raises; the pass goes on
    against the snapshot read so far and spawns W1. *)
Lemma io_error_not_propagated :
  f_fault file_faulty = true /\
  ~ (exists e, result (load_issues json_loads (Some file_faulty) no_sessions) = Raise e) /\
  ~ (exists e, result (sync_sessions json_loads (Some file_faulty) false true no_sessions)
               = Raise e) /\
  result (sync_sessions json_loads (Some file_faulty) false true no_sessions)
  = Ret {[ W1 := "spawned" ]}.
Proof.
  split; [reflexivity|]. split; [|split].
  - intros [e H]. vm_compute in H. discriminate H.
  - intros [e H]. vm_compute in H. discriminate H.
  - vm_compute. reflexivity.
Qed.

Lemma io_error_is_caught_witness :
  f_fault file_faulty = true /\
  loadable json_loads (Some file_faulty) /\
  let x := load_issues json_loads (Some file_faulty) no_sessions in
  let read := Some (File (f_mtime file_faulty) (f_lines file_faulty) false) in
  (exists issues, result x = Ret issues /\
                  result (load_issues json_loads read no_sessions) = Ret issues) /\
  log x = [EvPrint MsgReadError] /\
  forall dry_run verbose,
    result (sync_sessions json_loads (Some file_faulty) dry_run verbose no_sessions) =
      result (sync_sessions json_loads read dry_run verbose no_sessions) /\
    registry (sync_sessions json_loads (Some file_faulty) dry_run verbose no_sessions) =
      registry (sync_sessions json_loads read dry_run verbose no_sessions).
Proof.
  assert (H1 : f_fault file_faulty = true) by reflexivity.
  assert (H2 : loadable json_loads (Some file_faulty)).
  { constructor; [vm_compute; reflexivity|constructor]. }
  repeat (split; [assumption|]).
  exact (io_error_is_caught json_loads file_faulty no_sessions H1 H2).
Defined.

Lemma last_record_wins_witness :
  let before := [record_line "W1" "in_progress" "Old"; "{not json"] in
  let line := record_line "W1" "closed" "New" in
  loadable json_loads (Some file_twice) /\
  f_lines file_twice = before ++ line :: [] /\
  record_of json_loads line = Some (W1, issue_of "W1" "closed" "New") /\
  (forall l issue', l ∈ @nil string ->
     record_of json_loads l <> Some (W1, issue')) /\
  exists issues,
    result (load_issues json_loads (Some file_twice) no_sessions) = Ret issues /\
    issues !! W1 = Some (issue_of "W1" "closed" "New") /\
    (forall k' issue', issues !! k' = Some issue' ->
       exists l, l ∈ f_lines file_twice /\ record_of json_loads l = Some (k', issue')) /\
    (forall r' : fake_registry,
       result (load_issues json_loads (Some file_twice) r') = Ret issues).
Proof.
  cbv zeta.
  assert (H1 : loadable json_loads (Some file_twice)).
  { repeat (constructor; [vm_compute; reflexivity|]). constructor. }
  assert (H2 : f_lines file_twice =
               [record_line "W1" "in_progress" "Old"; "{not json"] ++
               record_line "W1" "closed" "New" :: []) by reflexivity.
  assert (H3 : record_of json_loads (record_line "W1" "closed" "New")
               = Some (W1, issue_of "W1" "closed" "New")) by (vm_compute; reflexivity).
  assert (H4 : forall l issue', l ∈ @nil string ->
                 record_of json_loads l <> Some (W1, issue')).
  { intros l issue' Hl. by apply elem_of_nil in Hl. }
  repeat (split; [assumption|]).
  exact (last_record_wins json_loads file_twice no_sessions _ _ _ _ _ H1 H2 H3 H4).
Defined.

Lemma snapshot_keys_witness :
  loadable json_loads (Some file_anonymous) /\
  exists issues,
    result (load_issues json_loads (Some file_anonymous) no_sessions) = Ret issues /\
    (forall k issue, issues !! k = Some issue ->
       k <> KNone /\ k <> KInt 0 /\ k <> KStr EmptyString /\
       exists line, line ∈ file_lines (Some file_anonymous) /\
                    json_loads (strip line) = Some (PDict issue) /\
                    truthy (dict_get issue "id" PNone) = true /\
                    key_of (dict_get issue "id" PNone) = Some k) /\
    (forall f before line after issue,
       Some file_anonymous = Some f ->
       f_lines f = before ++ line :: after ->
       json_loads (strip line) = Some (PDict issue) ->
       truthy (dict_get issue "id" PNone) = false ->
       result (load_issues json_loads
                 (Some (File (f_mtime f) (before ++ after) (f_fault f))) no_sessions)
       = Ret issues).
Proof.
  assert (H1 : loadable json_loads (Some file_anonymous)).
  { repeat (constructor; [vm_compute; reflexivity|]). constructor. }
  split; [assumption|].
  exact (snapshot_keys json_loads (Some file_anonymous) no_sessions H1).
Defined.

(** C9, as stated, fails on a first tick that finds no record file: no
    reconciliation runs on it. *)
Lemma watch_first_tick_without_file :
  sync_count (log (watch_tick json_loads false true None 0 no_sessions)) = 0%nat /\
  sync_count (log (watch_loop json_loads false true [None] no_sessions)) = 0%nat /\
  sync_count (log (watch_loop json_loads false true [None] no_sessions)) <> 1%nat.
Proof. split_and!; vm_compute; done. Qed.

Lemma watch_baseline_witness :
  0 < f_mtime file_A /\
  unchanged (f_mtime file_A) (Some file_A) /\
  Forall (unchanged (f_mtime file_A)) [Some file_A; None] /\
  (let x := watch_tick json_loads false true (Some file_A) 0 no_sessions in
   sync_count (log x) = 1%nat /\
   Forall (fun e => is_changed_notice e = false) (log x) /\
   (forall last_mtime, result x = Ret last_mtime -> last_mtime = f_mtime file_A)) /\
  watch_tick json_loads false true (Some file_A) (f_mtime file_A) no_sessions
  = Run (Ret (f_mtime file_A)) no_sessions [] /\
  (let x := watch_loop json_loads false true
              (Some file_A :: [Some file_A; None]) no_sessions in
   sync_count (log x) = 1%nat /\
   Forall (fun e => is_changed_notice e = false) (log x)).
Proof.
  assert (H1 : 0 < f_mtime file_A) by (simpl; lia).
  assert (H2 : unchanged (f_mtime file_A) (Some file_A)) by (simpl; lia).
  assert (H3 : Forall (unchanged (f_mtime file_A)) [Some file_A; None]).
  { constructor; [simpl; lia|]. constructor; [exact I|]. constructor. }
  repeat (split; [assumption|]).
  destruct (watch_baseline (R:=fake_registry) json_loads false true) as (T1 & T2 & T3).
  split; [exact (T1 file_A no_sessions H1)|].
  split; [exact (T2 (Some file_A) (f_mtime file_A) no_sessions H2)|].
  exact (T3 file_A [Some file_A; None] no_sessions H1 H3).
Defined.

(** * Further properties of the daemon *)

(** ** Errors of the classifiers and of a pass *)

Lemma set_comp_raise cond items e :
  set_comp cond items = Raise e ->
  exists id issue, (id, issue) ∈ items /\ cond issue = Raise e.
Proof.
  induction items as [|[id issue] items IH]; simpl; [done|].
  destruct (cond issue) as [b|e'] eqn:Hc.
  - destruct (set_comp cond items) as [X|e'']; [done|].
    intros [= ->]. destruct (IH eq_refl) as (id' & issue' & Hin & H).
    exists id', issue'. by split; [right|].
  - intros [= ->]. exists id, issue. by split; [left|].
Qed.

Lemma set_comp_raises cond items id issue e :
  (id, issue) ∈ items -> cond issue = Raise e ->
  exists e', set_comp cond items = Raise e'.
Proof.
  induction items as [|[id' issue'] items IH]; intros Hin Hc.
  - by apply elem_of_nil in Hin.
  - simpl. apply elem_of_cons in Hin as [[= <- <-] | Hin].
    + rewrite Hc. by eexists.
    + destruct (cond issue'); [|by eexists].
      destruct (IH Hin Hc) as [e' ->]. by eexists.
Qed.

Lemma get_closed_beads_exn issues e :
  get_closed_beads issues = Raise e -> e = TypeError.
Proof.
  intros H. apply set_comp_raise in H as (id & issue & _ & H).
  unfold in_set in H. destruct (key_of _); [done|]. by injection H.
Qed.

Lemma get_closed_beads_unhashable issues :
  get_closed_beads issues = Raise TypeError <->
  exists id issue, issues !! id = Some issue /\
                   key_of (dict_get issue "status" PNone) = None.
Proof.
  split.
  - intros H. apply set_comp_raise in H as (id & issue & Hin & H).
    exists id, issue. split; [by apply elem_of_map_to_list|].
    unfold in_set in H. by destruct (key_of _).
  - intros (id & issue & Hin & H).
    destruct (set_comp_raises
      (fun issue => in_set (dict_get issue "status" PNone) closed_statuses)
      (map_to_list issues) id issue TypeError) as [e He].
    + by apply elem_of_map_to_list.
    + unfold in_set. by rewrite H.
    + unfold get_closed_beads in *. rewrite He. f_equal.
      by apply (get_closed_beads_exn issues).
Qed.

(** [get_closed_beads] raises exactly when some record has a status that
    cannot be hashed (a list or a dict), and then it is [TypeError]; the
    other classifier, which compares with [==], never raises. *)
Theorem get_closed_beads_error issues :
  (forall e, get_closed_beads issues = Raise e -> e = TypeError) /\
  (get_closed_beads issues = Raise TypeError <->
   exists id issue, issues !! id = Some issue /\
                    key_of (dict_get issue "status" PNone) = None).
Proof.
  split; [apply get_closed_beads_exn|apply get_closed_beads_unhashable].
Qed.

Section pass_errors.
Context {R : Type} {SM : SessionManager R} {SO : SetOrder}.
Variable loads : string -> option pyval.

Lemma raises_only_bind {A B : Type} P (m : M (R:=R) A) (f : A -> M (R:=R) B) :
  raises_only P m -> (forall a, raises_only P (f a)) -> raises_only P (m ≫= f).
Proof.
  intros Hm Hf r e. unfold mbind, M_bind.
  destruct (result (m r)) as [a|e'] eqn:Hr; simpl.
  - apply Hf.
  - intros [= ->]. by apply (Hm r).
Qed.

Lemma raises_only_ret {A : Type} P (a : A) : raises_only P (mret a : M (R:=R) A).
Proof. by intros r e. Qed.

Lemma read_lines_exn lines fault issues e :
  (read_lines loads lines fault issues).2 = Some e ->
  e = IOError \/ e = AttributeError \/ e = TypeError.
Proof.
  revert issues. induction lines as [|l lines IH]; intros issues.
  - simpl. destruct fault; [|done]. intros [= <-]. by left.
  - rewrite read_lines_cons. destruct (line_error loads l) as [e'|] eqn:He.
    + simpl. intros [= <-]. right. by eapply line_error_not_io.
    + apply IH.
Qed.

Lemma load_issues_raises_only fs :
  raises_only type_or_attribute (load_issues (R:=R) loads fs).
Proof.
  intros r e. unfold load_issues. destruct fs as [f|]; [|done].
  destruct (read_lines _ _ _ _) as [issues [e'|]] eqn:Hr; [|done].
  pose proof (read_lines_exn (f_lines f) (f_fault f) ∅ e') as He.
  rewrite Hr in He. specialize (He eq_refl).
  destruct e'; simpl; try done; intros [= <-]; destruct He as [?|[?|?]]; try done;
    by (left + right).
Qed.

Lemma spawn_loop_raises_only dry_run verbose issues ids actions :
  raises_only type_or_attribute (spawn_loop (R:=R) dry_run verbose issues ids actions).
Proof.
  revert actions. induction ids as [|k ids IH]; intros actions; simpl.
  - apply raises_only_ret.
  - apply raises_only_bind.
    + destruct verbose; [|apply raises_only_ret].
      destruct (slice_to _ _); [by intros r e|].
      intros r e [= <-]. by right.
    + intros _. apply raises_only_bind; [|intros; apply IH].
      destruct dry_run; simpl; [apply raises_only_ret|].
      apply raises_only_bind.
      * intros r e. unfold call_spawn_session. by destruct (spawn_session k r).
      * intros [s|]; apply raises_only_ret.
Qed.

Lemma terminate_loop_raises_only dry_run verbose ids actions :
  raises_only type_or_attribute (terminate_loop (R:=R) dry_run verbose ids actions).
Proof.
  revert actions. induction ids as [|k ids IH]; intros actions; simpl.
  - apply raises_only_ret.
  - apply raises_only_bind.
    + destruct verbose; [by intros r e|apply raises_only_ret].
    + intros _. apply raises_only_bind; [|intros; apply IH].
      destruct dry_run; simpl; [apply raises_only_ret|].
      apply raises_only_bind.
      * intros r e. unfold call_terminate_session. by destruct (terminate_session k r).
      * intros []; apply raises_only_ret.
Qed.

Lemma sync_sessions_raises_only fs dry_run verbose :
  raises_only type_or_attribute (sync_sessions (R:=R) loads fs dry_run verbose).
Proof.
  unfold sync_sessions. apply raises_only_bind; [by intros r e|]. intros _.
  apply raises_only_bind; [apply load_issues_raises_only|]. intros issues.
  apply raises_only_bind.
  { intros r e. unfold lift. simpl. intros H.
    right. by apply (get_closed_beads_exn issues). }
  intros closed. apply raises_only_bind.
  { intros r e. unfold call_list_sessions. by destruct (list_sessions true r). }
  intros sessions. apply raises_only_bind; [apply spawn_loop_raises_only|].
  intros a1. apply raises_only_bind; [apply terminate_loop_raises_only|].
  intros a2. apply raises_only_ret.
Qed.

(** One record with a status that cannot be hashed stops every pass: the
    pass raises [TypeError] after the load, before the session manager is
    asked anything. *)
Theorem unhashable_status_stops_pass fs dry_run verbose (r : R) issues id issue :
  result (load_issues loads fs r) = Ret issues ->
  issues !! id = Some issue ->
  key_of (dict_get issue "status" PNone) = None ->
  sync_sessions loads fs dry_run verbose r =
  Run (Raise TypeError) r (EvSync dry_run verbose :: log (load_issues loads fs r)).
Proof.
  intros Hload Hid Hst.
  assert (Hc : get_closed_beads issues = Raise TypeError).
  { apply get_closed_beads_unhashable. by exists id, issue. }
  pose proof (load_issues_registry loads fs r) as Hreg.
  unfold sync_sessions. run_unfold. rewrite Hload. simpl. rewrite Hc. simpl.
  by rewrite Hreg, app_nil_r.
Qed.

End pass_errors.

(** ** What verbosity and dry-run do not change *)

Section pass_modes.
Context {R : Type} {SM : SessionManager R} {SO : SetOrder}.
Variable loads : string -> option pyval.

Lemma spawn_loop_verbose dry_run issues ids actions (r : R) :
  Forall (fun k => is_Some (slice_to 50 (title_of issues k))) ids ->
  let a := spawn_loop dry_run true issues ids actions r in
  let b := spawn_loop dry_run false issues ids actions r in
  result a = result b /\ registry a = registry b /\
  manager_calls (log a) = manager_calls (log b).
Proof.
  intros Ht. revert actions r.
  induction Ht as [|k ids [t Hk] _ IH]; intros actions r; simpl; [done|].
  unfold title_of in Hk. run_unfold. rewrite Hk. simpl.
  destruct dry_run; simpl.
  - destruct (IH (<[k := "would_spawn"]> actions) r) as (H1 & H2 & H3).
    rewrite H1, H2. unfold manager_calls in *. simpl. by rewrite H3.
  - destruct (spawn_session k r) as [[s|] r']; simpl.
    + destruct (IH (<[k := "spawned"]> actions) r') as (H1 & H2 & H3).
      rewrite H1, H2. unfold manager_calls in *. simpl. by rewrite H3.
    + destruct (IH (<[k := "spawn_failed"]> actions) r') as (H1 & H2 & H3).
      rewrite H1, H2. unfold manager_calls in *. simpl. by rewrite H3.
Qed.

Lemma terminate_loop_verbose dry_run ids actions (r : R) :
  let a := terminate_loop dry_run true ids actions r in
  let b := terminate_loop dry_run false ids actions r in
  result a = result b /\ registry a = registry b /\
  manager_calls (log a) = manager_calls (log b).
Proof.
  revert actions r. induction ids as [|k ids IH]; intros actions r; simpl; [done|].
  run_unfold. destruct dry_run; simpl.
  - destruct (IH (<[k := "would_terminate"]> actions) r) as (H1 & H2 & H3).
    rewrite H1, H2. unfold manager_calls in *. simpl. by rewrite H3.
  - destruct (terminate_session k r) as [[] r']; simpl.
    + destruct (IH (<[k := "terminated"]> actions) r') as (H1 & H2 & H3).
      rewrite H1, H2. unfold manager_calls in *. simpl. by rewrite H3.
    + destruct (IH (<[k := "terminate_failed"]> actions) r') as (H1 & H2 & H3).
      rewrite H1, H2. unfold manager_calls in *. simpl. by rewrite H3.
Qed.

(** Verbosity changes what a pass prints and nothing else: on a well-typed
    snapshot the verbose and the quiet pass return the same action record,
    make the same calls to the session manager in the same order and leave it
    in the same state. *)
Theorem verbose_only_prints fs dry_run (r : R) issues :
  result (load_issues loads fs r) = Ret issues ->
  well_typed issues ->
  let a := sync_sessions loads fs dry_run true r in
  let b := sync_sessions loads fs dry_run false r in
  result a = result b /\ registry a = registry b /\
  manager_calls (log a) = manager_calls (log b).
Proof.
  intros Hload Hwt. cbv zeta.
  pose proof (get_closed_beads_total _ Hwt) as Hc.
  rewrite !(sync_sessions_unfold loads _ _ _ _ _ _ Hload Hc). cbv zeta.
  destruct (spawn_loop_verbose dry_run issues
    (set_iter (get_in_progress_beads issues ∖ live_ids r)) ∅
    (list_sessions true r).2) as (H1 & H2 & H3).
  { by apply well_typed_titles. }
  assert (Hl : manager_calls (log (load_issues loads fs r)) = []).
  { by destruct (load_issues_log loads fs r) as [-> | ->]. }
  rewrite H1, H2.
  destruct (result (spawn_loop dry_run false issues _ _ _)) as [a1|e]; simpl.
  - match goal with
    | |- context [terminate_loop dry_run true ?ids ?a ?r0] =>
        destruct (terminate_loop_verbose dry_run ids a r0) as (K1 & K2 & K3)
    end.
    split_and!; [done|done|].
    unfold manager_calls in *. simpl. rewrite !omap_app. simpl.
    rewrite !omap_app. by rewrite Hl, H3, K3.
  - split_and!; [done|done|].
    unfold manager_calls in *. simpl. rewrite !omap_app. simpl.
    do 2 f_equal. exact H3.
Qed.

(** A quiet pass never reads a title: it returns on every snapshot that
    loads and classifies, whatever the titles are. *)
Theorem quiet_pass_ignores_titles fs dry_run (r : R) issues closed :
  result (load_issues loads fs r) = Ret issues ->
  get_closed_beads issues = Ret closed ->
  exists actions,
    result (sync_sessions loads fs dry_run false r) = Ret actions /\
    dom actions = (get_in_progress_beads issues ∖ live_ids r) ∪ (live_ids r ∩ closed).
Proof.
  intros Hload Hc.
  rewrite (sync_sessions_unfold loads _ _ _ _ _ _ Hload Hc). cbv zeta.
  destruct dry_run.
  - destruct (spawn_loop_dry false issues
      (set_iter (get_in_progress_beads issues ∖ live_ids r)) ∅
      (list_sessions true r).2) as (H1 & H2 & H3); [done|].
    rewrite H1. simpl.
    match goal with
    | |- context [terminate_loop true false ?ids ?a ?r0] =>
        destruct (terminate_loop_dry false ids a r0) as (K1 & K2 & K3)
    end.
    rewrite K1. eexists. split; [done|].
    rewrite !dom_record, !fst_tagged, !list_to_set_set_iter. set_solver.
  - destruct (spawn_loop_real false issues
      (set_iter (get_in_progress_beads issues ∖ live_ids r)) ∅
      (list_sessions true r).2) as (H1 & H2 & H3); [done|].
    rewrite H1. simpl.
    match goal with
    | |- context [terminate_loop false false ?ids ?a ?r0] =>
        destruct (terminate_loop_real false ids a r0) as (K1 & K2 & K3)
    end.
    rewrite K1. eexists. split; [done|].
    rewrite !dom_record, !fst_prod_map, H2, K2, !list_to_set_set_iter. set_solver.
Qed.

End pass_modes.

(** ** Two passes in a row *)

Section retry.
Context {R : Type} {SM : SessionManager R} {SO : SetOrder} {LM : LawfulManager R}.
Variable loads : string -> option pyval.

Lemma spawn_loop_live verbose issues ids actions (r : R) :
  (verbose = true -> Forall (fun k => is_Some (slice_to 50 (title_of issues k))) ids) ->
  let x := spawn_loop false verbose issues ids actions r in
  live_ids (registry x) = live_ids r ∪ list_to_set (succeeded (spawn_calls (log x))).
Proof.
  intros Ht. revert actions r. induction ids as [|k ids IH]; intros actions r; simpl.
  - set_solver.
  - assert (Hids : verbose = true ->
      Forall (fun k => is_Some (slice_to 50 (title_of issues k))) ids).
    { intros Hv. specialize (Ht Hv). by apply Forall_cons in Ht as [_ ?]. }
    specialize (IH Hids).
    destruct verbose;
      [specialize (Ht eq_refl); apply Forall_cons in Ht as [[t Hk] _];
       unfold title_of in Hk|];
      run_unfold; rewrite ?Hk; simpl;
      destruct (spawn_session k r) as [[s|] r'] eqn:Hs; simpl;
      match goal with
      | |- context [spawn_loop false _ issues ids ?a ?r0] =>
          pose proof (IH a r0) as IH1
      end;
      unfold succeeded, spawn_calls in *; simpl; rewrite IH1;
      [rewrite (spawn_adds_live _ _ _ _ Hs) | rewrite (spawn_failure_keeps_live _ _ _ Hs)
      |rewrite (spawn_adds_live _ _ _ _ Hs) | rewrite (spawn_failure_keeps_live _ _ _ Hs)];
      set_solver.
Qed.

Lemma terminate_loop_live verbose ids actions (r : R) :
  let x := terminate_loop false verbose ids actions r in
  live_ids (registry x) = live_ids r ∖ list_to_set (succeeded (terminate_calls (log x))).
Proof.
  revert actions r. induction ids as [|k ids IH]; intros actions r; simpl.
  - set_solver.
  - destruct verbose; run_unfold;
      destruct (terminate_session k r) as [[] r'] eqn:Hs; simpl;
      match goal with
      | |- context [terminate_loop false _ ids ?a ?r0] =>
          pose proof (IH a r0) as IH1
      end;
      unfold succeeded, terminate_calls in *; simpl; rewrite IH1;
      [rewrite (terminate_removes_live _ _ _ Hs)
      |rewrite (terminate_failure_keeps_live _ _ _ Hs)
      |rewrite (terminate_removes_live _ _ _ Hs)
      |rewrite (terminate_failure_keeps_live _ _ _ Hs)];
      set_solver.
Qed.

Lemma calls_split (calls : list (key * bool)) k :
  k ∈ calls.*1 <-> k ∈ succeeded calls \/ k ∈ failed calls.
Proof.
  unfold succeeded, failed.
  induction calls as [|[k' []] calls IH]; simpl.
  - split; [by intros ?%elem_of_nil|]. by intros [?%elem_of_nil|?%elem_of_nil].
  - rewrite !elem_of_cons, IH. tauto.
  - rewrite !elem_of_cons, IH. tauto.
Qed.

Lemma calls_apart (calls : list (key * bool)) k :
  NoDup calls.*1 -> k ∈ succeeded calls -> k ∈ failed calls -> False.
Proof.
  unfold succeeded, failed.
  induction calls as [|[k' []] calls IH]; simpl; intros Hnd Hs Hf.
  - by apply elem_of_nil in Hs.
  - apply NoDup_cons in Hnd as [Hk' Hnd].
    apply elem_of_cons in Hs as [-> | Hs]; [|by apply IH].
    apply Hk', calls_split. by right.
  - apply NoDup_cons in Hnd as [Hk' Hnd].
    apply elem_of_cons in Hf as [-> | Hf]; [|by apply IH].
    apply Hk', calls_split. by left.
Qed.

(** The session manager after a pass that acts: the live sessions are those
    before, with the beads spawned and without the beads terminated. *)
Lemma sync_sessions_live fs verbose (r : R) issues :
  result (load_issues loads fs r) = Ret issues ->
  well_typed issues ->
  let x := sync_sessions loads fs false verbose r in
  live_ids (registry x) =
  (live_ids r ∪ list_to_set (succeeded (spawn_calls (log x))))
  ∖ list_to_set (succeeded (terminate_calls (log x))).
Proof.
  intros Hload Hwt. cbv zeta.
  rewrite (sync_sessions_unfold loads _ _ _ _ _ _ Hload (get_closed_beads_total _ Hwt)).
  cbv zeta.
  destruct (spawn_loop_real verbose issues
    (set_iter (get_in_progress_beads issues ∖ live_ids r)) ∅
    (list_sessions true r).2) as (H1 & H2 & H3).
  { intros _. by apply well_typed_titles. }
  pose proof (spawn_loop_live verbose issues
    (set_iter (get_in_progress_beads issues ∖ live_ids r)) ∅
    (list_sessions true r).2) as HL. cbv zeta in HL.
  rewrite list_keeps_live in HL by done.
  rewrite H1. cbv zeta.
  match goal with
  | |- context [terminate_loop false verbose ?ids ?a ?r0] =>
      destruct (terminate_loop_real verbose ids a r0) as (K1 & K2 & K3);
      pose proof (terminate_loop_live verbose ids a r0) as KL;
      set (x2 := terminate_loop false verbose ids a r0) in *
  end.
  set (x1 := spawn_loop false verbose issues _ _ _) in *.
  cbv zeta in KL. cbn [registry log].
  destruct (load_issues_no_calls loads fs r) as [L1 L2].
  assert (Hs2 : spawn_calls (log x2) = []).
  { apply omap_none. eapply Forall_impl; [exact K3|].
    intros [[]| | | | |] [He|[? He]]; simpl in *; done. }
  assert (Ht1 : terminate_calls (log x1) = []).
  { apply omap_none. eapply Forall_impl; [exact H3|].
    intros [[]| | | | |] [He|[? He]]; simpl in *; done. }
  assert (Hsc : spawn_calls (EvSync false verbose :: log (load_issues loads fs r) ++
                  EvListSessions true :: log x1 ++ log x2) = spawn_calls (log x1)).
  { unfold spawn_calls in *. simpl. rewrite !omap_app. simpl.
    rewrite !omap_app, L1, Hs2. simpl. by rewrite app_nil_r. }
  assert (Htc : terminate_calls (EvSync false verbose :: log (load_issues loads fs r) ++
                  EvListSessions true :: log x1 ++ log x2) = terminate_calls (log x2)).
  { unfold terminate_calls in *. simpl. rewrite !omap_app. simpl.
    rewrite !omap_app, L2, Ht1. by simpl. }
  rewrite Hsc, Htc, KL, HL by (intros _; by apply well_typed_titles). done.
Qed.

Lemma load_issues_any_state fs (r r' : R) :
  result (load_issues loads fs r) = result (load_issues loads fs r').
Proof.
  unfold load_issues. destruct fs as [f|]; [|done].
  by destruct (read_lines _ _ _ _) as [issues [[]|]].
Qed.

(** Retry by the next pass: with a lawful session manager and the record
    file unchanged, the pass that follows a pass acts on exactly the beads
    whose spawn or terminate failed in it; when nothing failed the second pass
    does nothing (convergence in one pass). *)
Theorem second_pass_retries_failures fs verbose (r : R) issues :
  result (load_issues loads fs r) = Ret issues ->
  well_typed issues ->
  let x1 := sync_sessions loads fs false verbose r in
  let x2 := sync_sessions loads fs false verbose (registry x1) in
  exists actions2,
    result x2 = Ret actions2 /\
    dom actions2 = list_to_set (failed (spawn_calls (log x1))) ∪
                   list_to_set (failed (terminate_calls (log x1))) /\
    (failed (spawn_calls (log x1)) = [] ->
     failed (terminate_calls (log x1)) = [] ->
     actions2 = ∅ /\ spawn_calls (log x2) = [] /\ terminate_calls (log x2) = []).
Proof.
  intros Hload Hwt. cbv zeta.
  set (x1 := sync_sessions loads fs false verbose r).
  assert (Hload2 : result (load_issues loads fs (registry x1)) = Ret issues).
  { by rewrite (load_issues_any_state fs (registry x1) r). }
  destruct (sync_sessions_real loads fs verbose r issues Hload Hwt) as (_ & HS & HT).
  fold x1 in HS, HT.
  pose proof (sync_sessions_live fs verbose r issues Hload Hwt) as Hlive.
  cbv zeta in Hlive. fold x1 in Hlive.
  destruct (pass_outcomes loads fs false verbose (registry x1) issues Hload2 Hwt)
    as (actions2 & Hres & Hdom & _).
  destruct (sync_sessions_real loads fs verbose (registry x1) issues Hload2 Hwt)
    as (_ & HS2 & HT2).
  pose proof (active_inactive_disjoint issues) as Hdisj.
  assert (Hs : forall k, k ∈ get_in_progress_beads issues ∖ live_ids r <->
                 k ∈ succeeded (spawn_calls (log x1)) \/ k ∈ failed (spawn_calls (log x1))).
  { intros k. by rewrite <- calls_split, HS, elem_of_set_iter. }
  assert (Ht : forall k, k ∈ live_ids r ∩ InactiveSet issues <->
                 k ∈ succeeded (terminate_calls (log x1)) \/
                 k ∈ failed (terminate_calls (log x1))).
  { intros k. by rewrite <- calls_split, HT, elem_of_set_iter. }
  assert (Hsa : forall k, k ∈ succeeded (spawn_calls (log x1)) ->
                  k ∈ failed (spawn_calls (log x1)) -> False).
  { intros k. apply calls_apart. rewrite HS. apply NoDup_set_iter. }
  assert (Hta : forall k, k ∈ succeeded (terminate_calls (log x1)) ->
                  k ∈ failed (terminate_calls (log x1)) -> False).
  { intros k. apply calls_apart. rewrite HT. apply NoDup_set_iter. }
  assert (Hdom2 : dom actions2 = list_to_set (failed (spawn_calls (log x1))) ∪
                                 list_to_set (failed (terminate_calls (log x1)))).
  { rewrite Hdom. unfold needSpawn, needTerminate. rewrite Hlive.
    apply set_eq. intros k. specialize (Hs k). specialize (Ht k).
    specialize (Hsa k). specialize (Hta k). specialize (Hdisj k).
    rewrite !elem_of_union, !elem_of_difference, !elem_of_intersection,
      !elem_of_union, !elem_of_difference, !elem_of_list_to_set in *.
    rewrite ?elem_of_union, ?elem_of_list_to_set.
    destruct (decide (k ∈ live_ids r)),
      (decide (k ∈ succeeded (spawn_calls (log x1)))),
      (decide (k ∈ succeeded (terminate_calls (log x1)))); tauto. }
  exists actions2. split_and!; [done|done|].
  intros Hf1 Hf2. rewrite Hf1, Hf2 in Hdom2.
  assert (Ha : actions2 = ∅).
  { apply dom_empty_iff_L. rewrite Hdom2. set_solver. }
  split; [done|]. subst actions2. rewrite dom_empty_L in Hdom.
  unfold needSpawn, needTerminate in *.
  assert (H1 : get_in_progress_beads issues ∖ live_ids (registry x1) = ∅) by set_solver.
  assert (H2 : live_ids (registry x1) ∩ InactiveSet issues = ∅) by set_solver.
  rewrite H1, set_iter_empty in HS2. rewrite H2, set_iter_empty in HT2.
  by apply fmap_nil_inv in HS2, HT2.
Qed.

End retry.

(** ** The watch loop over any ticks *)

Section watch_more.
Context {R : Type} {SM : SessionManager R} {SO : SetOrder}.
Variable loads : string -> option pyval.

Lemma try_except_log {A : Type} (P : event -> Prop) (m : M A) e (h : M A) (r : R) :
  Forall P (log (m r)) -> (forall r', Forall P (log (h r'))) ->
  Forall P (log (try_except m e h r)).
Proof.
  intros Hm Hh. unfold try_except. destruct (result (m r)); [done|].
  destruct (bool_decide _); [|done]. simpl. apply Forall_app. by split.
Qed.

Lemma spawn_loop_dry_harmless verbose issues ids actions (r : R) :
  Forall harmless (log (spawn_loop true verbose issues ids actions r)).
Proof.
  revert actions r. induction ids as [|k ids IH]; intros actions r; simpl; [done|].
  apply bind_log.
  - destruct verbose; [|done]. destruct (slice_to _ _); [|done]. by repeat constructor.
  - intros _ r1. apply bind_log; [done|]. intros; apply IH.
Qed.

Lemma terminate_loop_dry_harmless verbose ids actions (r : R) :
  Forall harmless (log (terminate_loop true verbose ids actions r)).
Proof.
  revert actions r. induction ids as [|k ids IH]; intros actions r; simpl; [done|].
  apply bind_log.
  - destruct verbose; [|done]. by repeat constructor.
  - intros _ r1. apply bind_log; [done|]. intros; apply IH.
Qed.

Lemma sync_sessions_dry_harmless fs verbose (r : R) :
  Forall harmless (log (sync_sessions loads fs true verbose r)).
Proof.
  unfold sync_sessions. apply bind_log; [by repeat constructor|]. intros _ r0.
  apply bind_log.
  - destruct (load_issues_log loads fs r0) as [-> | ->]; by repeat constructor.
  - intros issues r1. apply bind_log; [done|]. intros closed r2.
    apply bind_log.
    + unfold call_list_sessions. destruct (list_sessions true r2).
      by repeat constructor.
    + intros sessions r3. apply bind_log; [apply spawn_loop_dry_harmless|].
      intros a1 r4. apply bind_log; [apply terminate_loop_dry_harmless|]. done.
Qed.

Lemma watch_tick_dry_harmless verbose fs last_mtime (r : R) :
  Forall harmless (log (watch_tick loads true verbose fs last_mtime r)).
Proof.
  unfold watch_tick. destruct fs as [f|]; [|done].
  destruct (f_mtime f >? last_mtime); [|done].
  apply bind_log; [destruct (last_mtime >? 0); by repeat constructor|].
  intros _ r0. apply bind_log; [apply sync_sessions_dry_harmless|].
  intros actions r1. apply bind_log; [|done].
  destruct (bool_decide _); by repeat constructor.
Qed.

Lemma harmless_no_calls l :
  Forall harmless l -> spawn_calls l = [] /\ terminate_calls l = [].
Proof.
  intros H. split; apply omap_none; (eapply Forall_impl; [exact H|]); by intros e [? ?].
Qed.

(** A dry-run watch never spawns and never terminates, whatever files the
    ticks bring and however the run ends. *)
Theorem dry_watch_never_acts verbose ticks (r : R) :
  spawn_calls (log (watch_loop loads true verbose ticks r)) = [] /\
  terminate_calls (log (watch_loop loads true verbose ticks r)) = [].
Proof.
  apply harmless_no_calls. unfold watch_loop.
  repeat (apply bind_log; [by repeat constructor|]; intros _ ?).
  apply try_except_log; [|by repeat constructor].
  generalize 0 as last_mtime.
  match goal with |- forall _, Forall _ (log (watch_ticks _ _ _ _ _ ?r0)) => revert r0 end.
  induction ticks as [|fs ticks IH]; intros r0 last_mtime; simpl; [done|].
  apply bind_log; [apply watch_tick_dry_harmless|]. intros last r1.
  apply bind_log; [by repeat constructor|]. intros _ r2. apply IH.
Qed.

Lemma changed_count_app l1 l2 :
  changed_count (l1 ++ l2) = (changed_count l1 + changed_count l2)%nat.
Proof. unfold changed_count. by rewrite filter_app, length_app. Qed.

Lemma changed_count_quiet l : Forall quiet l -> changed_count l = 0%nat.
Proof.
  unfold changed_count. induction 1 as [|e l [_ He] _ IH]; [done|].
  rewrite filter_cons. destruct (decide _) as [Hd|_]; [congruence|done].
Qed.

Lemma watch_tick_raises_only dry_run verbose fs last_mtime :
  raises_only type_or_attribute (watch_tick (R:=R) loads dry_run verbose fs last_mtime).
Proof.
  unfold watch_tick. destruct fs as [f|]; [|apply raises_only_ret].
  destruct (f_mtime f >? last_mtime); [|apply raises_only_ret].
  apply raises_only_bind; [destruct (last_mtime >? 0); by intros r e|]. intros _.
  apply raises_only_bind; [apply sync_sessions_raises_only|]. intros actions.
  apply raises_only_bind; [destruct (bool_decide _); by intros r e|]. intros _.
  apply raises_only_ret.
Qed.

(** The loop body over the ticks, from any time stamp held. *)
Lemma watch_ticks_run dry_run verbose ticks last_mtime (r : R) :
  0 <= last_mtime ->
  let x := watch_ticks loads dry_run verbose ticks last_mtime r in
  (exists e, result x = Raise e /\ (e = KeyboardInterrupt \/ type_or_attribute e)) /\
  (sync_count (log x) <= rises ticks last_mtime)%nat /\
  (result x = Raise KeyboardInterrupt ->
   sync_count (log x) = rises ticks last_mtime) /\
  changed_count (log x) =
    (if last_mtime >? 0 then sync_count (log x) else sync_count (log x) - 1)%nat.
Proof.
  revert last_mtime r. induction ticks as [|fs ticks IH]; intros last_mtime r Hlast.
  - cbv zeta. simpl. split_and!; [by eexists; split; [|left]|done|done|].
    by destruct (last_mtime >? 0).
  - cbv zeta. cbn [watch_ticks]. rewrite bind_run.
    assert (Hcase : unchanged last_mtime fs \/
                    exists f, fs = Some f /\ last_mtime < f_mtime f).
    { destruct fs as [f|]; simpl; [|by left].
      destruct (decide (f_mtime f <= last_mtime)); [by left|].
      right. exists f. split; [done|lia]. }
    destruct Hcase as [Hu | (f & -> & Hf)].
    + rewrite watch_tick_unchanged by done. cbn [result registry log].
      rewrite emit_bind. cbn [result registry log app].
      destruct (IH last_mtime r Hlast) as (H1 & H2 & H3 & H4).
      assert (Hr : rises (fs :: ticks) last_mtime = rises ticks last_mtime).
      { destruct fs as [f|]; simpl in *; [|done].
        rewrite Z.gtb_ltb. by rewrite (proj2 (Z.ltb_ge _ _) Hu). }
      rewrite Hr.
      change (EvSleep WATCH_INTERVAL :: ?l) with ([EvSleep WATCH_INTERVAL] ++ l).
      rewrite sync_count_app, changed_count_app.
      rewrite (sync_count_quiet [_]), (changed_count_quiet [_]) by by repeat constructor.
      simpl. done.
    + destruct (watch_tick_changed loads dry_run verbose f last_mtime r Hf)
        as (tail & Hlog & Hq & Hres).
      pose proof (watch_tick_raises_only dry_run verbose (Some f) last_mtime r) as Hexn.
      assert (Hrise : rises (Some f :: ticks) last_mtime = S (rises ticks (f_mtime f))).
      { simpl. by rewrite (proj2 (Z.gtb_lt _ _) Hf). }
      rewrite Hrise.
      assert (Hhead : sync_count (log (watch_tick loads dry_run verbose (Some f) last_mtime r))
                        = 1%nat /\
                      changed_count (log (watch_tick loads dry_run verbose (Some f)
                                            last_mtime r))
                        = (if last_mtime >? 0 then 1 else 0)%nat).
      { rewrite Hlog.
        change (EvSync dry_run verbose :: tail) with ([EvSync dry_run verbose] ++ tail).
        rewrite !sync_count_app, !changed_count_app.
        rewrite (sync_count_quiet tail), (changed_count_quiet tail) by done.
        destruct (last_mtime >? 0); by simpl. }
      destruct Hhead as [Hsc Hcc].
      destruct (watch_tick loads dry_run verbose (Some f) last_mtime r)
        as [[last'|e] r1 l1]; cbn [result registry log] in *.
      * rewrite (Hres last' eq_refl). rewrite emit_bind. cbn [result registry log].
        destruct (IH (f_mtime f) r1) as (H1 & H2 & H3 & H4); [lia|].
        rewrite (proj2 (Z.gtb_lt (f_mtime f) 0)) in H4 by lia.
        change (EvSleep WATCH_INTERVAL :: ?l) with ([EvSleep WATCH_INTERVAL] ++ l).
        rewrite !sync_count_app, !changed_count_app, Hsc, Hcc.
        rewrite (sync_count_quiet [_]), (changed_count_quiet [_]) by by repeat constructor.
        rewrite H4. split_and!; [done|simpl; lia|intros Hk; rewrite (H3 Hk); by simpl|].
        destruct (last_mtime >? 0); simpl; lia.
      * specialize (Hexn e eq_refl). rewrite Hsc, Hcc. split_and!.
        -- exists e. split; [done|by right].
        -- lia.
        -- intros [= ->]. by destruct Hexn.
        -- by destruct (last_mtime >? 0).
Qed.






(** How often a watch reconciles: once at each tick that finds the record
    file with a modification time above every one it acted on before (and
    above 0), as long as no pass raises; a change that does not raise the
    modification time is not seen.  Every pass but the first is announced by
    one "changed" notice. *)
Theorem watch_loop_passes dry_run verbose ticks (r : R) :
  let x := watch_loop loads dry_run verbose ticks r in
  (sync_count (log x) <= rises ticks 0)%nat /\
  changed_count (log x) = (sync_count (log x) - 1)%nat /\
  (result x = Ret tt -> sync_count (log x) = rises ticks 0).
Proof.
  cbv zeta. unfold watch_loop.
  repeat (rewrite print_bind; cbn [log result registry]).
  destruct (watch_ticks_run dry_run verbose ticks 0 r) as ((e & He & Hk) & H2 & H3 & H4);
    [done|].
  change (0 >? 0) with false in H4. cbv iota in H4.
  set (banner := [EvPrint MsgStarted; EvPrint MsgProjectRoot; EvPrint MsgIssuesFile;
                  EvPrint MsgSessionsDir; EvPrint (MsgDryRun dry_run); EvPrint MsgBlank]).
  assert (Hb : Forall quiet banner) by by repeat constructor.
  assert (Hshape : exists tail,
    Forall quiet tail /\
    log (try_except (watch_ticks loads dry_run verbose ticks 0) KeyboardInterrupt
           (print MsgStopped) r) =
    log (watch_ticks loads dry_run verbose ticks 0 r) ++ tail /\
    (result (try_except (watch_ticks loads dry_run verbose ticks 0) KeyboardInterrupt
               (print MsgStopped) r) = Ret tt -> e = KeyboardInterrupt)).
  { unfold try_except. rewrite He. destruct (bool_decide (e = KeyboardInterrupt)) eqn:Hd.
    - exists [EvPrint MsgStopped]. split_and!; [by repeat constructor|done|].
      intros _. by apply bool_decide_eq_true in Hd.
    - exists []. rewrite He. split_and!; [done|by rewrite app_nil_r|done]. }
  destruct Hshape as (tail & Hq & Hlog & Hres).
  change (?a :: ?b :: ?c :: ?d :: ?f :: ?g :: ?l) with ([a; b; c; d; f; g] ++ l).
  fold banner. rewrite Hlog.
  rewrite !sync_count_app, !changed_count_app.
  rewrite (sync_count_quiet banner), (changed_count_quiet banner) by done.
  rewrite (sync_count_quiet tail), (changed_count_quiet tail) by done.
  rewrite H4. split_and!; [lia|lia|].
  intros Hr. rewrite (H3 (eq_trans He (f_equal Raise (Hres Hr)))). lia.
Qed.

End watch_more.

(** ** The loader keeps every record *)

Section loader_more.
Context {R : Type}.
Variable loads : string -> option pyval.

Lemma read_lines_dom lines fault issues :
  Forall (fun line => line_error loads line = None) lines ->
  dom (read_lines loads lines fault issues).1 =
  dom issues ∪ list_to_set (omap (record_of loads) lines).*1.
Proof.
  intros H. revert issues. induction H as [|l lines Hl _ IH]; intros issues.
  - simpl. set_solver.
  - rewrite read_lines_cons, Hl, IH. simpl.
    destruct (record_of loads l) as [[k issue]|]; simpl; [|done].
    rewrite dom_insert_L. set_solver.
Qed.

(** No record is lost: on a loadable file the ids of the snapshot are
    exactly the ids of the records on its lines, so the snapshot has one
    entry for each id that occurs, however often it occurs. *)
Theorem load_issues_keeps_every_id fs (r : R) :
  loadable loads fs ->
  exists issues,
    result (load_issues loads fs r) = Ret issues /\
    forall id, id ∈ dom issues <->
               exists line issue, line ∈ file_lines fs /\
                                  record_of loads line = Some (id, issue).
Proof.
  intros Hok. exists (read_lines loads (file_lines fs) false ∅).1.
  split; [by apply load_issues_returns|]. intros id.
  rewrite read_lines_dom by done.
  rewrite dom_empty_L, elem_of_union, elem_of_list_to_set, list_elem_of_fmap. split.
  - intros [Hin | ([k issue] & -> & Hin)]; [by apply not_elem_of_empty in Hin|]. apply list_elem_of_omap in Hin as (line & Hin & Hrec).
    by exists line, issue.
  - intros (line & issue & Hin & Hrec). right. exists (id, issue). split; [done|].
    apply list_elem_of_omap. by exists line.
Qed.

End loader_more.

(** ** [sorted] on ids *)

Lemma key_le_total a b : key_le a b \/ key_le b a.
Proof.
  destruct a as [|m|s], b as [|n|t]; simpl; try tauto.
  - lia.
  - apply String.leb_total.
Qed.

Lemma le_by_total {A : Type} (id_of : A -> key) : Total (le_by id_of).
Proof. intros x y. apply key_le_total. Qed.

Lemma py_sorted_Ret {A : Type} (id_of : A -> key) (l l' : list A) :
  py_sorted id_of l = Ret l' -> l' ≡ₚ l /\ Sorted (le_by id_of) l'.
Proof.
  unfold py_sorted. destruct l as [|x [|y l]].
  - intros [= <-]. split; [done|constructor].
  - intros [= <-]. split; [done|]. by repeat constructor.
  - destruct (_ || _); [|done]. intros [= <-]. split.
    + apply merge_sort_Permutation.
    + pose proof (le_by_total id_of). apply (Sorted_merge_sort (le_by id_of)).
Qed.

Lemma py_sorted_Raise {A : Type} (id_of : A -> key) (l : list A) e :
  py_sorted id_of l = Raise e -> e = TypeError.
Proof.
  unfold py_sorted. destruct l as [|x [|y l]]; try done.
  destruct (_ || _); [done|]. by intros [= <-].
Qed.

(** Ids of one kind can be sorted. *)
Lemma py_sorted_same_kind {A : Type} (id_of : A -> key) (l : list A) :
  Forall (fun x => is_int (id_of x) = true) l \/
  Forall (fun x => is_str (id_of x) = true) l ->
  exists l', py_sorted id_of l = Ret l'.
Proof.
  intros H. unfold py_sorted. destruct l as [|x [|y l]]; [by eexists..|].
  assert (Hb : forallb (fun x => is_int (id_of x)) (x :: y :: l)
               || forallb (fun x => is_str (id_of x)) (x :: y :: l) = true).
  { apply orb_true_iff. destruct H as [H|H]; [left|right];
      apply forallb_forall; intros z Hz; apply list_elem_of_In in Hz;
      by apply (proj1 (Forall_forall _ _) H). }
  rewrite Hb. by eexists.
Qed.

(** An integer id and a string id cannot be compared. *)
Lemma py_sorted_mixed {A : Type} (id_of : A -> key) (l : list A) x y :
  x ∈ l -> y ∈ l -> is_int (id_of x) = true -> is_str (id_of y) = true ->
  py_sorted id_of l = Raise TypeError.
Proof.
  intros Hx Hy Hix Hsy. unfold py_sorted.
  destruct l as [|a [|b l]].
  - by apply elem_of_nil in Hx.
  - apply list_elem_of_singleton in Hx, Hy. subst.
    destruct (id_of a); done.
  - assert (H1 : forallb (fun z => is_int (id_of z)) (a :: b :: l) = false).
    { apply not_true_is_false. intros H. rewrite forallb_forall in H.
      apply list_elem_of_In in Hy. specialize (H y Hy). destruct (id_of y); done. }
    assert (H2 : forallb (fun z => is_str (id_of z)) (a :: b :: l) = false).
    { apply not_true_is_false. intros H. rewrite forallb_forall in H.
      apply list_elem_of_In in Hx. specialize (H x Hx). destruct (id_of x); done. }
    by rewrite H1, H2.
Qed.

(** ** The commands *)

Section command_facts.
Context {R : Type} {SM : SessionManager R} {SO : SetOrder} {SL : SessionListing R}.
Variable loads : string -> option pyval.

Lemma xbind_run {A B : Type} (m : X A) (f : A -> X B) (r : R) :
  (m ≫= f) r =
  match xresult (m r) with
  | Ret a => xpre (xlog (m r)) (f a (xregistry (m r)))
  | Raise e => XRun (Raise e) (xregistry (m r)) (xlog (m r))
  end.
Proof. done. Qed.

Lemma say_bind {B : Type} (l : line) (f : unit -> X B) (r : R) :
  (say l ≫= f) r = xpre [Report l] (f tt r).
Proof. done. Qed.

Lemma xret_bind {A B : Type} (a : A) (f : A -> X B) (r : R) :
  (mret a ≫= f) r = xpre [] (f a r).
Proof. done. Qed.

Lemma xlift_bind {A B : Type} (a : A) (f : A -> X B) (r : R) :
  (xlift (Ret a) ≫= f) r = xpre [] (f a r).
Proof. done. Qed.

Lemma xlift_bind_raise {A B : Type} e (f : A -> X B) (r : R) :
  (xlift (Raise e) ≫= f) r = XRun (Raise e) r [].
Proof. done. Qed.

Lemma daemon_bind {A B : Type} (m : M A) (f : A -> X B) (r : R) a :
  result (m r) = Ret a ->
  (daemon m ≫= f) r = xpre (Daemon <$> log (m r)) (f a (registry (m r))).
Proof. intros H. rewrite xbind_run. unfold daemon. cbn [xresult xregistry xlog]. by rewrite H. Qed.

Lemma daemon_bind_raise {A B : Type} (m : M A) (f : A -> X B) (r : R) e :
  result (m r) = Raise e ->
  (daemon m ≫= f) r = XRun (Raise e) (registry (m r)) (Daemon <$> log (m r)).
Proof. intros H. rewrite xbind_run. unfold daemon. cbn [xresult xregistry xlog]. by rewrite H. Qed.

Lemma xpre_run {A : Type} l (o : outcome A) (r : R) l' :
  xpre l (XRun o r l') = XRun o r (l ++ l').
Proof. done. Qed.

Lemma xpre_xpre {A : Type} l1 l2 (x : xrun (R:=R) A) :
  xpre l1 (xpre l2 x) = xpre (l1 ++ l2) x.
Proof. unfold xpre. cbn [xresult xregistry xlog]. by rewrite app_assoc. Qed.

Lemma xbind_Ret {A B : Type} (m : X A) (f : A -> X B) (r : R) b :
  xresult ((m ≫= f) r) = Ret b ->
  exists a, xresult (m r) = Ret a /\ xresult (f a (xregistry (m r))) = Ret b.
Proof.
  rewrite xbind_run. destruct (xresult (m r)) as [a|e]; [|done]. by exists a.
Qed.

Lemma daemon_events_daemon (l : list event) : daemon_events (Daemon <$> l) = l.
Proof. induction l as [|e l IH]; simpl; [done|]. unfold daemon_events in *. simpl. by f_equal. Qed.

Lemma report_lines_daemon (l : list event) : report_lines (Daemon <$> l) = [].
Proof. by induction l. Qed.

Lemma daemon_events_report (l : list line) : daemon_events (Report <$> l) = [].
Proof. by induction l. Qed.

Lemma report_lines_report (l : list line) : report_lines (Report <$> l) = l.
Proof. induction l as [|e l IH]; simpl; [done|]. unfold report_lines in *. simpl. by f_equal. Qed.

Lemma summary_loop_run items (r : R) :
  summary_loop items r =
  XRun (Ret tt) r (Report <$> ((fun i : key * string => LnAction i.1 i.2) <$> items)).
Proof.
  induction items as [|[k a] items IH]; [done|].
  cbn [summary_loop]. by rewrite say_bind, IH.
Qed.

Lemma daemon_events_app l1 l2 :
  daemon_events (l1 ++ l2) = daemon_events l1 ++ daemon_events l2.
Proof. apply omap_app. Qed.

Lemma report_lines_app l1 l2 :
  report_lines (l1 ++ l2) = report_lines l1 ++ report_lines l2.
Proof. apply omap_app. Qed.

Lemma daemon_events_cons_report l t : daemon_events (Report l :: t) = daemon_events t.
Proof. done. Qed.

Lemma report_lines_cons_report l t : report_lines (Report l :: t) = l :: report_lines t.
Proof. done. Qed.

Lemma daemon_events_cons_list t : daemon_events (ListAll :: t) = daemon_events t.
Proof. done. Qed.

Lemma report_lines_cons_list t : report_lines (ListAll :: t) = report_lines t.
Proof. done. Qed.

Lemma daemon_events_nil : daemon_events [] = [].
Proof. done. Qed.

Lemma report_lines_nil : report_lines [] = [].
Proof. done. Qed.

Hint Rewrite daemon_events_app report_lines_app daemon_events_cons_report
  report_lines_cons_report daemon_events_cons_list report_lines_cons_list
  daemon_events_nil report_lines_nil
  daemon_events_daemon report_lines_daemon daemon_events_report report_lines_report
  app_nil_r : outputs.

(** The run of [one_shot] after a pass that returns. *)
Lemma one_shot_run fs dry_run verbose (r : R) actions items :
  result (sync_sessions loads fs dry_run verbose r) = Ret actions ->
  (actions <> ∅ -> py_sorted fst (map_to_list actions) = Ret items) ->
  one_shot loads fs dry_run verbose r =
  XRun (Ret (size actions)) (registry (sync_sessions loads fs dry_run verbose r))
       ([Report LnOneShot; Report LnBlank] ++
        (Daemon <$> log (sync_sessions loads fs dry_run verbose r)) ++
        (if bool_decide (actions = ∅) then [Report LnNoActions]
         else [Report LnBlank; Report LnSummary] ++
              (Report <$> ((fun i : key * string => LnAction i.1 i.2) <$> items)))).
Proof.
  intros Hres Hsort. unfold one_shot.
  rewrite !say_bind, (daemon_bind _ _ _ _ Hres), xbind_run.
  destruct (bool_decide (actions = ∅)) eqn:Hempty.
  - unfold say, xpre. cbn [xresult xregistry xlog mret X_ret]. by rewrite ?app_nil_r.
  - apply bool_decide_eq_false in Hempty. specialize (Hsort Hempty).
    rewrite !say_bind, Hsort, xlift_bind, summary_loop_run.
    unfold xpre. cbn [xresult xregistry xlog mret X_ret app]. by rewrite ?app_nil_r.
Qed.

(** [one_shot] when the ids acted on can be sorted: it returns the number of
    actions of its pass and leaves the session manager as the pass left it;
    after the two header lines and the events of the pass it prints "no
    actions" for an empty record, and otherwise the summary, one line for each
    action, in the order of the ids. *)
Theorem one_shot_summary fs dry_run verbose (r : R) actions :
  result (sync_sessions loads fs dry_run verbose r) = Ret actions ->
  Forall (fun i => is_int i.1 = true) (map_to_list actions) \/
  Forall (fun i => is_str i.1 = true) (map_to_list actions) ->
  let x := one_shot loads fs dry_run verbose r in
  xresult x = Ret (size actions) /\
  xregistry x = registry (sync_sessions loads fs dry_run verbose r) /\
  daemon_events (xlog x) = log (sync_sessions loads fs dry_run verbose r) /\
  exists items,
    items ≡ₚ map_to_list actions /\
    Sorted (le_by fst) items /\
    report_lines (xlog x) =
      [LnOneShot; LnBlank] ++
      (if bool_decide (actions = ∅) then [LnNoActions]
       else [LnBlank; LnSummary] ++ ((fun i : key * string => LnAction i.1 i.2) <$> items)).
Proof.
  intros Hres Hkind. cbv zeta.
  destruct (py_sorted_same_kind fst (map_to_list actions) Hkind) as [items Hsort].
  destruct (py_sorted_Ret _ _ _ Hsort) as [Hperm Hsorted].
  rewrite (one_shot_run fs dry_run verbose r actions items Hres (fun _ => Hsort)).
  cbn [xresult xregistry xlog].
  split_and!; [done|done| |].
  - destruct (bool_decide (actions = ∅)); by autorewrite with outputs.
  - exists items. split_and!; [done|done|].
    destruct (bool_decide (actions = ∅)); by autorewrite with outputs.
Qed.

(** [one_shot] when the ids acted on mix integers and strings: the pass has
    acted, and then [sorted] raises [TypeError] before any line of the
    summary is printed. *)
Theorem one_shot_mixed_ids fs dry_run verbose (r : R) actions id1 id2 :
  result (sync_sessions loads fs dry_run verbose r) = Ret actions ->
  id1 ∈ dom actions -> id2 ∈ dom actions ->
  is_int id1 = true -> is_str id2 = true ->
  let x := one_shot loads fs dry_run verbose r in
  xresult x = Raise TypeError /\
  xregistry x = registry (sync_sessions loads fs dry_run verbose r) /\
  daemon_events (xlog x) = log (sync_sessions loads fs dry_run verbose r) /\
  report_lines (xlog x) = [LnOneShot; LnBlank; LnBlank; LnSummary].
Proof.
  intros Hres [a1 H1]%elem_of_dom [a2 H2]%elem_of_dom Hi Hs. cbv zeta.
  assert (Hsort : py_sorted fst (map_to_list actions) = Raise TypeError).
  { apply (py_sorted_mixed fst _ (id1, a1) (id2, a2));
      try done; by apply elem_of_map_to_list. }
  assert (Hne : bool_decide (actions = ∅) = false).
  { apply bool_decide_eq_false. intros ->. by rewrite lookup_empty in H1. }
  unfold one_shot.
  rewrite !say_bind, (daemon_bind _ _ _ _ Hres), xbind_run, Hne.
  rewrite !say_bind, Hsort, xlift_bind_raise.
  unfold xpre. cbn [xresult xregistry xlog].
  split_and!; [done|done| |]; by autorewrite with outputs.
Qed.

(** The exit status: every command that ends without exception exits with
    status 0; for [sync] this holds whatever the outcomes of the actions
    were, the test on the count never fails. *)
Theorem main_exit_status cmd fs ticks (r : R) status :
  xresult (main loads cmd fs ticks r) = Ret status -> status = 0.
Proof.
  unfold main. destruct cmd as [d q|d q| |].
  - intros (a & _ & H)%xbind_Ret. by injection H as <-.
  - intros (n & _ & H)%xbind_Ret. injection H as <-.
    by rewrite (proj2 (Z.geb_le _ _)) by lia.
  - intros (a & _ & H)%xbind_Ret. by injection H as <-.
  - intros (a & _ & H)%xbind_Ret. by injection H as <-.
Qed.

Lemma reads_only_bind {A B : Type} (m : X A) (f : A -> X B) :
  reads_only m -> (forall a, reads_only (f a)) -> reads_only (R:=R) (m ≫= f).
Proof.
  intros Hm Hf r. rewrite xbind_run. destruct (xresult (m r)); [|apply Hm].
  unfold xpre. cbn [xlog]. apply Forall_app. split; [apply Hm|apply Hf].
Qed.

Lemma keeps_bind {A B : Type} (m : X A) (f : A -> X B) :
  keeps m -> (forall a, keeps (f a)) -> keeps (R:=R) (m ≫= f).
Proof.
  intros Hm Hf r. rewrite xbind_run. destruct (xresult (m r)); [|apply Hm].
  unfold xpre. cbn [xregistry]. by rewrite Hf, Hm.
Qed.

Lemma lists_bind_l {A B : Type} (m : X A) (f : A -> X B) :
  keeps m -> (forall a, lists_at_most (f a)) -> lists_at_most (R:=R) (m ≫= f).
Proof.
  intros Hm Hf r. rewrite xbind_run. destruct (xresult (m r)); [|left; apply Hm].
  unfold xpre. cbn [xregistry]. rewrite Hm. apply Hf.
Qed.

Lemma lists_bind_r {A B : Type} (m : X A) (f : A -> X B) :
  lists_at_most m -> (forall a, keeps (f a)) -> lists_at_most (R:=R) (m ≫= f).
Proof.
  intros Hm Hf r. rewrite xbind_run. destruct (xresult (m r)); [|apply Hm].
  unfold xpre. cbn [xregistry]. rewrite Hf. apply Hm.
Qed.

Lemma reads_only_say l : reads_only (R:=R) (say l).
Proof. intros r. by repeat constructor. Qed.

Lemma bead_loop_step issues ids :
  reads_only (R:=R) (bead_loop issues ids) /\ keeps (R:=R) (bead_loop issues ids).
Proof.
  induction ids as [|k ids [IH1 IH2]]; [by split; intros r|]. cbn [bead_loop]. split.
  - apply reads_only_bind; [|done].
    destruct (slice_to _ _); [apply reads_only_say|by intros r].
  - apply keeps_bind; [by destruct (slice_to _ _)|done].
Qed.

Lemma session_loop_step active :
  reads_only (R:=R) (session_loop active) /\ keeps (R:=R) (session_loop active).
Proof.
  induction active as [|s active [IH1 IH2]]; [by split; intros r|].
  cbn [session_loop]. split.
  - apply reads_only_bind; [|done].
    destruct (slice_to _ _); [apply reads_only_say|by intros r].
  - apply keeps_bind; [by destruct (slice_to _ _)|done].
Qed.

Lemma id_loop_run ids (r : R) :
  id_loop ids r = XRun (Ret tt) r (Report <$> (LnId <$> ids)).
Proof.
  induction ids as [|k ids IH]; [done|]. cbn [id_loop]. by rewrite say_bind, IH.
Qed.

Lemma id_loop_step ids :
  reads_only (R:=R) (id_loop ids) /\ keeps (R:=R) (id_loop ids).
Proof.
  split; intros r; rewrite id_loop_run; cbn [xlog xregistry]; [|done].
  apply Forall_fmap, Forall_fmap, Forall_forall. by intros.
Qed.

Lemma read_only_events l :
  Forall read_only_output l ->
  Forall (fun e => e = EvPrint MsgReadError) (daemon_events l).
Proof.
  induction 1 as [|o l Ho _ IH]; [done|].
  destruct o as [e| |]; cbn; [|done|done].
  unfold daemon_events in *. cbn. constructor; [|done].
  destruct e as [[]| | | | |]; done.
Qed.

(** [status_report] only reads: of the daemon it prints at most the read
    error of the loader; it runs no pass, spawns nothing and terminates
    nothing, also when it raises; and it leaves the session manager as it was
    or as its one listing left it. *)
Theorem status_report_read_only fs (r : R) :
  let x := status_report loads fs r in
  Forall read_only_output (xlog x) /\
  spawn_calls (daemon_events (xlog x)) = [] /\
  terminate_calls (daemon_events (xlog x)) = [] /\
  sync_count (daemon_events (xlog x)) = 0%nat /\
  (xregistry x = r \/ xregistry x = (list_all_sessions r).2).
Proof.
  cbv zeta.
  assert (Hlog : reads_only (R:=R) (status_report loads fs)).
  { unfold status_report.
    do 2 (apply reads_only_bind; [apply reads_only_say|]; intros _).
    apply reads_only_bind.
    { intros r0. unfold daemon. cbn [xlog].
      destruct (load_issues_log loads fs r0) as [-> | ->]; by repeat constructor. }
    intros issues. cbv zeta.
    apply reads_only_bind; [apply reads_only_say|]. intros _.
    apply reads_only_bind; [by intros r0|]. intros ids.
    apply reads_only_bind; [apply bead_loop_step|]. intros _.
    apply reads_only_bind; [apply reads_only_say|]. intros _.
    apply reads_only_bind; [intros r0; by repeat constructor|]. intros sessions.
    apply reads_only_bind; [apply reads_only_say|]. intros _.
    apply reads_only_bind; [apply session_loop_step|]. intros _.
    do 4 (apply reads_only_bind; [apply reads_only_say|]; intros _).
    apply reads_only_bind.
    { destruct (bool_decide _); [by intros r0|].
      apply reads_only_bind; [apply reads_only_say|]. intros _. apply id_loop_step. }
    intros _. apply reads_only_bind.
    { destruct (bool_decide _); [by intros r0|].
      apply reads_only_bind; [apply reads_only_say|]. intros _. apply id_loop_step. }
    intros _. destruct (_ && _); [apply reads_only_say|by intros r0]. }
  assert (Hreg : lists_at_most (R:=R) (status_report loads fs)).
  { unfold status_report.
    do 2 (apply lists_bind_l; [done|]; intros _).
    apply lists_bind_l.
    { intros r0. unfold daemon. cbn [xregistry]. apply load_issues_registry. }
    intros issues. cbv zeta.
    apply lists_bind_l; [done|]. intros _.
    apply lists_bind_l; [done|]. intros ids.
    apply lists_bind_l; [apply bead_loop_step|]. intros _.
    apply lists_bind_l; [done|]. intros _.
    apply lists_bind_r; [by right|]. intros sessions.
    apply keeps_bind; [done|]. intros _.
    apply keeps_bind; [apply session_loop_step|]. intros _.
    do 4 (apply keeps_bind; [done|]; intros _).
    apply keeps_bind.
    { destruct (bool_decide _); [done|].
      apply keeps_bind; [done|]. intros _. apply id_loop_step. }
    intros _. apply keeps_bind.
    { destruct (bool_decide _); [done|].
      apply keeps_bind; [done|]. intros _. apply id_loop_step. }
    intros _. by destruct (_ && _). }
  specialize (Hlog r). specialize (Hreg r).
  pose proof (read_only_events _ Hlog) as Hev.
  split_and!; [done| | | |done].
  - apply omap_none. eapply Forall_impl; [exact Hev|]. by intros e ->.
  - apply omap_none. eapply Forall_impl; [exact Hev|]. by intros e ->.
  - apply sync_count_quiet. eapply Forall_impl; [exact Hev|]. by intros e ->.
Qed.

Lemma xbind_of_run {A B : Type} (m : X A) (f : A -> X B) (r r' : R) a l :
  m r = XRun (Ret a) r' l -> (m ≫= f) r = xpre l (f a r').
Proof. intros H. rewrite xbind_run, H. done. Qed.

Lemma call_list_all_bind {B : Type} (f : list handle -> X B) (r : R) :
  (call_list_all ≫= f) r =
  xpre [ListAll] (f (list_all_sessions r).1 (list_all_sessions r).2).
Proof. done. Qed.

Lemma bead_loop_run issues ids (r : R) :
  Forall (fun k => is_Some (slice_to 50 (title_of issues k))) ids ->
  exists ls, bead_loop issues ids r = XRun (Ret tt) r (Report <$> ls) /\
             Forall (fun l => is_drift_line l = false) ls.
Proof.
  induction 1 as [|k ids [t Hk] _ (ls & IH & Hls)]; [by exists []|].
  unfold title_of in Hk. exists (LnBead k t :: ls). cbn [bead_loop].
  rewrite Hk, say_bind, IH. split; [done|]. by constructor.
Qed.

Lemma session_loop_run active (r : R) :
  Forall (fun s => is_Some (slice_to 40 (h_title s))) active ->
  exists ls, session_loop active r = XRun (Ret tt) r (Report <$> ls) /\
             Forall (fun l => is_drift_line l = false) ls.
Proof.
  induction 1 as [|s active [t Hs] _ (ls & IH & Hls)]; [by exists []|].
  eexists (LnSession _ _ t _ :: ls). cbn [session_loop].
  rewrite Hs, say_bind, IH. split; [done|]. by constructor.
Qed.

Lemma id_block_run (header : line) ids (r : R) :
  (say header;; id_loop ids) r = XRun (Ret tt) r (Report <$> (header :: (LnId <$> ids))).
Proof. by rewrite say_bind, id_loop_run. Qed.

Lemma drift_tail_run (missing orphaned : gset key) (r : R) :
  ((if bool_decide (missing = ∅) then mret tt
    else say LnMissing;; id_loop (set_iter missing));;
   (if bool_decide (orphaned = ∅) then mret tt
    else say LnOrphaned;; id_loop (set_iter orphaned));;
   (if bool_decide (missing = ∅) && bool_decide (orphaned = ∅) then say LnInSync
    else mret tt)) r =
  XRun (Ret tt) r (Report <$> drift_lines missing orphaned).
Proof.
  unfold drift_lines.
  destruct (bool_decide (missing = ∅)), (bool_decide (orphaned = ∅)); cbn [andb].
  - by rewrite !xret_bind.
  - rewrite xret_bind, (xbind_of_run _ _ _ _ _ _ (id_block_run _ _ _)).
    unfold xpre. cbn [xresult xregistry xlog mret X_ret app].
    by rewrite !app_nil_r.
  - rewrite (xbind_of_run _ _ _ _ _ _ (id_block_run _ _ _)), xret_bind.
    unfold xpre. cbn [xresult xregistry xlog mret X_ret app].
    by rewrite !app_nil_r.
  - rewrite (xbind_of_run _ _ _ _ _ _ (id_block_run _ _ _)).
    rewrite (xbind_of_run _ _ _ _ _ _ (id_block_run _ _ _)).
    unfold xpre. cbn [xresult xregistry xlog mret X_ret app].
    rewrite ?app_nil_r. by rewrite <- fmap_app.
Qed.

(** The report when nothing raises: the lines before the drift section, then
    the drift section. *)
Lemma status_report_run fs (r : R) issues :
  result (load_issues loads fs r) = Ret issues ->
  well_typed issues ->
  Forall (fun k => is_int k = true) (elements (get_in_progress_beads issues)) \/
  Forall (fun k => is_str k = true) (elements (get_in_progress_beads issues)) ->
  Forall (fun s => is_Some (slice_to 40 (h_title s))) (list_all_sessions r).1 ->
  let x := status_report loads fs r in
  exists head,
    Forall (fun l => is_drift_line l = false) head /\
    xresult x = Ret tt /\
    xregistry x = (list_all_sessions r).2 /\
    report_lines (xlog x) =
      head ++ drift_lines (get_in_progress_beads issues ∖ active_ids r)
                          (active_ids r ∖ get_in_progress_beads issues).
Proof.
  intros Hload Hwt Hkind Htitles. cbv zeta.
  destruct (py_sorted_same_kind id _ Hkind) as [ids Hsort].
  destruct (py_sorted_Ret _ _ _ Hsort) as [Hperm _].
  pose proof (load_issues_registry loads fs r) as Hreg.
  destruct (bead_loop_run issues ids r) as (beads & Hbeads & Hbl).
  { apply Forall_forall. intros k _. unfold title_of.
    destruct (issues !! k) as [issue|] eqn:Hk; simpl; [|by eexists].
    specialize (Hwt k issue Hk). simpl in Hwt. unfold well_typed_issue in Hwt.
    destruct (key_of _); [|done]. destruct (slice_to 50 _); [by eexists|done]. }
  destruct (session_loop_run
    (filter (fun s => h_is_active s = true) (list_all_sessions r).1)
    (list_all_sessions r).2) as (sess & Hsess & Hsl).
  { apply Forall_forall. intros s [_ Hs]%list_elem_of_filter.
    by apply (proj1 (Forall_forall _ _) Htitles). }
  unfold status_report.
  rewrite !say_bind, (daemon_bind _ _ _ _ Hload), Hreg. cbv beta zeta.
  rewrite say_bind, Hsort, xlift_bind, (xbind_of_run _ _ _ _ _ _ Hbeads).
  rewrite say_bind, call_list_all_bind. cbv beta zeta.
  rewrite say_bind, (xbind_of_run _ _ _ _ _ _ Hsess), !say_bind.
  fold (active_ids r).
  set (missing := get_in_progress_beads issues ∖ active_ids r).
  set (orphaned := active_ids r ∖ get_in_progress_beads issues).
  unfold drift_lines.
  exists ([LnStatusReport; LnBlank;
           LnInProgressCount (size (get_in_progress_beads issues))] ++ beads ++
          [LnBlank;
           LnActiveCount (length (filter (fun s => h_is_active s = true)
                                    (list_all_sessions r).1))] ++ sess ++
          [LnBlank;
           LnCompletedCount (length (filter (fun s => h_state s = COMPLETED)
                                       (list_all_sessions r).1));
           LnFailedCount (length (filter (fun s => h_state s = FAILED)
                                    (list_all_sessions r).1));
           LnBlank]).
  split.
  { repeat (apply Forall_app; split); try done; by repeat constructor. }
  rewrite (drift_tail_run missing orphaned (list_all_sessions r).2).
  rewrite !xpre_xpre, xpre_run. cbn [xresult xregistry xlog].
  split_and!; [done|done|]. autorewrite with outputs.
  unfold drift_lines. by rewrite <- !app_assoc.
Qed.

Lemma in_sync_not_in_block (header : line) (s : gset key) :
  header <> LnInSync ->
  LnInSync ∉ (if bool_decide (s = ∅) then [] else header :: (LnId <$> set_iter s)).
Proof.
  intros Hh. case_bool_decide; [apply not_elem_of_nil|].
  rewrite not_elem_of_cons. split; [done|].
  rewrite list_elem_of_fmap. by intros (? & ? & ?).
Qed.

Lemma drift_lines_in_sync (missing orphaned : gset key) :
  LnInSync ∈ drift_lines missing orphaned <-> missing = ∅ /\ orphaned = ∅.
Proof.
  unfold drift_lines. rewrite !elem_of_app. split.
  - intros [H|[H|H]].
    + by apply (in_sync_not_in_block LnMissing) in H.
    + by apply (in_sync_not_in_block LnOrphaned) in H.
    + do 2 case_bool_decide; cbn [andb] in H; try done; by apply elem_of_nil in H.
  - intros [-> ->]. right; right.
    rewrite !bool_decide_eq_true_2 by done. apply list_elem_of_here.
Qed.

Lemma id_in_block (header : line) (s : gset key) id :
  header <> LnId id ->
  LnId id ∈ (if bool_decide (s = ∅) then [] else header :: (LnId <$> set_iter s)) <->
  id ∈ s.
Proof.
  intros Hh. case_bool_decide as Hs.
  - subst. rewrite elem_of_nil. set_solver.
  - rewrite elem_of_cons, list_elem_of_fmap. split.
    + intros [?|(k & [= ->] & Hk)]; [done|]. by apply elem_of_set_iter in Hk.
    + intros Hk. right. exists id. split; [done|]. by apply elem_of_set_iter.
Qed.

Lemma drift_lines_id (missing orphaned : gset key) id :
  LnId id ∈ drift_lines missing orphaned <-> id ∈ missing \/ id ∈ orphaned.
Proof.
  unfold drift_lines.
  rewrite !elem_of_app, (id_in_block LnMissing), (id_in_block LnOrphaned) by done.
  split; [|tauto].
  intros [?|[?|H]]; [tauto|tauto|].
  destruct (_ && _); [by apply list_elem_of_singleton in H|by apply elem_of_nil in H].
Qed.

Lemma drift_after_head head (missing orphaned : gset key) l :
  Forall (fun l => is_drift_line l = false) head ->
  is_drift_line l = true ->
  l ∈ head ++ drift_lines missing orphaned <-> l ∈ drift_lines missing orphaned.
Proof.
  intros Hhead Hl. rewrite elem_of_app. split; [|by right].
  intros [Hin|?]; [|done]. rewrite Forall_forall in Hhead.
  specialize (Hhead l Hin). congruence.
Qed.

Lemma differences_empty (a b : gset key) : a ∖ b = ∅ /\ b ∖ a = ∅ <-> a = b.
Proof.
  split.
  - intros [H1 H2]. apply set_eq. intros k. split; intros Hk.
    + destruct (decide (k ∈ b)) as [|Hn]; [done|].
      assert (Hin : k ∈ a ∖ b) by (apply elem_of_difference; done).
      rewrite H1 in Hin. by apply not_elem_of_empty in Hin.
    + destruct (decide (k ∈ a)) as [|Hn]; [done|].
      assert (Hin : k ∈ b ∖ a) by (apply elem_of_difference; done).
      rewrite H2 in Hin. by apply not_elem_of_empty in Hin.
  - intros ->. split; apply set_eq; intros k;
      rewrite elem_of_difference, elem_of_empty; tauto.
Qed.

(** What the drift section of the status report says, when the report is
    printed to its end: it says "in sync" exactly when the in-progress beads
    are the beads of the active sessions, and it lists a bead exactly when
    the bead is in progress without active session (missing) or has an active
    session without being in progress (orphaned). *)
Theorem status_report_drift fs (r : R) issues :
  result (load_issues loads fs r) = Ret issues ->
  well_typed issues ->
  Forall (fun k => is_int k = true) (elements (get_in_progress_beads issues)) \/
  Forall (fun k => is_str k = true) (elements (get_in_progress_beads issues)) ->
  Forall (fun s => is_Some (slice_to 40 (h_title s))) (list_all_sessions r).1 ->
  let x := status_report loads fs r in
  let lines := report_lines (xlog x) in
  xresult x = Ret tt /\
  (LnInSync ∈ lines <-> get_in_progress_beads issues = active_ids r) /\
  (forall id, LnId id ∈ lines <->
              id ∈ get_in_progress_beads issues ∖ active_ids r \/
              id ∈ active_ids r ∖ get_in_progress_beads issues).
Proof.
  intros Hload Hwt Hkind Htitles. cbv zeta.
  destruct (status_report_run fs r issues Hload Hwt Hkind Htitles)
    as (head & Hhead & Hres & _ & Hlines).
  rewrite Hlines. split_and!; [done| |].
  - rewrite drift_after_head, drift_lines_in_sync by done.
    apply differences_empty.
  - intros id. by rewrite drift_after_head, drift_lines_id.
Qed.

(** A pass with nothing to spawn and nothing to terminate. *)
Lemma sync_sessions_idle fs dry_run verbose (r : R) issues closed :
  result (load_issues loads fs r) = Ret issues ->
  get_closed_beads issues = Ret closed ->
  get_in_progress_beads issues ∖ live_ids r = ∅ ->
  live_ids r ∩ closed = ∅ ->
  let x := sync_sessions loads fs dry_run verbose r in
  result x = Ret ∅ /\ spawn_calls (log x) = [] /\ terminate_calls (log x) = [].
Proof.
  intros Hload Hclosed H1 H2. cbv zeta.
  rewrite (sync_sessions_unfold loads _ _ _ _ _ _ Hload Hclosed). cbv zeta.
  rewrite H1, H2, set_iter_empty. simpl.
  destruct (load_issues_no_calls loads fs r) as [L1 L2].
  unfold spawn_calls, terminate_calls in *.
  rewrite !omap_app, L1, L2. by simpl.
Qed.

(** When the status report says "in sync" and the two listings of the
    session manager agree on the active sessions, a pass has nothing to do:
    it returns the empty record without spawning or terminating. *)
Theorem in_sync_means_nothing_to_do fs dry_run verbose (r : R) issues :
  result (load_issues loads fs r) = Ret issues ->
  well_typed issues ->
  Forall (fun k => is_int k = true) (elements (get_in_progress_beads issues)) \/
  Forall (fun k => is_str k = true) (elements (get_in_progress_beads issues)) ->
  Forall (fun s => is_Some (slice_to 40 (h_title s))) (list_all_sessions r).1 ->
  live_ids r = active_ids r ->
  LnInSync ∈ report_lines (xlog (status_report loads fs r)) ->
  let x := sync_sessions loads fs dry_run verbose r in
  result x = Ret ∅ /\ spawn_calls (log x) = [] /\ terminate_calls (log x) = [].
Proof.
  intros Hload Hwt Hkind Htitles Hlive Hsync.
  destruct (status_report_run fs r issues Hload Hwt Hkind Htitles)
    as (head & Hhead & _ & _ & Hlines).
  rewrite Hlines, drift_after_head, drift_lines_in_sync in Hsync by done.
  destruct Hsync as [Hm Ho].
  pose proof (active_inactive_disjoint issues) as Hdisj.
  apply (sync_sessions_idle fs dry_run verbose r issues (InactiveSet issues));
    [done|by apply get_closed_beads_total| |]; rewrite Hlive; set_solver.
Qed.

End command_facts.

(** ** The further properties at concrete inputs *)

Lemma fake_live_ids (r : fake_registry) : live_ids r = fake_live r.
Proof.
  unfold live_ids. simpl. rewrite <- list_fmap_compose. apply set_eq. intros k.
  rewrite elem_of_list_to_set, list_elem_of_fmap. split.
  - intros (k' & -> & Hk). by apply elem_of_elements in Hk.
  - intros Hk. exists k. split; [done|]. by apply elem_of_elements.
Qed.

(** The test session manager is lawful. *)
Lemma fake_lawful : LawfulManager fake_registry.
Proof.
  split.
  - intros r. by rewrite !fake_live_ids.
  - intros id r s r'. rewrite !fake_live_ids. simpl.
    case_bool_decide; [done|]. by intros [= _ <-].
  - intros id r r'. rewrite !fake_live_ids. simpl.
    case_bool_decide; [|done]. by intros [= <-].
  - intros id r r'. rewrite !fake_live_ids. simpl.
    case_bool_decide; [done|]. by intros [= <-].
  - intros id r r'. rewrite !fake_live_ids. simpl.
    case_bool_decide; [|done]. by intros [= <-].
Qed.

Lemma get_closed_beads_error_witness :
  (exists id issue, issues_list_status !! id = Some issue /\
                    key_of (dict_get issue "status" PNone) = None) /\
  get_closed_beads issues_list_status = Raise TypeError.
Proof.
  assert (H : exists id issue, issues_list_status !! id = Some issue /\
                               key_of (dict_get issue "status" PNone) = None).
  { exists W1, [("id", PStr "W1"); ("status", PList [PInt 1])].
    split; [vm_compute; reflexivity|reflexivity]. }
  split; [exact H|].
  exact (proj2 (proj2 (get_closed_beads_error issues_list_status)) H).
Defined.

Lemma unhashable_status_stops_pass_witness :
  result (load_issues json_loads (Some file_list_status) consistent_A)
  = Ret issues_list_status /\
  issues_list_status !! W1 = Some [("id", PStr "W1"); ("status", PList [PInt 1])] /\
  key_of (dict_get [("id", PStr "W1"); ("status", PList [PInt 1])] "status" PNone) = None /\
  sync_sessions json_loads (Some file_list_status) false true consistent_A =
  Run (Raise TypeError) consistent_A
      (EvSync false true :: log (load_issues json_loads (Some file_list_status) consistent_A)).
Proof.
  assert (H1 : result (load_issues json_loads (Some file_list_status) consistent_A)
               = Ret issues_list_status) by (vm_compute; reflexivity).
  assert (H2 : issues_list_status !! W1
               = Some [("id", PStr "W1"); ("status", PList [PInt 1])])
    by (vm_compute; reflexivity).
  assert (H3 : key_of (dict_get [("id", PStr "W1"); ("status", PList [PInt 1])]
                         "status" PNone) = None) by reflexivity.
  repeat (split; [assumption|]).
  exact (unhashable_status_stops_pass json_loads (Some file_list_status) false true
           consistent_A issues_list_status W1 _ H1 H2 H3).
Defined.

Lemma verbose_only_prints_witness :
  result (load_issues json_loads (Some file_C) registry_C) = Ret issues_C /\
  well_typed issues_C /\
  let a := sync_sessions json_loads (Some file_C) false true registry_C in
  let b := sync_sessions json_loads (Some file_C) false false registry_C in
  result a = result b /\ registry a = registry b /\
  manager_calls (log a) = manager_calls (log b).
Proof.
  assert (H1 : result (load_issues json_loads (Some file_C) registry_C) = Ret issues_C)
    by (vm_compute; reflexivity).
  assert (H2 : well_typed issues_C) by (unfold well_typed; by_evaluation).
  repeat (split; [assumption|]).
  exact (verbose_only_prints json_loads (Some file_C) false registry_C issues_C H1 H2).
Defined.

Lemma quiet_pass_ignores_titles_witness :
  result (load_issues json_loads (Some file_number_title) no_sessions)
  = Ret issues_number_title /\
  get_closed_beads issues_number_title = Ret ∅ /\
  result (sync_sessions json_loads (Some file_number_title) false true no_sessions)
  = Raise TypeError /\
  exists actions,
    result (sync_sessions json_loads (Some file_number_title) false false no_sessions)
    = Ret actions /\
    dom actions = (get_in_progress_beads issues_number_title ∖ live_ids no_sessions) ∪
                  (live_ids no_sessions ∩ ∅).
Proof.
  assert (H1 : result (load_issues json_loads (Some file_number_title) no_sessions)
               = Ret issues_number_title) by (vm_compute; reflexivity).
  assert (H2 : get_closed_beads issues_number_title = Ret ∅) by (vm_compute; reflexivity).
  assert (H3 : result (sync_sessions json_loads (Some file_number_title) false true
                         no_sessions) = Raise TypeError) by (vm_compute; reflexivity).
  repeat (split; [assumption|]).
  exact (quiet_pass_ignores_titles json_loads (Some file_number_title) false no_sessions
           issues_number_title ∅ H1 H2).
Defined.

Lemma second_pass_retries_failures_witness :
  LawfulManager fake_registry /\
  result (load_issues json_loads (Some file_E) registry_E) = Ret issues_E /\
  well_typed issues_E /\
  let x1 := sync_sessions json_loads (Some file_E) false true registry_E in
  let x2 := sync_sessions json_loads (Some file_E) false true (registry x1) in
  exists actions2,
    result x2 = Ret actions2 /\
    dom actions2 = list_to_set (failed (spawn_calls (log x1))) ∪
                   list_to_set (failed (terminate_calls (log x1))) /\
    (failed (spawn_calls (log x1)) = [] ->
     failed (terminate_calls (log x1)) = [] ->
     actions2 = ∅ /\ spawn_calls (log x2) = [] /\ terminate_calls (log x2) = []).
Proof.
  assert (H1 : result (load_issues json_loads (Some file_E) registry_E) = Ret issues_E)
    by (vm_compute; reflexivity).
  assert (H2 : well_typed issues_E) by (unfold well_typed; by_evaluation).
  split; [exact fake_lawful|]. repeat (split; [assumption|]).
  exact (second_pass_retries_failures (LM:=fake_lawful) json_loads (Some file_E) true
           registry_E issues_E H1 H2).
Defined.

(** The second pass of scenario E tries W1 again, and W1 only. *)
Example scenario_E_retry :
  result (sync_sessions json_loads (Some file_E) false true
            (registry (sync_sessions json_loads (Some file_E) false true registry_E)))
  = Ret {[ W1 := "spawn_failed" ]}.
Proof. vm_compute. reflexivity. Qed.

Lemma watch_loop_passes_witness :
  let ticks := [None; Some file_A; Some (File 90 [] false); Some (File 200 [] false)] in
  let x := watch_loop json_loads false true ticks no_sessions in
  result x = Ret tt /\
  rises ticks 0 = 2%nat /\
  (sync_count (log x) <= rises ticks 0)%nat /\
  changed_count (log x) = (sync_count (log x) - 1)%nat /\
  (result x = Ret tt -> sync_count (log x) = rises ticks 0).
Proof.
  cbv zeta. split; [vm_compute; reflexivity|]. split; [reflexivity|].
  exact (watch_loop_passes json_loads false true
           [None; Some file_A; Some (File 90 [] false); Some (File 200 [] false)]
           no_sessions).
Defined.

Lemma load_issues_keeps_every_id_witness :
  loadable json_loads (Some file_twice) /\
  exists issues,
    result (load_issues json_loads (Some file_twice) no_sessions) = Ret issues /\
    forall id, id ∈ dom issues <->
               exists line issue, line ∈ file_lines (Some file_twice) /\
                                  record_of json_loads line = Some (id, issue).
Proof.
  assert (H1 : loadable json_loads (Some file_twice)).
  { repeat (constructor; [vm_compute; reflexivity|]). constructor. }
  split; [assumption|].
  exact (load_issues_keeps_every_id json_loads (Some file_twice) no_sessions H1).
Defined.

Lemma fake_titles (r : fake_registry) :
  Forall (fun s => is_Some (slice_to 40 (h_title s))) (list_all_sessions r).1.
Proof. simpl. apply Forall_fmap, Forall_forall. intros id _. by eexists. Qed.

Lemma fake_active_ids (r : fake_registry) : active_ids r = fake_live r.
Proof.
  unfold active_ids. simpl. apply set_eq. intros k.
  rewrite elem_of_list_to_set, list_elem_of_fmap. split.
  - intros (s & -> & [_ Hs]%list_elem_of_filter).
    apply list_elem_of_fmap in Hs as (id & -> & Hid). by apply elem_of_elements in Hid.
  - intros Hk. exists (Handle k RUNNING (PInt 1) (PStr "session") true).
    split; [done|]. apply list_elem_of_filter. split; [done|].
    apply list_elem_of_fmap. exists k. split; [done|]. by apply elem_of_elements.
Qed.

Lemma one_shot_summary_witness :
  let actions : gmap key string := {[ W1 := "spawn_failed"; W2 := "spawned" ]} in
  result (sync_sessions json_loads (Some file_E) false true registry_E) = Ret actions /\
  (Forall (fun i => is_int i.1 = true) (map_to_list actions) \/
   Forall (fun i => is_str i.1 = true) (map_to_list actions)) /\
  let x := one_shot json_loads (Some file_E) false true registry_E in
  xresult x = Ret (size actions) /\
  xregistry x = registry (sync_sessions json_loads (Some file_E) false true registry_E) /\
  daemon_events (xlog x) = log (sync_sessions json_loads (Some file_E) false true registry_E) /\
  exists items,
    items ≡ₚ map_to_list actions /\
    Sorted (le_by fst) items /\
    report_lines (xlog x) =
      [LnOneShot; LnBlank] ++
      (if bool_decide (actions = ∅) then [LnNoActions]
       else [LnBlank; LnSummary] ++ ((fun i : key * string => LnAction i.1 i.2) <$> items)).
Proof.
  cbv zeta.
  assert (H1 : result (sync_sessions json_loads (Some file_E) false true registry_E)
               = Ret {[ W1 := "spawn_failed"; W2 := "spawned" ]})
    by (vm_compute; reflexivity).
  assert (H2 : Forall (fun i : key * string => is_int i.1 = true)
                 (map_to_list ({[ W1 := "spawn_failed"; W2 := "spawned" ]}
                                 : gmap key string)) \/
               Forall (fun i : key * string => is_str i.1 = true)
                 (map_to_list ({[ W1 := "spawn_failed"; W2 := "spawned" ]}
                                 : gmap key string))).
  { right. by_evaluation. }
  repeat (split; [assumption|]).
  exact (one_shot_summary json_loads (Some file_E) false true registry_E _ H1 H2).
Defined.

(** The summary of scenario E, line by line. *)
Example one_shot_scenario_E :
  report_lines (xlog (one_shot json_loads (Some file_E) false false registry_E))
  = [LnOneShot; LnBlank; LnBlank; LnSummary;
     LnAction W1 "spawn_failed"; LnAction W2 "spawned"].
Proof. vm_compute. reflexivity. Qed.

Lemma one_shot_mixed_ids_witness :
  let actions : gmap key string := {[ KInt 5 := "spawned"; W1 := "spawned" ]} in
  result (sync_sessions json_loads (Some file_mixed_ids) false true no_sessions)
  = Ret actions /\
  KInt 5 ∈ dom actions /\ W1 ∈ dom actions /\
  is_int (KInt 5) = true /\ is_str W1 = true /\
  let x := one_shot json_loads (Some file_mixed_ids) false true no_sessions in
  xresult x = Raise TypeError /\
  xregistry x = registry (sync_sessions json_loads (Some file_mixed_ids) false true
                            no_sessions) /\
  daemon_events (xlog x) = log (sync_sessions json_loads (Some file_mixed_ids) false true
                                  no_sessions) /\
  report_lines (xlog x) = [LnOneShot; LnBlank; LnBlank; LnSummary].
Proof.
  cbv zeta.
  assert (H1 : result (sync_sessions json_loads (Some file_mixed_ids) false true
                         no_sessions)
               = Ret {[ KInt 5 := "spawned"; W1 := "spawned" ]})
    by (vm_compute; reflexivity).
  assert (H2 : KInt 5 ∈ dom ({[ KInt 5 := "spawned"; W1 := "spawned" ]} : gmap key string))
    by by_evaluation.
  assert (H3 : W1 ∈ dom ({[ KInt 5 := "spawned"; W1 := "spawned" ]} : gmap key string))
    by by_evaluation.
  assert (H4 : is_int (KInt 5) = true) by reflexivity.
  assert (H5 : is_str W1 = true) by reflexivity.
  repeat (split; [assumption|]).
  exact (one_shot_mixed_ids json_loads (Some file_mixed_ids) false true no_sessions
           _ (KInt 5) W1 H1 H2 H3 H4 H5).
Defined.

Lemma main_exit_status_witness :
  xresult (main json_loads (CmdSync false true) (Some file_E) [] registry_E) = Ret 0 /\
  0 = 0.
Proof.
  assert (H : xresult (main json_loads (CmdSync false true) (Some file_E) [] registry_E)
              = Ret 0) by (vm_compute; reflexivity).
  split; [exact H|].
  exact (main_exit_status json_loads (CmdSync false true) (Some file_E) [] registry_E 0 H).
Defined.

Lemma status_report_drift_witness :
  result (load_issues json_loads (Some file_E) consistent_A) = Ret issues_E /\
  well_typed issues_E /\
  (Forall (fun k => is_int k = true) (elements (get_in_progress_beads issues_E)) \/
   Forall (fun k => is_str k = true) (elements (get_in_progress_beads issues_E))) /\
  Forall (fun s => is_Some (slice_to 40 (h_title s))) (list_all_sessions consistent_A).1 /\
  let x := status_report json_loads (Some file_E) consistent_A in
  let lines := report_lines (xlog x) in
  xresult x = Ret tt /\
  (LnInSync ∈ lines <-> get_in_progress_beads issues_E = active_ids consistent_A) /\
  (forall id, LnId id ∈ lines <->
              id ∈ get_in_progress_beads issues_E ∖ active_ids consistent_A \/
              id ∈ active_ids consistent_A ∖ get_in_progress_beads issues_E).
Proof.
  assert (H1 : result (load_issues json_loads (Some file_E) consistent_A) = Ret issues_E)
    by (vm_compute; reflexivity).
  assert (H2 : well_typed issues_E) by (unfold well_typed; by_evaluation).
  assert (H3 : Forall (fun k => is_int k = true)
                 (elements (get_in_progress_beads issues_E)) \/
               Forall (fun k => is_str k = true)
                 (elements (get_in_progress_beads issues_E))).
  { right. by_evaluation. }
  pose proof (fake_titles consistent_A) as H4.
  repeat (split; [assumption|]).
  exact (status_report_drift json_loads (Some file_E) consistent_A issues_E H1 H2 H3 H4).
Defined.

(** The report for scenario E with a session for W1 only: W2 is missing. *)
Example status_report_missing :
  report_lines (xlog (status_report json_loads (Some file_E) consistent_A))
  = [LnStatusReport; LnBlank; LnInProgressCount 2;
     LnBead W1 (PStr "First"); LnBead W2 (PStr "Second"); LnBlank;
     LnActiveCount 1; LnSession true W1 (PStr "session") (PInt 1); LnBlank;
     LnCompletedCount 0; LnFailedCount 0; LnBlank;
     LnMissing; LnId W2].
Proof. vm_compute. reflexivity. Qed.

Lemma in_sync_means_nothing_to_do_witness :
  result (load_issues json_loads (Some file_A) consistent_A) = Ret issues_A /\
  well_typed issues_A /\
  (Forall (fun k => is_int k = true) (elements (get_in_progress_beads issues_A)) \/
   Forall (fun k => is_str k = true) (elements (get_in_progress_beads issues_A))) /\
  Forall (fun s => is_Some (slice_to 40 (h_title s))) (list_all_sessions consistent_A).1 /\
  live_ids consistent_A = active_ids consistent_A /\
  LnInSync ∈ report_lines (xlog (status_report json_loads (Some file_A) consistent_A)) /\
  let x := sync_sessions json_loads (Some file_A) false true consistent_A in
  result x = Ret ∅ /\ spawn_calls (log x) = [] /\ terminate_calls (log x) = [].
Proof.
  assert (H1 : result (load_issues json_loads (Some file_A) consistent_A) = Ret issues_A)
    by (vm_compute; reflexivity).
  assert (H2 : well_typed issues_A) by (unfold well_typed; by_evaluation).
  assert (H3 : Forall (fun k => is_int k = true)
                 (elements (get_in_progress_beads issues_A)) \/
               Forall (fun k => is_str k = true)
                 (elements (get_in_progress_beads issues_A))).
  { right. by_evaluation. }
  pose proof (fake_titles consistent_A) as H4.
  assert (H5 : live_ids consistent_A = active_ids consistent_A).
  { by rewrite fake_live_ids, fake_active_ids. }
  assert (H6 : LnInSync ∈ report_lines
                 (xlog (status_report json_loads (Some file_A) consistent_A))).
  { vm_compute. repeat first [apply list_elem_of_here | apply list_elem_of_further]. }
  repeat (split; [assumption|]).
  exact (in_sync_means_nothing_to_do json_loads (Some file_A) false true consistent_A
           issues_A H1 H2 H3 H4 H5 H6).
Defined.
